(** * leds-pwm: PWM based LED control (drivers/leds/leds-pwm.c)

    A shallow embedding of the driver and the properties of its
    brightness-to-duty conversion, element apply, brightness set,
    construction and probe error path.

    C integers are modelled as [Z] with the conversions written out:
    [unsigned int] is 32 bits, [unsigned long long] 64 bits, [int] 32 bits
    two's complement.  A conversion to [int] of a value that does not fit
    wraps modulo 2^32, as the compilers the kernel is built with define it. *)

From Stdlib Require Import ZArith Lia List String.
From stdpp Require Import base numbers option list.

Local Open Scope Z_scope.

(** ** Machine integers *)

Definition UINT_MAX : Z := 2 ^ 32 - 1.
Definition INT_MAX : Z := 2 ^ 31 - 1.
Definition INT_MIN : Z := - 2 ^ 31.

(** Conversion to [unsigned long long]. *)
Definition to_u64 (x : Z) : Z := x mod 2 ^ 64.

(** Conversion to [int]. *)
Definition to_int (x : Z) : Z := (x + 2 ^ 31) mod 2 ^ 32 - 2 ^ 31.

(** The values an [unsigned int] object can hold. *)
Definition is_uint (x : Z) : Prop := 0 <= x <= UINT_MAX.

(** The values an [int] object can hold. *)
Definition is_int (x : Z) : Prop := INT_MIN <= x <= INT_MAX.

(** Modelled from the spec: [do_div(n, base)], the 64-by-32 bit division
    macro of the kernel headers, which are not among the sources.  It
    replaces the 64-bit [n] by the truncated quotient [n / base]; with a zero
    [base] the division is undefined, which is [None] here. *)
Definition do_div (n base : Z) : option Z :=
  if base =? 0 then None else Some (n / base).

(** ** The duty computation of [led_pwm_set] *)

(** Lines 83-89: the value of the local [unsigned long long duty] once the
    polarity has been taken into account. *)
Definition duty64 (period active_low raw_value max_value : Z) : option Z :=
  let duty := period in
  let duty := to_u64 (duty * raw_value) in
  match do_div duty max_value with
  | None => None
  | Some duty =>
      Some (if active_low =? 0 then duty else to_u64 (period - duty))
  end.

(** Line 91: the value is stored in the element's [int duty] field. *)
Definition stored_duty (period active_low raw_value max_value : Z) : option Z :=
  to_int <$> duty64 period active_low raw_value max_value.


(** ** Data model

    Pointers to PWM devices are handles; a pointer returned by one of the
    [devm_*pwm_get] functions is either a device or an encoded error
    ([IS_ERR] / [PTR_ERR]). *)

Definition handle : Type := nat.

Inductive pwm_ptr : Type :=
| PwmDev (h : handle)
| PwmErr (errno : positive).

(** [PTR_ERR]: the error code of an error pointer, a negative number. *)
Definition PTR_ERR (errno : positive) : Z := Z.neg errno.

(** [ERR_PTR]: the error pointer for a negative error code. *)
Definition ERR_PTR (r : Z) : pwm_ptr := PwmErr (Z.to_pos (- r)).

(** Constants of the kernel headers, which are not among the sources. *)
Definition EINVAL : Z := 22.
Definition ENOMEM : Z := 12.
Definition EPROBE_DEFER : Z := 517.

Definition LED_OFF : Z := 0.
Definition LED_CORE_SUSPENDRESUME : Z := Z.shiftl 1 16.

(** struct led_element_pwm *)
Record led_element_pwm : Type := {
  element_index : Z;      (* int *)
  pwm : handle;           (* struct pwm_device * *)
  active_low : Z;         (* unsigned int *)
  period : Z;             (* unsigned int *)
  duty : Z                (* int *)
}.

(** Modelled from the spec: struct led_color_element, the color channel of
    the LED core headers, which are not among the sources.  The fields are
    those the driver reads and writes: the name, the value, the upper bound
    [max_value], and [raw_value], the scaled intensity the brightness set
    works from. *)
Record led_color_element : Type := {
  ce_name : option string;
  value : Z;              (* unsigned int *)
  raw_value : Z;          (* unsigned int *)
  max_value : Z           (* unsigned int *)
}.

Inductive brightness_setter : Type := LedPwmSet.

(** Modelled from the spec: struct led_classdev of the LED core headers, with
    the fields the driver uses.  [num_color_elements] is the length of
    [color_elements]. *)
Record led_classdev : Type := {
  name : string;
  default_trigger : option string;
  brightness : Z;
  max_brightness : Z;
  flags : Z;
  color_elements : list led_color_element;
  brightness_set_blocking : option brightness_setter
}.

(** struct led_pwm_data; [num_elements] is the length of [elements]. *)
Record led_pwm_data : Type := {
  cdev : led_classdev;
  elements : list led_element_pwm
}.

(** struct led_pwm_priv: [leds] holds the [num_leds] registered LEDs, in
    slot order. *)
Record led_pwm_priv : Type := {
  leds : list led_pwm_data
}.

Definition num_leds (priv : led_pwm_priv) : nat := length (leds priv).

(** Modelled from the spec: struct led_pwm, the static description of one
    LED (linux/leds_pwm.h, not among the sources): name, default trigger,
    polarity, maximal brightness and fallback period, the last three
    unsigned. *)
Record led_pwm : Type := {
  lp_name : string;
  lp_default_trigger : option string;
  lp_active_low : Z;        (* u8 *)
  lp_max_brightness : Z;    (* unsigned *)
  lp_pwm_period_ns : Z      (* unsigned *)
}.

(** Modelled from the spec: a node of the hardware description tree under
    one LED node, with the properties [led_pwm_add_multi] reads. *)
Record elem_node : Type := {
  en_name : string;
  en_active_low : bool;     (* of_property_read_bool(.., "active-low") *)
  en_pwms : option nat      (* "pwms", the reference to a PWM channel *)
}.

(** Modelled from the spec: a child of the device's node, which describes
    one LED, with the properties [led_pwm_create_of] reads. *)
Record led_node : Type := {
  ln_name : string;
  ln_label : option string;             (* "label" *)
  ln_default_trigger : option string;   (* "linux,default-trigger" *)
  ln_max_brightness : option Z;         (* "max-brightness", u32 *)
  ln_active_low : bool;                 (* "active-low" *)
  ln_pwms : option nat;                 (* "pwms" *)
  ln_children : list elem_node
}.

(** ** What the driver observes and causes *)

Inductive event : Type :=
| EvScale (brightness : Z)
| EvPwmConfig (h : handle) (duty_ns period_ns : Z) (ret : Z)
| EvPwmEnable (h : handle) (ret : Z)
| EvPwmDisable (h : handle) (ret : Z)
| EvPwmApplyArgs (h : handle)
| EvPwmGet (p : pwm_ptr)
| EvDevErr (led : string) (ret : Z)
| EvRegister (slot : nat) (ret : Z)
| EvUnregister (slot : nat).

(** Modelled from the spec: the PWM channel provider (the PWM core and the
    chip drivers are not among the sources).  A handle supports configure,
    enable, disable and the query of the hardware period; each of the first
    three reports a status (0, or a fault) next to the new hardware state.
    Acquisition yields a device or an error, by name or by the channel
    reference of a tree node. *)
Class pwm_provider (HW : Type) : Type := {
  pwm_config : handle -> Z -> Z -> HW -> Z * HW;
  pwm_enable : handle -> HW -> Z * HW;
  pwm_disable : handle -> HW -> Z * HW;
  pwm_apply_args : handle -> HW -> HW;
  pwm_get_args : handle -> Z;
  devm_pwm_get : string -> pwm_ptr;
  devm_of_pwm_get : option nat -> pwm_ptr
}.

(** Modelled from the spec: the LED core (color scaling and registration
    collaborators, not among the sources).  Scaling updates the color
    elements of a class device for a brightness; registration reports a
    status and may adjust the class device; the setup of one color element
    from the tree reports a status and fills the element in.
    [devm_kzalloc_priv count] tells whether the allocation of the private
    data for [count] LEDs succeeds, the one allocation the driver checks; the
    arrays it allocates without a check are taken to be allocated. *)
Class led_core : Type := {
  LED_MULTI_COLOR_LED : Z;
  devm_kzalloc_priv : nat -> bool;
  led_scale_color_elements : led_classdev -> Z -> led_classdev;
  led_classdev_register : led_classdev -> Z * led_classdev;
  led_color_element_setup_of :
    led_classdev -> nat -> elem_node -> Z * led_classdev
}.

(** ** The state the driver runs in

    [hw] is the state of the PWM provider, [log] the calls made so far with
    what they returned, [registered] the slots of [priv->leds] whose class
    device is registered, [devres] the PWM devices held as managed resources
    of the platform device. *)

Record world (HW : Type) : Type := {
  hw : HW;
  log : list event;
  registered : list nat;
  devres : list handle
}.
Arguments hw {HW} _.
Arguments log {HW} _.
Arguments registered {HW} _.
Arguments devres {HW} _.

(** Where C leaves the behaviour undefined, the run stops with a fault. *)
Inductive fault : Type :=
| DivideByZero
| OutOfBounds.

Inductive outcome (HW A : Type) : Type :=
| Ok (a : A) (w : world HW)
| Fault (f : fault).
Arguments Ok {HW A} _ _.
Arguments Fault {HW A} _.

Definition M (HW A : Type) : Type := world HW -> outcome HW A.

Definition ret {HW A} (a : A) : M HW A := fun w => Ok a w.

Definition bind {HW A B} (m : M HW A) (k : A -> M HW B) : M HW B :=
  fun w => match m w with
           | Ok a w' => k a w'
           | Fault f => Fault f
           end.

Definition undefined {HW A} (f : fault) : M HW A := fun _ => Fault f.

Declare Scope drv_scope.
Delimit Scope drv_scope with drv.
Notation "x <- m ;; k" := (bind m (fun x => k))
  (at level 100, m at next level, right associativity) : drv_scope.
Notation "m ;;; k" := (bind m (fun _ => k))
  (at level 100, right associativity) : drv_scope.
Local Open Scope drv_scope.

Definition emit {HW} (e : event) : M HW unit :=
  fun w => Ok tt {| hw := hw w; log := log w ++ [e];
                    registered := registered w; devres := devres w |}.

(** Reading [a[i]] for an [int] index; outside the array the behaviour is
    undefined. *)
Definition array_read {HW A} (a : list A) (i : Z) : M HW A :=
  if i <? 0 then undefined OutOfBounds
  else match a !! Z.to_nat i with
       | Some x => ret x
       | None => undefined OutOfBounds
       end.

Section Driver.
Context {HW : Type} {P : pwm_provider HW} {L : led_core}.

(** *** Calls into the collaborators *)

Definition call_pwm_config (h : handle) (duty_ns period_ns : Z) : M HW Z :=
  fun w =>
    let '(r, hw') := pwm_config h duty_ns period_ns (hw w) in
    Ok r {| hw := hw'; log := log w ++ [EvPwmConfig h duty_ns period_ns r];
            registered := registered w; devres := devres w |}.

Definition call_pwm_enable (h : handle) : M HW Z :=
  fun w =>
    let '(r, hw') := pwm_enable h (hw w) in
    Ok r {| hw := hw'; log := log w ++ [EvPwmEnable h r];
            registered := registered w; devres := devres w |}.

Definition call_pwm_disable (h : handle) : M HW Z :=
  fun w =>
    let '(r, hw') := pwm_disable h (hw w) in
    Ok r {| hw := hw'; log := log w ++ [EvPwmDisable h r];
            registered := registered w; devres := devres w |}.

Definition call_pwm_apply_args (h : handle) : M HW unit :=
  fun w =>
    Ok tt {| hw := pwm_apply_args h (hw w); log := log w ++ [EvPwmApplyArgs h];
             registered := registered w; devres := devres w |}.

Definition call_led_scale_color_elements
    (led_cdev : led_classdev) (brightness : Z) : M HW led_classdev :=
  emit (EvScale brightness);;;
  ret (led_scale_color_elements led_cdev brightness).

(** *** __led_element_pwm_set

    The statuses of the three provider calls are dropped: the function is
    [void].  [pwm_config] takes [int] arguments, so the [unsigned int]
    period is converted. *)
Definition __led_element_pwm_set (elem_pwm : led_element_pwm) : M HW unit :=
  let new_duty := duty elem_pwm in
  _ <- call_pwm_config (pwm elem_pwm) new_duty (to_int (period elem_pwm));;
  if new_duty =? 0 then
    _ <- call_pwm_disable (pwm elem_pwm);; ret tt
  else
    _ <- call_pwm_enable (pwm elem_pwm);; ret tt.

(** *** led_pwm_set *)

(** The body of the loop, for the element [elem_pwm] of the array. *)
Definition led_pwm_set_element
    (led_cdev : led_classdev) (elem_pwm : led_element_pwm)
  : M HW led_element_pwm :=
  let element_index := element_index elem_pwm in
  if element_index <? 0 then ret elem_pwm
  else
    color_element <- array_read (color_elements led_cdev) element_index;;
    let raw_value := raw_value color_element in
    let max_value := max_value color_element in
    match stored_duty (period elem_pwm) (active_low elem_pwm)
                      raw_value max_value with
    | None => undefined DivideByZero
    | Some d =>
        let elem_pwm :=
          {| element_index := element_index; pwm := pwm elem_pwm;
             active_low := active_low elem_pwm; period := period elem_pwm;
             duty := d |} in
        __led_element_pwm_set elem_pwm;;;
        ret elem_pwm
    end.

(** [for (i = 0; i < led_dat->num_elements; i++)] over the array. *)
Fixpoint led_pwm_set_loop
    (led_cdev : led_classdev) (elems : list led_element_pwm)
  : M HW (list led_element_pwm) :=
  match elems with
  | [] => ret []
  | elem_pwm :: rest =>
      elem_pwm' <- led_pwm_set_element led_cdev elem_pwm;;
      rest' <- led_pwm_set_loop led_cdev rest;;
      ret (elem_pwm' :: rest')
  end.

Definition led_pwm_set (led_dat : led_pwm_data) (brightness : Z)
  : M HW (Z * led_pwm_data) :=
  led_cdev <- call_led_scale_color_elements (cdev led_dat) brightness;;
  elems <- led_pwm_set_loop led_cdev (elements led_dat);;
  ret (0, {| cdev := led_cdev; elements := elems |}).

(** *** Registration and managed resources *)

(** Modelled from the spec: the registration collaborator.  A registration
    that returns 0 puts the class device of the slot in the registry, an
    unregistration takes it out; what else the LED core does at these points
    is not part of the model. *)
Definition call_led_classdev_register (slot : nat) (led_cdev : led_classdev)
  : M HW (Z * led_classdev) :=
  fun w =>
    let '(r, led_cdev') := led_classdev_register led_cdev in
    Ok (r, led_cdev')
       {| hw := hw w; log := log w ++ [EvRegister slot r];
          registered := if r =? 0 then registered w ++ [slot] else registered w;
          devres := devres w |}.

Definition call_led_classdev_unregister (slot : nat) : M HW unit :=
  fun w =>
    Ok tt {| hw := hw w; log := log w ++ [EvUnregister slot];
             registered := List.remove Nat.eq_dec slot (registered w);
             devres := devres w |}.

(** A PWM device obtained through a [devm_] function is held as a managed
    resource of the platform device from then on; the driver has no call
    that gives it back. *)
Definition hold_pwm (p : pwm_ptr) : M HW pwm_ptr :=
  fun w =>
    Ok p {| hw := hw w; log := log w ++ [EvPwmGet p];
            registered := registered w;
            devres := match p with
                      | PwmDev h => devres w ++ [h]
                      | PwmErr _ => devres w
                      end |}.

Definition call_devm_pwm_get (con_id : string) : M HW pwm_ptr :=
  hold_pwm (devm_pwm_get con_id).

Definition call_devm_of_pwm_get (pwms : option nat) : M HW pwm_ptr :=
  hold_pwm (devm_of_pwm_get pwms).

Definition dev_err (led : string) (r : Z) : M HW unit :=
  emit (EvDevErr led r).

(** *** led_pwm_data_cleanup, led_pwm_cleanup *)

Definition led_pwm_data_cleanup (slot : nat) : M HW unit :=
  call_led_classdev_unregister slot.

(** [while (priv->num_leds--)]: the slots from the last one down. *)
Fixpoint led_pwm_cleanup_from (n : nat) : M HW unit :=
  match n with
  | O => ret tt
  | S n' => led_pwm_data_cleanup n';;; led_pwm_cleanup_from n'
  end.

Definition led_pwm_cleanup (priv : led_pwm_priv) : M HW unit :=
  led_pwm_cleanup_from (num_leds priv).

(** *** led_pwm_add_single *)

(** What [devm_kzalloc] returns: zeroed objects. *)
Definition zero_color_element : led_color_element :=
  {| ce_name := None; value := 0; raw_value := 0; max_value := 0 |}.

Definition zero_element : led_element_pwm :=
  {| element_index := 0; pwm := O; active_low := 0; period := 0; duty := 0 |}.

Definition set_value_max (ce : led_color_element) (v m : Z) : led_color_element :=
  {| ce_name := ce_name ce; value := v; raw_value := raw_value ce;
     max_value := m |}.

Definition set_color_elements (c : led_classdev) (l : list led_color_element)
  : led_classdev :=
  {| name := name c; default_trigger := default_trigger c;
     brightness := brightness c; max_brightness := max_brightness c;
     flags := flags c; color_elements := l;
     brightness_set_blocking := brightness_set_blocking c |}.

Definition set_brightness_set_blocking (c : led_classdev) : led_classdev :=
  {| name := name c; default_trigger := default_trigger c;
     brightness := brightness c; max_brightness := max_brightness c;
     flags := flags c; color_elements := color_elements c;
     brightness_set_blocking := Some LedPwmSet |}.

(** Lines 170-174: the period of the single element. *)
Definition single_period (pargs_period pwm_period_ns : Z) : Z :=
  let period := pargs_period in
  if (period =? 0) && (0 <? pwm_period_ns) then pwm_period_ns else period.

Definition led_pwm_add_single
    (priv : led_pwm_priv) (led : led_pwm) (child : option led_node)
  : M HW (Z * led_pwm_priv) :=
  let color_elements0 :=
    [ {| ce_name := Some "single"%string; value := 0; raw_value := 0;
         max_value := 0 |} ] in
  let cdev0 :=
    {| name := lp_name led; default_trigger := lp_default_trigger led;
       brightness := LED_OFF; max_brightness := lp_max_brightness led;
       flags := LED_CORE_SUSPENDRESUME; color_elements := color_elements0;
       brightness_set_blocking := None |} in
  p <- match child with
       | Some node => call_devm_of_pwm_get (ln_pwms node)
       | None => call_devm_pwm_get (lp_name led)
       end;;
  match p with
  | PwmErr errno =>
      let r := PTR_ERR errno in
      (if r =? - EPROBE_DEFER then ret tt else dev_err (lp_name led) r);;;
      ret (r, priv)
  | PwmDev h =>
      let cdev1 := set_brightness_set_blocking cdev0 in
      call_pwm_apply_args h;;;
      let elem :=
        {| element_index := 0; pwm := h; active_low := lp_active_low led;
           period := single_period (pwm_get_args h) (lp_pwm_period_ns led);
           duty := 0 |} in
      reg <- call_led_classdev_register (num_leds priv) cdev1;;
      let '(r, cdev2) := reg in
      if r =? 0 then
        color_element <- array_read (color_elements cdev2) 0;;
        let color_element :=
          set_value_max color_element (max_brightness cdev2)
                        (max_brightness cdev2) in
        let cdev3 :=
          set_color_elements cdev2
            (<[0%nat := color_element]> (color_elements cdev2)) in
        set <- led_pwm_set {| cdev := cdev3; elements := [elem] |}
                           (brightness cdev3);;
        ret (r, {| leds := leds priv ++ [snd set] |})
      else
        dev_err (lp_name led) r;;;
        ret (r, priv)
  end.

(** *** led_pwm_add_multi *)

(** [strncmp(elem_child->name, "element-", 8) == 0] *)
Definition is_element_node (n : elem_node) : bool :=
  String.prefix "element-" (en_name n).

Definition bool_to_uint (b : bool) : Z := if b then 1 else 0.

(** The variables the loop over the children updates. *)
Record multi_state : Type := {
  ms_cdev : led_classdev;
  ms_elements : list led_element_pwm;
  ms_elem_index : nat
}.

(** The body of [for_each_child_of_node(child, elem_child)] for one child;
    [inl ret] is the [return ret] inside the loop, [inr] the variables for
    the next iteration. *)
Definition led_pwm_add_multi_child
    (led : led_pwm) (elem_child : elem_node) (st : multi_state)
  : M HW (Z + multi_state) :=
  if is_element_node elem_child then
    let elem_index := ms_elem_index st in
    let '(r, cdev1) :=
      led_color_element_setup_of (ms_cdev st) elem_index elem_child in
    if negb (r =? 0) then ret (inl r)
    else
      match ms_elements st !! elem_index with
      | None => undefined OutOfBounds
      | Some slot =>
          p <- call_devm_of_pwm_get (en_pwms elem_child);;
          match p with
          | PwmErr errno =>
              let r := PTR_ERR errno in
              (if r =? - EPROBE_DEFER then ret tt
               else dev_err (lp_name led) r);;;
              ret (inl r)
          | PwmDev h =>
              call_pwm_apply_args h;;;
              let led_element :=
                {| element_index := to_int (Z.of_nat elem_index);
                   pwm := h;
                   active_low := bool_to_uint (en_active_low elem_child);
                   period := pwm_get_args h;
                   duty := duty slot |} in
              ret (inr {| ms_cdev := cdev1;
                          ms_elements :=
                            <[elem_index := led_element]> (ms_elements st);
                          ms_elem_index := S elem_index |})
          end
      end
  else ret (inr st).

Fixpoint led_pwm_add_multi_loop
    (led : led_pwm) (children : list elem_node) (st : multi_state)
  : M HW (Z + multi_state) :=
  match children with
  | [] => ret (inr st)
  | elem_child :: rest =>
      res <- led_pwm_add_multi_child led elem_child st;;
      match res with
      | inl r => ret (inl r)
      | inr st' => led_pwm_add_multi_loop led rest st'
      end
  end.

(** The class device and the zeroed arrays before the loop. *)
Definition led_pwm_add_multi_init (led : led_pwm) (num_color_elements : nat)
  : multi_state :=
  {| ms_cdev :=
       {| name := lp_name led; default_trigger := lp_default_trigger led;
          brightness := LED_OFF; max_brightness := lp_max_brightness led;
          flags := Z.lor LED_CORE_SUSPENDRESUME LED_MULTI_COLOR_LED;
          color_elements := replicate num_color_elements zero_color_element;
          brightness_set_blocking := None |};
     ms_elements := replicate num_color_elements zero_element;
     ms_elem_index := O |}.

Definition led_pwm_add_multi
    (priv : led_pwm_priv) (led : led_pwm) (child : led_node)
    (num_color_elements : nat)
  : M HW (Z * led_pwm_priv) :=
  res <- led_pwm_add_multi_loop led (ln_children child)
           (led_pwm_add_multi_init led num_color_elements);;
  match res with
  | inl r => ret (r, priv)
  | inr st =>
      let cdev1 := set_brightness_set_blocking (ms_cdev st) in
      reg <- call_led_classdev_register (num_leds priv) cdev1;;
      let '(r, cdev2) := reg in
      if r =? 0 then
        set <- led_pwm_set {| cdev := cdev2; elements := ms_elements st |}
                           (brightness cdev2);;
        ret (r, {| leds := leds priv ++ [snd set] |})
      else
        dev_err (lp_name led) r;;;
        ret (r, priv)
  end.

(** *** led_pwm_create_of *)

(** [memset(&led, 0, sizeof(led))] *)
Definition zero_led_pwm : led_pwm :=
  {| lp_name := ""; lp_default_trigger := None; lp_active_low := 0;
     lp_max_brightness := 0; lp_pwm_period_ns := 0 |}.

Definition num_color_elements_of (child : led_node) : nat :=
  length (List.filter is_element_node (ln_children child)).

(** The assignments to [led] at the head of one iteration; a missing
    "max-brightness" leaves the value of the previous iteration. *)
Definition of_led (led : led_pwm) (child : led_node) : led_pwm :=
  {| lp_name := match ln_label child with
                | Some l => l
                | None => ln_name child
                end;
     lp_default_trigger := ln_default_trigger child;
     lp_active_low := lp_active_low led;
     lp_max_brightness := match ln_max_brightness child with
                          | Some v => v
                          | None => lp_max_brightness led
                          end;
     lp_pwm_period_ns := lp_pwm_period_ns led |}.

Definition set_active_low (led : led_pwm) (b : bool) : led_pwm :=
  {| lp_name := lp_name led; lp_default_trigger := lp_default_trigger led;
     lp_active_low := bool_to_uint b;
     lp_max_brightness := lp_max_brightness led;
     lp_pwm_period_ns := lp_pwm_period_ns led |}.

(** [led] as one iteration leaves it for the next. *)
Definition next_led (led : led_pwm) (child : led_node) : led_pwm :=
  if Nat.eqb (num_color_elements_of child) 0
  then set_active_low (of_led led child) (ln_active_low child)
  else of_led led child.

(** One iteration: the LED of [child] is added. *)
Definition led_pwm_create_of_child
    (priv : led_pwm_priv) (led : led_pwm) (child : led_node)
  : M HW (Z * led_pwm_priv) :=
  let led := of_led led child in
  let num_color_elements := num_color_elements_of child in
  if negb (Nat.eqb num_color_elements 0) then
    led_pwm_add_multi priv led child num_color_elements
  else
    let led := set_active_low led (ln_active_low child) in
    led_pwm_add_single priv led (Some child).

(** [for_each_child_of_node(dev->of_node, child)], left by [break] when an
    LED cannot be added ([of_node_put] only drops a reference count, which
    the model does not keep). *)
Fixpoint led_pwm_create_of_loop
    (children : list led_node) (led : led_pwm) (priv : led_pwm_priv)
  : M HW (Z * led_pwm_priv) :=
  match children with
  | [] => ret (0, priv)
  | child :: rest =>
      res <- led_pwm_create_of_child priv led child;;
      if negb (fst res =? 0) then ret res
      else led_pwm_create_of_loop rest (next_led led child) (snd res)
  end.

Definition led_pwm_create_of (children : list led_node) (priv : led_pwm_priv)
  : M HW (Z * led_pwm_priv) :=
  led_pwm_create_of_loop children zero_led_pwm priv.

(** *** led_pwm_probe, led_pwm_remove *)

(** The platform device: its platform data, if any, and the children of its
    tree node. *)
Record platform_device : Type := {
  pdata : option (list led_pwm);
  of_children : list led_node
}.

(** [for (i = 0; i < count; i++)] over [pdata->leds]. *)
Fixpoint led_pwm_probe_loop (l : list led_pwm) (priv : led_pwm_priv)
  : M HW (Z * led_pwm_priv) :=
  match l with
  | [] => ret (0, priv)
  | led :: rest =>
      res <- led_pwm_add_single priv led None;;
      if negb (fst res =? 0) then ret res
      else led_pwm_probe_loop rest (snd res)
  end.

(** The result carries the driver data set by [platform_set_drvdata]. *)
Definition led_pwm_probe (pdev : platform_device)
  : M HW (Z * option led_pwm_priv) :=
  let count :=
    match pdata pdev with
    | Some l => length l
    | None => length (of_children pdev)
    end in
  if Nat.eqb count 0 then ret (- EINVAL, None)
  else if negb (devm_kzalloc_priv count) then ret (- ENOMEM, None)
  else
    let priv := {| leds := [] |} in
    res <- match pdata pdev with
           | Some l => led_pwm_probe_loop l priv
           | None => led_pwm_create_of (of_children pdev) priv
           end;;
    if negb (fst res =? 0) then
      led_pwm_cleanup (snd res);;;
      ret (fst res, None)
    else ret (0, Some (snd res)).

Definition led_pwm_remove (priv : led_pwm_priv) : M HW Z :=
  led_pwm_cleanup priv;;;
  ret 0.

End Driver.

(** ** Vocabulary of the statements *)

(** The status a provider call returned, erased: what was called, with
    what. *)
Definition erase_ret (e : event) : event :=
  match e with
  | EvPwmConfig h d p _ => EvPwmConfig h d p 0
  | EvPwmEnable h _ => EvPwmEnable h 0
  | EvPwmDisable h _ => EvPwmDisable h 0
  | EvRegister s _ => EvRegister s 0
  | e => e
  end.

(** A provider call that reported a fault. *)
Definition reports_fault (e : event) : bool :=
  match e with
  | EvPwmConfig _ _ _ r | EvPwmEnable _ r | EvPwmDisable _ r => negb (r =? 0)
  | _ => false
  end.

Definition is_dev_err (e : event) : bool :=
  match e with
  | EvDevErr _ _ => true
  | _ => false
  end.

(** The calls of one element apply, statuses erased. *)
Definition element_calls (e : led_element_pwm) : list event :=
  [ EvPwmConfig (pwm e) (duty e) (to_int (period e)) 0;
    if duty e =? 0 then EvPwmDisable (pwm e) 0 else EvPwmEnable (pwm e) 0 ].

(** An element with a color index ([element_index >= 0]). *)
Definition has_color (e : led_element_pwm) : bool :=
  negb (element_index e <? 0).

Definition with_duty (e : led_element_pwm) (d : Z) : led_element_pwm :=
  {| element_index := element_index e; pwm := pwm e;
     active_low := active_low e; period := period e; duty := d |}.

(** The color element an element refers to. *)
Definition color_of (led_cdev : led_classdev) (e : led_element_pwm)
  : option led_color_element :=
  if element_index e <? 0 then None
  else color_elements led_cdev !! Z.to_nat (element_index e).

(** An element can be set: it has no color index, or its color element
    exists and has a nonzero [max_value]. *)
Definition settable (led_cdev : led_classdev) (e : led_element_pwm) : Prop :=
  element_index e < 0 \/
  exists ce, color_of led_cdev e = Some ce /\ max_value ce <> 0.

(** What a brightness set makes of an element, given the scaled class
    device. *)
Definition element_target (led_cdev : led_classdev) (e : led_element_pwm)
  : led_element_pwm :=
  match color_of led_cdev e with
  | None => e
  | Some ce =>
      match stored_duty (period e) (active_low e)
                        (raw_value ce) (max_value ce) with
      | Some d => with_duty e d
      | None => e
      end
  end.

(** ** A simulated channel provider and LED core

    Modelled from the spec: a simulated channel (section 6: configure,
    enable, disable) to observe what the driver leaves in a channel.  The
    state of a channel is the pair last configured and whether the output is
    enabled. *)

Record chan : Type := {
  cfg_duty : Z;
  cfg_period : Z;
  enabled : bool
}.

Definition sim_hw : Type := handle -> chan.

Definition upd (h : handle) (c : chan) (s : sim_hw) : sim_hw :=
  fun x => if Nat.eqb x h then c else s x.

Definition sim_config (h : handle) (d p : Z) (s : sim_hw) : Z * sim_hw :=
  (0, upd h {| cfg_duty := d; cfg_period := p; enabled := enabled (s h) |} s).

Definition sim_enable (h : handle) (s : sim_hw) : Z * sim_hw :=
  (0, upd h {| cfg_duty := cfg_duty (s h); cfg_period := cfg_period (s h);
               enabled := true |} s).

Definition sim_disable (h : handle) (s : sim_hw) : Z * sim_hw :=
  (0, upd h {| cfg_duty := cfg_duty (s h); cfg_period := cfg_period (s h);
               enabled := false |} s).

(** The simulated provider, for the hardware periods [args] and the
    acquisition results [by_name] and [by_ref]. *)
Definition sim_provider (args : handle -> Z) (by_name : string -> pwm_ptr)
    (by_ref : option nat -> pwm_ptr) : pwm_provider sim_hw :=
  {| pwm_config := sim_config;
     pwm_enable := sim_enable;
     pwm_disable := sim_disable;
     pwm_apply_args := fun _ s => s;
     pwm_get_args := args;
     devm_pwm_get := by_name;
     devm_of_pwm_get := by_ref |}.

(** A simulated provider whose configure checks its arguments: a pair that
    is not [0 <= duty <= period] with [period > 0] is refused with
    [-EINVAL] and leaves the channel as it was. *)
Definition checked_config (h : handle) (d p : Z) (s : sim_hw) : Z * sim_hw :=
  if (d <? 0) || (p <=? 0) || (p <? d) then (- EINVAL, s)
  else sim_config h d p s.

Definition checked_provider (args : handle -> Z) (by_name : string -> pwm_ptr)
    (by_ref : option nat -> pwm_ptr) : pwm_provider sim_hw :=
  {| pwm_config := checked_config;
     pwm_enable := sim_enable;
     pwm_disable := sim_disable;
     pwm_apply_args := fun _ s => s;
     pwm_get_args := args;
     devm_pwm_get := by_name;
     devm_of_pwm_get := by_ref |}.

(** A simulated LED core: scaling sets every [raw_value] to
    [value * brightness / max_brightness], registration succeeds and leaves
    the class device as it is, the setup of a color element names it after
    its node and gives it the full range of the class device. *)
Definition sim_scale (c : led_classdev) (b : Z) : led_classdev :=
  set_color_elements c
    (List.map (fun ce =>
            {| ce_name := ce_name ce; value := value ce;
               raw_value := if max_brightness c =? 0 then 0
                            else value ce * b / max_brightness c;
               max_value := max_value ce |})
         (color_elements c)).

Definition sim_setup_of (c : led_classdev) (i : nat) (n : elem_node)
  : Z * led_classdev :=
  (0, set_color_elements c
        (<[i := {| ce_name := Some (en_name n); value := max_brightness c;
                   raw_value := 0; max_value := max_brightness c |}]>
           (color_elements c))).

Definition sim_core : led_core :=
  {| LED_MULTI_COLOR_LED := Z.shiftl 1 20;
     devm_kzalloc_priv := fun _ => true;
     led_scale_color_elements := sim_scale;
     led_classdev_register := fun c => (0, c);
     led_color_element_setup_of := sim_setup_of |}.

Definition boot : world sim_hw :=
  {| hw := fun _ => {| cfg_duty := 0; cfg_period := 0; enabled := false |};
     log := []; registered := []; devres := [] |}.

(** ** Sample devices *)

(** A monochrome LED on channel 1 with the full range 255, whose color
    element carries the raw value [raw]. *)
Definition mono_cdev (raw : Z) : led_classdev :=
  {| name := "mono"; default_trigger := None; brightness := 0;
     max_brightness := 255; flags := LED_CORE_SUSPENDRESUME;
     color_elements :=
       [ {| ce_name := Some "single"%string; value := 255; raw_value := raw;
            max_value := 255 |} ];
     brightness_set_blocking := Some LedPwmSet |}.

Definition mono_elem (al per : Z) : led_element_pwm :=
  {| element_index := 0; pwm := 1%nat; active_low := al; period := per;
     duty := 0 |}.

(** A provider with the hardware period 1000 on every channel and no
    channel to acquire. *)
Definition plain_provider : pwm_provider sim_hw :=
  sim_provider (fun _ => 1000) (fun _ => ERR_PTR (- EINVAL))
               (fun _ => ERR_PTR (- EINVAL)).

(** A three-color LED on the channels 1, 2 and 3; the second element has
    the color index [i_green] and its color element the range [m_green]. *)
Definition rgb_cdev (m_green : Z) : led_classdev :=
  {| name := "rgb"; default_trigger := None; brightness := 0;
     max_brightness := 255; flags := LED_CORE_SUSPENDRESUME;
     color_elements :=
       [ {| ce_name := Some "red"%string; value := 255; raw_value := 0;
            max_value := 255 |};
         {| ce_name := Some "green"%string; value := 128; raw_value := 0;
            max_value := m_green |};
         {| ce_name := Some "blue"%string; value := 64; raw_value := 0;
            max_value := 255 |} ];
     brightness_set_blocking := Some LedPwmSet |}.

Definition rgb_dat (i_green m_green : Z) : led_pwm_data :=
  {| cdev := rgb_cdev m_green;
     elements :=
       [ {| element_index := 0; pwm := 1%nat; active_low := 0;
            period := 1000; duty := 0 |};
         {| element_index := i_green; pwm := 2%nat; active_low := 0;
            period := 1000; duty := 7 |};
         {| element_index := 2; pwm := 3%nat; active_low := 1;
            period := 1000; duty := 0 |} ] |}.

(** A monochrome LED for the period [per] whose color element has the
    range [m]. *)
Definition mono_dat (per m : Z) : led_pwm_data :=
  {| cdev :=
       {| name := "mono"; default_trigger := None; brightness := 0;
          max_brightness := 255; flags := LED_CORE_SUSPENDRESUME;
          color_elements :=
            [ {| ce_name := Some "single"%string; value := m; raw_value := 0;
                 max_value := m |} ];
          brightness_set_blocking := Some LedPwmSet |};
     elements := [ mono_elem 0 per ] |}.

(** The same provider, with a configure that checks its arguments. *)
Definition strict_provider : pwm_provider sim_hw :=
  checked_provider (fun _ => 1000) (fun _ => ERR_PTR (- EINVAL))
                   (fun _ => ERR_PTR (- EINVAL)).

(** A stretch of the log without a [dev_err]. *)
Definition quiet (l : list event) : Prop :=
  Forall (fun e => is_dev_err e = false) l.

(** The pointer [led_pwm_add_single] obtains for an LED: by the reference of
    its tree node when it has one, by name otherwise. *)
Definition single_pwm {HW} {P : pwm_provider HW}
    (led : led_pwm) (child : option led_node) : pwm_ptr :=
  match child with
  | Some node => devm_of_pwm_get (ln_pwms node)
  | None => devm_pwm_get (lp_name led)
  end.

(** An element as [led_pwm_add_multi] builds it from the node [c]: on the
    channel acquired for the node, with the hardware period of that channel
    and the polarity of the node. *)
Definition element_built {HW} {P : pwm_provider HW}
    (c : elem_node) (e : led_element_pwm) : Prop :=
  devm_of_pwm_get (en_pwms c) = PwmDev (pwm e) /\
  period e = pwm_get_args (pwm e) /\
  active_low e = bool_to_uint (en_active_low c).

(** A board: channel 1 has the hardware period 1000, channel 3 the period
    2000, the others none.  By name, "led0" is on channel 1, "led2" on
    channel 3, and the channel of "led1" is not available yet; by reference,
    1 and 2 are the channels 1 and 2, and the channel of reference 3 is not
    available yet. *)
Definition board_period (h : handle) : Z :=
  match h with
  | 1%nat => 1000
  | 3%nat => 2000
  | _ => 0
  end.

Definition board_by_name (con_id : string) : pwm_ptr :=
  if String.eqb con_id "led0" then PwmDev 1%nat
  else if String.eqb con_id "led1" then ERR_PTR (- EPROBE_DEFER)
  else if String.eqb con_id "led2" then PwmDev 3%nat
  else ERR_PTR (- EINVAL).

Definition board_by_ref (pwms : option nat) : pwm_ptr :=
  match pwms with
  | Some 1%nat => PwmDev 1%nat
  | Some 2%nat => PwmDev 2%nat
  | Some 3%nat => ERR_PTR (- EPROBE_DEFER)
  | _ => ERR_PTR (- EINVAL)
  end.

Definition board : pwm_provider sim_hw :=
  sim_provider board_period board_by_name board_by_ref.

Definition board_led (n : string) : led_pwm :=
  {| lp_name := n; lp_default_trigger := None; lp_active_low := 0;
     lp_max_brightness := 255; lp_pwm_period_ns := 5000 |}.

(** Three LEDs in the platform data; the channel of the second one is not
    available yet. *)
Definition board_pdata : list led_pwm :=
  [ board_led "led0"; board_led "led1"; board_led "led2" ].

Definition board_elem (n : string) (r : nat) : elem_node :=
  {| en_name := n; en_active_low := false; en_pwms := Some r |}.

Definition board_node (n : string) (r : option nat) (cs : list elem_node)
  : led_node :=
  {| ln_name := n; ln_label := None; ln_default_trigger := None;
     ln_max_brightness := Some 255; ln_active_low := false; ln_pwms := r;
     ln_children := cs |}.

(** A tree with a single LED whose channel is not available yet after a
    first LED, and one with a two-color LED whose second channel is not. *)
Definition board_tree_single : list led_node :=
  [ board_node "a" (Some 1%nat) []; board_node "b" (Some 3%nat) [];
    board_node "c" (Some 2%nat) [] ].

Definition board_tree_multi : list led_node :=
  [ board_node "a" (Some 1%nat) [];
    board_node "rgb" None
      [ board_elem "element-0" 2; board_elem "element-1" 3 ];
    board_node "c" (Some 2%nat) [] ].

(** [count] in [led_pwm_probe]: the number of LEDs described, by the platform
    data when there is one, by the tree otherwise. *)
Definition led_count (pdev : platform_device) : nat :=
  match pdata pdev with
  | Some l => length l
  | None => length (of_children pdev)
  end.

(** An LED core that cannot allocate the private data. *)
Definition tight_core : led_core :=
  {| LED_MULTI_COLOR_LED := Z.shiftl 1 20;
     devm_kzalloc_priv := fun _ => false;
     led_scale_color_elements := sim_scale;
     led_classdev_register := fun c => (0, c);
     led_color_element_setup_of := sim_setup_of |}.

(** The class device [led_pwm_add_single] passes to the registration. *)
Definition single_cdev (led : led_pwm) : led_classdev :=
  {| name := lp_name led; default_trigger := lp_default_trigger led;
     brightness := LED_OFF; max_brightness := lp_max_brightness led;
     flags := LED_CORE_SUSPENDRESUME;
     color_elements :=
       [ {| ce_name := Some "single"%string; value := 0; raw_value := 0;
            max_value := 0 |} ];
     brightness_set_blocking := Some LedPwmSet |}.

(** The description [led_pwm_create_of] has in [led] when it adds the LED of
    the node [x], after the nodes [before]. *)
Definition tree_led (before : list led_node) (x : led_node) : led_pwm :=
  of_led (fold_left next_led before zero_led_pwm) x.

(** The last "max-brightness" among the nodes, 0 when none has one. *)
Definition last_max_brightness (nodes : list led_node) : Z :=
  fold_left (fun acc c => match ln_max_brightness c with
                          | Some v => v
                          | None => acc
                          end) nodes 0.

(** A two-color LED on the channels 1 and 2, with a child between its
    element nodes that is not one. *)
Definition board_pair : led_node :=
  board_node "pair" None
    [ board_elem "element-0" 1; board_elem "spare" 9;
      board_elem "element-1" 2 ].

(** An LED core whose setup of the second color element fails. *)
Definition picky_core : led_core :=
  {| LED_MULTI_COLOR_LED := Z.shiftl 1 20;
     devm_kzalloc_priv := fun _ => true;
     led_scale_color_elements := sim_scale;
     led_classdev_register := fun c => (0, c);
     led_color_element_setup_of :=
       fun c i n => if Nat.eqb i 1 then (- EINVAL, c) else sim_setup_of c i n |}.

(** A tree whose LEDs can all be added: the second node has a label, is
    active-low and has no "max-brightness" of its own. *)
Definition board_status : led_node :=
  {| ln_name := "b"; ln_label := Some "status"%string;
     ln_default_trigger := Some "heartbeat"%string;
     ln_max_brightness := None; ln_active_low := true;
     ln_pwms := Some 2%nat; ln_children := [] |}.

(** A monochrome LED on channel 1 whose color element carries the raw value
    [raw] in the range [m]. *)
Definition range_cdev (raw m : Z) : led_classdev :=
  {| name := "mono"; default_trigger := None; brightness := 0;
     max_brightness := 255; flags := LED_CORE_SUSPENDRESUME;
     color_elements :=
       [ {| ce_name := Some "single"%string; value := m; raw_value := raw;
            max_value := m |} ];
     brightness_set_blocking := Some LedPwmSet |}.

(** The color elements [0 .. n-1] of a class device exist and have a nonzero
    range: what the brightness set of an LED with [n] elements, of the color
    indices [0 .. n-1], needs of the scaled class device. *)
Definition drivable (n : nat) (c : led_classdev) : Prop :=
  forall i, (i < n)%nat ->
    exists ce, color_elements c !! i = Some ce /\ max_value ce <> 0.

(** The class device [led_pwm_add_single] drives the LED with the first
    time (lines 180-185): [c] is the class device as the registration left
    it and [ce] its color element 0, which takes the [max_brightness] of [c]
    as value and range before the class device is scaled for the brightness
    of [c]. *)
Definition single_first_cdev {L : led_core}
    (c : led_classdev) (ce : led_color_element) : led_classdev :=
  led_scale_color_elements
    (set_color_elements c
       (<[0%nat := set_value_max ce (max_brightness c) (max_brightness c)]>
          (color_elements c)))
    (brightness c).

(** The class device the loop of [led_pwm_add_multi] leaves (lines 220-261)
    when the channel of every element node is acquired: the color elements
    of the element nodes are set up one after the other, from the index [i]
    on; [None] when a setup fails. *)
Fixpoint multi_setup {L : led_core}
    (c : led_classdev) (i : nat) (children : list elem_node)
  : option led_classdev :=
  match children with
  | [] => Some c
  | n :: rest =>
      if is_element_node n then
        let '(r, c1) := led_color_element_setup_of c i n in
        if r =? 0 then multi_setup c1 (S i) rest else None
      else multi_setup c i rest
  end.

Definition multi_cdev {L : led_core} (led : led_pwm) (child : led_node)
  : option led_classdev :=
  multi_setup
    (ms_cdev (led_pwm_add_multi_init led (num_color_elements_of child)))
    O (ln_children child).

(** The channel of an element node can be acquired. *)
Definition channel_found {HW} {P : pwm_provider HW} (n : elem_node) : Prop :=
  exists h, devm_of_pwm_get (en_pwms n) = PwmDev h.

(** The class device [c'] has the name, the default trigger and the maximal
    brightness of [c]. *)
Definition same_description (c c' : led_classdev) : Prop :=
  name c' = name c /\
  default_trigger c' = default_trigger c /\
  max_brightness c' = max_brightness c.

(** ** Arithmetic facts *)

Lemma to_u64_small x : 0 <= x < 2 ^ 64 -> to_u64 x = x.
Proof. intros H. unfold to_u64. apply Z.mod_small. exact H. Qed.

Lemma to_int_small x : INT_MIN <= x <= INT_MAX -> to_int x = x.
Proof.
  unfold to_int, INT_MIN, INT_MAX. intros H.
  rewrite Z.mod_small; lia.
Qed.

Lemma to_int_range x : is_int (to_int x).
Proof.
  unfold is_int, to_int, INT_MIN, INT_MAX.
  pose proof (Z.mod_pos_bound (x + 2 ^ 31) (2 ^ 32)). lia.
Qed.

Lemma uint_product_fits a b : is_uint a -> is_uint b -> 0 <= a * b < 2 ^ 64.
Proof.
  unfold is_uint, UINT_MAX. intros Ha Hb. split; [nia|].
  assert (a * b <= (2 ^ 32 - 1) * (2 ^ 32 - 1)) by nia. lia.
Qed.

(** The truncated quotient of [period * v] by [m] stays within [0, period]
    for [0 <= v <= m]. *)
Lemma scaled_within_period period v m :
  0 <= period -> 0 <= v <= m -> 0 < m -> 0 <= period * v / m <= period.
Proof.
  intros Hp Hv Hm. split.
  - apply Z.div_pos; nia.
  - apply Z.div_le_upper_bound; nia.
Qed.

Lemma scaled_monotone period v1 v2 m :
  0 <= period -> v1 <= v2 -> 0 < m -> period * v1 / m <= period * v2 / m.
Proof. intros Hp Hv Hm. apply Z.div_le_mono; nia. Qed.

Lemma do_div_nonzero n base : base <> 0 -> do_div n base = Some (n / base).
Proof. unfold do_div. intros H. destruct (Z.eqb_spec base 0); congruence. Qed.

Lemma do_div_zero n : do_div n 0 = None.
Proof. reflexivity. Qed.

(** ** The duty computation *)

Lemma is_uint_u64 x : is_uint x -> 0 <= x < 2 ^ 64.
Proof. unfold is_uint, UINT_MAX. lia. Qed.

(** The 64-bit computation, for operands of the types of the source. *)
Lemma duty64_exact period al v m :
  is_uint period -> is_uint v -> is_uint m -> 0 < m ->
  duty64 period al v m =
    Some (if al =? 0 then period * v / m
          else to_u64 (period - period * v / m)).
Proof.
  intros Hp Hv Hm Hpos. unfold duty64.
  rewrite (to_u64_small (period * v)) by (apply uint_product_fits; assumption).
  rewrite do_div_nonzero by lia. reflexivity.
Qed.

(** Within the range of the color element the subtraction of the active-low
    case does not wrap either. *)
Lemma duty64_in_range period al v m :
  is_uint period -> is_uint m -> 0 <= v <= m -> 0 < m ->
  duty64 period al v m =
    Some (if al =? 0 then period * v / m else period - period * v / m).
Proof.
  intros Hp Hm Hv Hpos.
  assert (Hvu : is_uint v) by (unfold is_uint in *; lia).
  rewrite duty64_exact by assumption.
  destruct (al =? 0); [reflexivity|].
  pose proof (scaled_within_period period v m (proj1 Hp) Hv Hpos) as Hq.
  rewrite to_u64_small; [reflexivity|].
  pose proof (is_uint_u64 period Hp). lia.
Qed.

Lemma duty64_bounds period al v m d :
  is_uint period -> is_uint m -> 0 <= v <= m -> 0 < m ->
  duty64 period al v m = Some d -> 0 <= d <= period.
Proof.
  intros Hp Hm Hv Hpos Hd.
  rewrite duty64_in_range in Hd by assumption.
  pose proof (scaled_within_period period v m (proj1 Hp) Hv Hpos) as Hq.
  injection Hd as <-. destruct (al =? 0); lia.
Qed.

(** With a period that an [int] can hold the value stored is the value
    computed. *)
Lemma stored_duty_in_range period al v m :
  is_uint period -> period <= INT_MAX -> is_uint m -> 0 <= v <= m -> 0 < m ->
  stored_duty period al v m =
    Some (if al =? 0 then period * v / m else period - period * v / m).
Proof.
  intros Hp Hint Hm Hv Hpos. unfold stored_duty.
  rewrite duty64_in_range by assumption. cbn [fmap option_fmap option_map].
  f_equal. apply to_int_small.
  pose proof (scaled_within_period period v m (proj1 Hp) Hv Hpos) as Hq.
  unfold INT_MIN, INT_MAX in *. destruct (al =? 0); lia.
Qed.

Lemma stored_duty_monotone period al v1 v2 m d1 d2 :
  is_uint period -> period <= INT_MAX -> is_uint m -> 0 < m ->
  0 <= v1 -> v1 <= v2 -> v2 <= m ->
  stored_duty period al v1 m = Some d1 ->
  stored_duty period al v2 m = Some d2 ->
  if al =? 0 then d1 <= d2 else d2 <= d1.
Proof.
  intros Hp Hint Hm Hpos H1 H12 H2.
  rewrite !stored_duty_in_range by (try assumption; lia).
  intros [= <-] [= <-].
  pose proof (scaled_monotone period v1 v2 m (proj1 Hp) H12 Hpos).
  destruct (al =? 0); lia.
Qed.

(** C9: for a fixed period, [max_value > 0] and polarity, the duty computed
    by lines 83-89 is monotone in the raw value over [0 <= v <= max_value]:
    non-decreasing when the element is not active-low, non-increasing when
    it is. *)
Theorem duty_monotone period al v1 v2 m :
  is_uint period -> is_uint m -> 0 < m ->
  0 <= v1 -> v1 <= v2 -> v2 <= m ->
  exists d1 d2,
    duty64 period al v1 m = Some d1 /\
    duty64 period al v2 m = Some d2 /\
    (al = 0 -> d1 <= d2) /\
    (al <> 0 -> d2 <= d1).
Proof.
  intros Hp Hm Hpos H1 H12 H2.
  pose proof (scaled_monotone period v1 v2 m (proj1 Hp) H12 Hpos) as Hmono.
  eexists _, _. rewrite !duty64_in_range by (try assumption; lia).
  split; [reflexivity|]. split; [reflexivity|].
  split; intros Hal.
  - subst al. exact Hmono.
  - destruct (Z.eqb_spec al 0); [contradiction | lia].
Qed.

Lemma duty_monotone_witness :
  exists d1 d2,
    duty64 1000 1 100 255 = Some d1 /\ duty64 1000 1 128 255 = Some d2 /\
    (1 = 0 -> d1 <= d2) /\ (1 <> 0 -> d2 <= d1).
Proof.
  apply (duty_monotone 1000 1 100 128 255);
    unfold is_uint, UINT_MAX; lia.
Defined.

(** ** Running the driver *)

Lemma bind_ok {HW A B} (m : M HW A) (k : A -> M HW B) w a w' :
  m w = Ok a w' -> bind m k w = k a w'.
Proof. intros H. unfold bind. rewrite H. reflexivity. Qed.

Lemma bind_fault {HW A B} (m : M HW A) (k : A -> M HW B) w f :
  m w = Fault f -> bind m k w = Fault f.
Proof. intros H. unfold bind. rewrite H. reflexivity. Qed.

Lemma bind_inv {HW A B} (m : M HW A) (k : A -> M HW B) w b w' :
  bind m k w = Ok b w' ->
  exists a w1, m w = Ok a w1 /\ k a w1 = Ok b w'.
Proof.
  unfold bind. destruct (m w) as [a w1|f]; [|discriminate].
  intros H. exists a, w1. split; [reflexivity | exact H].
Qed.

Lemma array_read_inv {HW A} (a : list A) i (w : world HW) x w' :
  array_read a i w = Ok x w' ->
  w' = w /\ 0 <= i /\ a !! Z.to_nat i = Some x.
Proof.
  unfold array_read, undefined, ret.
  destruct (Z.ltb_spec i 0) as [Hneg|Hpos]; [discriminate|].
  destruct (a !! Z.to_nat i) as [y|]; [|discriminate].
  intros [= <- <-]. repeat split. exact Hpos.
Qed.

Section ElementApply.
Context {HW : Type} {P : pwm_provider HW}.

(** One element apply: a configure, then a disable or an enable, whatever
    the provider reports. *)
Lemma element_set_run (e : led_element_pwm) (w : world HW) :
  exists w' l',
    __led_element_pwm_set e w = Ok tt w' /\
    log w' = log w ++ l' /\
    map erase_ret l' = element_calls e /\
    registered w' = registered w /\
    devres w' = devres w /\
    hw w' =
      snd ((if duty e =? 0 then pwm_disable else pwm_enable) (pwm e)
             (snd (pwm_config (pwm e) (duty e) (to_int (period e)) (hw w)))).
Proof.
  unfold __led_element_pwm_set, bind, call_pwm_config, call_pwm_disable,
    call_pwm_enable, element_calls, ret.
  destruct (pwm_config (pwm e) (duty e) (to_int (period e)) (hw w))
    as [r1 hw1] eqn:E1.
  destruct (duty e =? 0); cbn [snd hw log registered devres].
  - destruct (pwm_disable (pwm e) hw1) as [r2 hw2] eqn:E2.
    eexists _, _. split; [reflexivity|]. cbn [hw log registered devres snd].
    rewrite <- !app_assoc. repeat split; reflexivity.
  - destruct (pwm_enable (pwm e) hw1) as [r2 hw2] eqn:E2.
    eexists _, _. split; [reflexivity|]. cbn [hw log registered devres snd].
    rewrite <- !app_assoc. repeat split; reflexivity.
Qed.

Lemma color_of_some cdev e ce :
  color_of cdev e = Some ce ->
  0 <= element_index e /\
  color_elements cdev !! Z.to_nat (element_index e) = Some ce.
Proof.
  unfold color_of.
  destruct (Z.ltb_spec (element_index e) 0) as [Hlt|Hge]; [discriminate|].
  intros Hlook. split; [lia | exact Hlook].
Qed.

Lemma color_of_none_skip cdev e :
  element_index e < 0 -> color_of cdev e = None.
Proof.
  unfold color_of. intros Hneg.
  destruct (Z.ltb_spec (element_index e) 0); [reflexivity | lia].
Qed.

(** An element without a color index is passed over. *)
Lemma set_element_skip cdev e (w : world HW) :
  element_index e < 0 -> led_pwm_set_element cdev e w = Ok e w.
Proof.
  intros Hneg. unfold led_pwm_set_element.
  destruct (Z.ltb_spec (element_index e) 0); [reflexivity | lia].
Qed.

(** An element with a color index whose color element has a nonzero
    [max_value] gets its duty and is applied. *)
Lemma set_element_run cdev e ce (w : world HW) :
  color_of cdev e = Some ce -> max_value ce <> 0 ->
  exists w',
    led_pwm_set_element cdev e w = Ok (element_target cdev e) w' /\
    element_target cdev e =
      with_duty e (to_int (if active_low e =? 0
                           then to_u64 (period e * raw_value ce) / max_value ce
                           else to_u64 (period e -
                                        to_u64 (period e * raw_value ce)
                                        / max_value ce))) /\
    (exists l', log w' = log w ++ l' /\
                map erase_ret l' = element_calls (element_target cdev e)) /\
    registered w' = registered w /\
    devres w' = devres w /\
    hw w' =
      snd ((if duty (element_target cdev e) =? 0
            then pwm_disable else pwm_enable) (pwm e)
             (snd (pwm_config (pwm e) (duty (element_target cdev e))
                     (to_int (period e)) (hw w)))).
Proof.
  intros Hc Hm. unfold element_target. rewrite Hc.
  destruct (color_of_some _ _ _ Hc) as [Hidx Hlook].
  unfold led_pwm_set_element, array_read, bind.
  destruct (Z.ltb_spec (element_index e) 0); [lia|].
  rewrite Hlook. unfold ret at 1.
  unfold stored_duty, duty64. rewrite do_div_nonzero by exact Hm.
  cbn [fmap option_fmap option_map].
  set (d := to_int _).
  destruct (element_set_run (with_duty e d) w)
    as (w' & l' & Hrun & Hlog & Hcalls & Hreg & Hres & Hhw).
  exists w'. unfold with_duty in *. cbn [pwm duty period] in *.
  rewrite Hrun. unfold ret.
  split; [reflexivity|]. split; [reflexivity|].
  split; [exists l'; split; assumption|].
  repeat split; assumption.
Qed.

(** With a zero [max_value] the division faults. *)
Lemma set_element_div_zero cdev e ce (w : world HW) :
  color_of cdev e = Some ce -> max_value ce = 0 ->
  led_pwm_set_element cdev e w = Fault DivideByZero.
Proof.
  intros Hc Hm.
  destruct (color_of_some _ _ _ Hc) as [Hidx Hlook].
  unfold led_pwm_set_element, array_read, bind.
  destruct (Z.ltb_spec (element_index e) 0); [lia|].
  rewrite Hlook. unfold ret at 1.
  unfold stored_duty, duty64. rewrite Hm, do_div_zero. reflexivity.
Qed.

End ElementApply.

(** ** The duty an element receives *)

Section ElementDuty.
Context {HW : Type} {P : pwm_provider HW}.

(** C1, amended: for an element processed during a brightness set, with a
    raw value [0 <= v <= max_value], [max_value > 0] and a period that the
    element's [int] duty field can hold ([period <= INT_MAX]), the duty
    written is [floor (period * v / max_value)] when the element is not
    active-low and [period - floor (period * v / max_value)] when it is. *)
Theorem duty_written cdev e ce (w : world HW) :
  color_of cdev e = Some ce ->
  is_uint (period e) -> period e <= INT_MAX ->
  is_uint (max_value ce) ->
  0 <= raw_value ce <= max_value ce -> 0 < max_value ce ->
  exists e' w',
    led_pwm_set_element cdev e w = Ok e' w' /\
    duty e' =
      (if active_low e =? 0
       then period e * raw_value ce / max_value ce
       else period e - period e * raw_value ce / max_value ce).
Proof.
  intros Hc Hp Hint Hm Hv Hpos.
  destruct (set_element_run cdev e ce w Hc) as (w' & Hrun & _); [lia|].
  exists (element_target cdev e), w'. split; [exact Hrun|].
  unfold element_target. rewrite Hc.
  rewrite stored_duty_in_range by assumption. reflexivity.
Qed.

(** C2, amended: under the same conditions the duty stored in the element
    satisfies [0 <= duty <= period], for both polarities. *)
Theorem duty_within_period cdev e ce (w : world HW) :
  color_of cdev e = Some ce ->
  is_uint (period e) -> period e <= INT_MAX ->
  is_uint (max_value ce) ->
  0 <= raw_value ce <= max_value ce -> 0 < max_value ce ->
  exists e' w',
    led_pwm_set_element cdev e w = Ok e' w' /\
    period e' = period e /\
    0 <= duty e' <= period e'.
Proof.
  intros Hc Hp Hint Hm Hv Hpos.
  destruct (set_element_run cdev e ce w Hc) as (w' & Hrun & _); [lia|].
  exists (element_target cdev e), w'. split; [exact Hrun|].
  unfold element_target. rewrite Hc.
  rewrite stored_duty_in_range by assumption.
  pose proof (scaled_within_period (period e) (raw_value ce) (max_value ce)
                (proj1 Hp) Hv Hpos) as Hq.
  cbn [with_duty period duty]. split; [reflexivity|].
  destruct (active_low e =? 0); lia.
Qed.

End ElementDuty.

Lemma duty_written_witness :
  exists e' w',
    led_pwm_set_element (P := plain_provider) (mono_cdev 128)
                        (mono_elem 0 1000) boot = Ok e' w' /\
    duty e' = 1000 * 128 / 255.
Proof.
  apply (duty_written (P := plain_provider) (mono_cdev 128) (mono_elem 0 1000)
           {| ce_name := Some "single"%string; value := 255; raw_value := 128;
              max_value := 255 |} boot);
    cbn; unfold is_uint, UINT_MAX, INT_MAX; try reflexivity; lia.
Defined.

(** With a period of 2^31 ns, which the [unsigned int] period holds, the
    full raw value gives the quotient 2^31; stored in the [int] field it is
    [INT_MIN]. *)
Lemma duty_written_counterexample :
  is_uint (period (mono_elem 0 2147483648)) /\
  0 <= 255 <= 255 /\
  exists e' w',
    led_pwm_set_element (P := plain_provider) (mono_cdev 255)
                        (mono_elem 0 2147483648) boot = Ok e' w' /\
    duty e' = -2147483648 /\
    duty e' <> 2147483648 * 255 / 255.
Proof.
  split; [cbn; unfold is_uint, UINT_MAX; lia|].
  split; [lia|].
  eexists _, _. split; [vm_compute; reflexivity|].
  split; [reflexivity | discriminate].
Qed.

Lemma duty_within_period_witness :
  exists e' w',
    led_pwm_set_element (P := plain_provider) (mono_cdev 128)
                        (mono_elem 1 1000) boot = Ok e' w' /\
    period e' = 1000 /\
    0 <= duty e' <= period e'.
Proof.
  apply (duty_within_period (P := plain_provider) (mono_cdev 128)
           (mono_elem 1 1000)
           {| ce_name := Some "single"%string; value := 255; raw_value := 128;
              max_value := 255 |} boot);
    cbn; unfold is_uint, UINT_MAX, INT_MAX; try reflexivity; lia.
Defined.

(** An active-low element with a period of 2^31 ns and the raw value 0: the
    duty computed is the period, and the [int] stored is negative. *)
Lemma duty_within_period_counterexample :
  is_uint (period (mono_elem 1 2147483648)) /\
  0 <= 0 <= 255 /\
  exists e' w',
    led_pwm_set_element (P := plain_provider) (mono_cdev 0)
                        (mono_elem 1 2147483648) boot = Ok e' w' /\
    ~ (0 <= duty e' <= period e').
Proof.
  split; [cbn; unfold is_uint, UINT_MAX; lia|].
  split; [lia|].
  eexists _, _. split; [vm_compute; reflexivity|].
  cbn. lia.
Qed.

(** ** The width of the duty computation *)

Section DutyWidth.
Context {HW : Type} {P : pwm_provider HW}.

(** C10, amended: for a period, a raw value and a [max_value > 0] that are
    32-bit unsigned, the product [period * v] does not wrap in the 64-bit
    local, and the quotient computed there is exactly
    [floor (period * v / max_value)].  The brightness set then writes it to
    the element's [int] duty field (line 91): the element of a LED that is
    not active-low receives the quotient converted to [int], which is the
    quotient itself when it is at most [INT_MAX]; an active-low element
    receives [period - quotient], taken modulo 2^64 and converted to
    [int]. *)
Theorem duty_product_no_wrap cdev e ce (w : world HW) :
  color_of cdev e = Some ce ->
  is_uint (period e) -> is_uint (raw_value ce) -> is_uint (max_value ce) ->
  0 < max_value ce ->
  to_u64 (period e * raw_value ce) = period e * raw_value ce /\
  duty64 (period e) 0 (raw_value ce) (max_value ce) =
    Some (period e * raw_value ce / max_value ce) /\
  0 <= period e * raw_value ce / max_value ce < 2 ^ 64 /\
  exists e' w',
    led_pwm_set_element cdev e w = Ok e' w' /\
    (active_low e = 0 ->
     duty e' = to_int (period e * raw_value ce / max_value ce) /\
     (period e * raw_value ce / max_value ce <= INT_MAX ->
      duty e' = period e * raw_value ce / max_value ce)) /\
    (active_low e <> 0 ->
     duty e' =
       to_int (to_u64 (period e - period e * raw_value ce / max_value ce))).
Proof.
  intros Hc Hp Hv Hm Hpos.
  pose proof (uint_product_fits (period e) (raw_value ce) Hp Hv) as Hfit.
  assert (Hsmall : to_u64 (period e * raw_value ce) = period e * raw_value ce)
    by (apply to_u64_small; exact Hfit).
  assert (Hq : 0 <= period e * raw_value ce / max_value ce < 2 ^ 64).
  { split; [apply Z.div_pos; lia | apply Z.div_lt_upper_bound; nia]. }
  split; [exact Hsmall|].
  split; [rewrite duty64_exact by assumption; reflexivity|].
  split; [exact Hq|].
  destruct (set_element_run cdev e ce w Hc) as (w' & Hrun & Htarget & _);
    [lia|].
  exists (element_target cdev e), w'. split; [exact Hrun|].
  rewrite Htarget, Hsmall. cbn [with_duty duty].
  split.
  - intros Hal. rewrite Hal. cbn [Z.eqb].
    split; [reflexivity|].
    intros Hint. apply to_int_small. unfold INT_MIN. lia.
  - intros Hal. destruct (Z.eqb_spec (active_low e) 0); [contradiction|].
    reflexivity.
Qed.

End DutyWidth.

Lemma duty_product_no_wrap_witness :
  to_u64 (1000 * 128) = 1000 * 128 /\
  duty64 1000 0 128 255 = Some (1000 * 128 / 255) /\
  0 <= 1000 * 128 / 255 < 2 ^ 64 /\
  exists e' w',
    led_pwm_set_element (P := plain_provider) (mono_cdev 128)
                        (mono_elem 0 1000) boot = Ok e' w' /\
    (0 = 0 ->
     duty e' = to_int (1000 * 128 / 255) /\
     (1000 * 128 / 255 <= INT_MAX -> duty e' = 1000 * 128 / 255)) /\
    (0 <> 0 ->
     duty e' = to_int (to_u64 (1000 - 1000 * 128 / 255))).
Proof.
  apply (duty_product_no_wrap (P := plain_provider) (mono_cdev 128)
           (mono_elem 0 1000)
           {| ce_name := Some "single"%string; value := 255; raw_value := 128;
              max_value := 255 |} boot);
    cbn; unfold is_uint, UINT_MAX; try reflexivity; lia.
Defined.

(** The largest period and raw value with the range 1: the product
    [(2^32 - 1)^2] fits the 64-bit local and the quotient is exact there,
    but the element's [int] field receives its low 32 bits, the duty 1. *)
Lemma duty_product_no_wrap_counterexample :
  is_uint 4294967295 /\ 0 < 1 /\
  duty64 4294967295 0 4294967295 1 = Some (4294967295 * 4294967295 / 1) /\
  exists e' w',
    led_pwm_set_element (P := plain_provider) (range_cdev 4294967295 1)
                        (mono_elem 0 4294967295) boot = Ok e' w' /\
    duty e' = 1 /\
    duty e' <> 4294967295 * 4294967295 / 1.
Proof.
  split; [unfold is_uint, UINT_MAX; lia|].
  split; [lia|].
  split; [vm_compute; reflexivity|].
  eexists _, _. split; [vm_compute; reflexivity|].
  split; [reflexivity | discriminate].
Qed.

(** ** Element apply on the simulated channel *)

Lemma upd_same h c (s : sim_hw) : upd h c s h = c.
Proof. unfold upd. rewrite Nat.eqb_refl. reflexivity. Qed.

Lemma upd_other h h' c (s : sim_hw) : h' <> h -> upd h c s h' = s h'.
Proof.
  intros Hne. unfold upd.
  destruct (Nat.eqb_spec h' h); [contradiction | reflexivity].
Qed.

(** C3, amended: an element apply first configures the channel with the
    element's duty and its period (as the [int] the provider takes: the
    period itself when it is at most [INT_MAX]), and then the channel ends
    disabled if and only if [duty == 0] and enabled if and only if
    [duty != 0], whatever its state was before; for a duty that is not
    negative, enabled if and only if [duty > 0]. *)
Theorem element_apply_state :
  (forall HW (P : pwm_provider HW) (e : led_element_pwm) (w : world HW),
      exists w' l',
        __led_element_pwm_set e w = Ok tt w' /\
        log w' = log w ++ l' /\
        map erase_ret l' = element_calls e) /\
  (forall args by_name by_ref (e : led_element_pwm) (w : world sim_hw),
      exists w',
        __led_element_pwm_set (P := sim_provider args by_name by_ref) e w
          = Ok tt w' /\
        log w' = log w ++ element_calls e /\
        cfg_duty (hw w' (pwm e)) = duty e /\
        cfg_period (hw w' (pwm e)) = to_int (period e) /\
        (is_uint (period e) -> period e <= INT_MAX ->
         cfg_period (hw w' (pwm e)) = period e) /\
        (enabled (hw w' (pwm e)) = false <-> duty e = 0) /\
        (enabled (hw w' (pwm e)) = true <-> duty e <> 0) /\
        (0 <= duty e -> (enabled (hw w' (pwm e)) = true <-> 0 < duty e))).
Proof.
  split.
  - intros HW P e w.
    destruct (element_set_run e w) as (w' & l' & Hrun & Hlog & Hcalls & _).
    exists w', l'. repeat split; assumption.
  - intros args by_name by_ref e w.
    unfold __led_element_pwm_set, bind, call_pwm_config, call_pwm_disable,
      call_pwm_enable, element_calls, ret.
    cbn [pwm_config pwm_enable pwm_disable sim_provider sim_config].
    cbn [hw log registered devres].
    assert (Hper : is_uint (period e) -> period e <= INT_MAX ->
                   to_int (period e) = period e).
    { intros [Hlo _] Hhi. apply to_int_small. unfold INT_MIN. lia. }
    destruct (Z.eqb_spec (duty e) 0) as [Hz|Hnz].
    + eexists. split; [reflexivity|].
      cbn [hw log registered devres sim_disable sim_enable].
      rewrite !upd_same. cbn [cfg_duty cfg_period enabled].
      rewrite <- app_assoc.
      repeat split; try reflexivity; try assumption; intros; try lia;
        try discriminate; try congruence.
    + eexists. split; [reflexivity|].
      cbn [hw log registered devres sim_disable sim_enable].
      rewrite !upd_same. cbn [cfg_duty cfg_period enabled].
      rewrite <- app_assoc.
      repeat split; try reflexivity; try assumption; intros; try lia;
        try discriminate; try congruence.
Qed.

(** The element that a brightness set leaves for a period of 2^31 ns (the
    duty is [INT_MIN]): its apply enables the channel although the duty is
    not positive, and the period configured is not the element's. *)
Lemma element_apply_state_counterexample :
  exists w',
    __led_element_pwm_set (P := plain_provider)
      {| element_index := 0; pwm := 1%nat; active_low := 0;
         period := 2147483648; duty := -2147483648 |} boot = Ok tt w' /\
    enabled (hw w' 1%nat) = true /\
    ~ (0 < -2147483648) /\
    cfg_period (hw w' 1%nat) <> 2147483648.
Proof.
  eexists. split; [vm_compute; reflexivity|].
  split; [reflexivity|]. split; [lia | discriminate].
Qed.

(** ** The brightness set *)

Lemma element_target_skip cdev e :
  element_index e < 0 -> element_target cdev e = e.
Proof.
  intros Hneg. unfold element_target.
  rewrite color_of_none_skip by exact Hneg. reflexivity.
Qed.

Lemma element_target_fields cdev e :
  element_index (element_target cdev e) = element_index e /\
  pwm (element_target cdev e) = pwm e /\
  active_low (element_target cdev e) = active_low e /\
  period (element_target cdev e) = period e.
Proof.
  unfold element_target. destruct (color_of cdev e) as [ce|]; [|done].
  destruct (stored_duty _ _ _ _); done.
Qed.

Lemma has_color_target cdev e :
  has_color (element_target cdev e) = has_color e.
Proof.
  unfold has_color.
  destruct (element_target_fields cdev e) as [-> _]. reflexivity.
Qed.

Lemma has_color_true e : has_color e = true <-> 0 <= element_index e.
Proof.
  unfold has_color. destruct (Z.ltb_spec (element_index e) 0); cbn; split;
    intros; try lia; try discriminate; reflexivity.
Qed.

Lemma element_target_own_color cdev e ce :
  color_of cdev e = Some ce -> max_value ce <> 0 ->
  stored_duty (period e) (active_low e) (raw_value ce) (max_value ce)
    = Some (duty (element_target cdev e)).
Proof.
  intros Hc Hm. unfold element_target. rewrite Hc.
  unfold stored_duty, duty64. rewrite do_div_nonzero by exact Hm.
  reflexivity.
Qed.

Section BrightnessSet.
Context {HW : Type} {P : pwm_provider HW} {L : led_core}.

Lemma set_loop_run cdev elems :
  Forall (settable cdev) elems ->
  forall w : world HW,
  exists w' l',
    led_pwm_set_loop cdev elems w = Ok (map (element_target cdev) elems) w' /\
    log w' = log w ++ l' /\
    map erase_ret l' =
      flat_map element_calls
        (List.filter has_color (map (element_target cdev) elems)) /\
    registered w' = registered w /\
    devres w' = devres w.
Proof.
  induction 1 as [|e elems He _ IH]; intros w.
  - exists w, []. cbn. rewrite app_nil_r. repeat split; reflexivity.
  - cbn [led_pwm_set_loop map List.filter]. rewrite has_color_target.
    destruct He as [Hneg | (ce & Hc & Hm)].
    + erewrite bind_ok by (apply set_element_skip; exact Hneg).
      destruct (IH w) as (w' & l' & Hrun & Hlog & Hcalls & Hreg & Hres).
      erewrite bind_ok by exact Hrun. unfold ret.
      rewrite element_target_skip by exact Hneg.
      assert (Hno : has_color e = false).
      { unfold has_color. destruct (Z.ltb_spec (element_index e) 0);
          [reflexivity | lia]. }
      rewrite Hno. exists w', l'. repeat split; assumption.
    + destruct (set_element_run cdev e ce w Hc Hm)
        as (w1 & Hrun1 & _ & (l1 & Hlog1 & Hcalls1) & Hreg1 & Hres1 & _).
      erewrite bind_ok by exact Hrun1.
      destruct (IH w1) as (w' & l' & Hrun & Hlog & Hcalls & Hreg & Hres).
      erewrite bind_ok by exact Hrun. unfold ret.
      assert (Hyes : has_color e = true).
      { apply has_color_true. apply (color_of_some _ _ _ Hc). }
      rewrite Hyes. exists w', (l1 ++ l'). split; [reflexivity|].
      split; [rewrite Hlog, Hlog1, app_assoc; reflexivity|].
      split; [rewrite map_app, Hcalls1, Hcalls; reflexivity|].
      split; congruence.
Qed.

(** The loop faults on the division when an element with a color index
    meets a zero [max_value] and no index is out of range. *)
Lemma set_loop_div_zero cdev elems :
  Forall (fun e => element_index e < 0 \/ is_Some (color_of cdev e)) elems ->
  Exists (fun e => exists ce, color_of cdev e = Some ce /\ max_value ce = 0)
         elems ->
  forall w : world HW, led_pwm_set_loop cdev elems w = Fault DivideByZero.
Proof.
  induction 1 as [|e elems He Hrest IH]; intros Hex w.
  - inversion Hex.
  - cbn [led_pwm_set_loop].
    destruct He as [Hneg | [ce Hc]].
    + erewrite bind_ok by (apply set_element_skip; exact Hneg).
      apply Exists_cons in Hex as [(ce & Hc & _) | Hex].
      * rewrite color_of_none_skip in Hc by exact Hneg. discriminate.
      * rewrite bind_fault with (f := DivideByZero); [reflexivity|].
        apply IH. exact Hex.
    + destruct (Z.eq_dec (max_value ce) 0) as [Hz|Hnz].
      * apply bind_fault. apply (set_element_div_zero cdev e ce); assumption.
      * destruct (set_element_run cdev e ce w Hc Hnz) as (w1 & Hrun1 & _).
        erewrite bind_ok by exact Hrun1.
        apply Exists_cons in Hex as [(ce' & Hc' & Hz') | Hex].
        { rewrite Hc in Hc'. injection Hc' as <-. contradiction. }
        rewrite bind_fault with (f := DivideByZero); [reflexivity|].
        apply IH. exact Hex.
Qed.

Lemma scale_run (c : led_classdev) b (w : world HW) :
  call_led_scale_color_elements c b w =
    Ok (led_scale_color_elements c b)
       {| hw := hw w; log := log w ++ [EvScale b];
          registered := registered w; devres := devres w |}.
Proof. reflexivity. Qed.

Lemma set_run led_dat b (w : world HW) :
  Forall (settable (led_scale_color_elements (cdev led_dat) b))
         (elements led_dat) ->
  exists w' l',
    led_pwm_set led_dat b w =
      Ok (0, {| cdev := led_scale_color_elements (cdev led_dat) b;
                elements :=
                  map (element_target
                         (led_scale_color_elements (cdev led_dat) b))
                      (elements led_dat) |}) w' /\
    log w' = log w ++ EvScale b :: l' /\
    map erase_ret l' =
      flat_map element_calls
        (List.filter has_color
           (map (element_target (led_scale_color_elements (cdev led_dat) b))
                (elements led_dat))) /\
    registered w' = registered w /\
    devres w' = devres w.
Proof.
  intros Hset. unfold led_pwm_set.
  erewrite bind_ok by apply scale_run.
  destruct (set_loop_run _ _ Hset
              {| hw := hw w; log := log w ++ [EvScale b];
                 registered := registered w; devres := devres w |})
    as (w' & l' & Hrun & Hlog & Hcalls & Hreg & Hres).
  erewrite bind_ok by exact Hrun. unfold ret.
  exists w', l'. split; [reflexivity|].
  cbn [log registered devres] in *.
  split; [rewrite Hlog, <- app_assoc; reflexivity|].
  repeat split; assumption.
Qed.

Lemma set_result_zero led_dat b (w : world HW) r d' w' :
  led_pwm_set led_dat b w = Ok (r, d') w' -> r = 0.
Proof.
  unfold led_pwm_set. intros Hrun.
  apply bind_inv in Hrun as (c & w1 & _ & Hrun).
  apply bind_inv in Hrun as (elems & w2 & _ & Hrun).
  unfold ret in Hrun. injection Hrun as <- _ _. reflexivity.
Qed.

End BrightnessSet.

(** The duty of the element at index [i] after a whole brightness set, for
    a period that an [int] holds. *)
Lemma set_duty_written {HW} {P : pwm_provider HW} {L : led_core}
    led_dat b (w : world HW) i e ce :
  Forall (settable (led_scale_color_elements (cdev led_dat) b))
         (elements led_dat) ->
  elements led_dat !! i = Some e ->
  color_of (led_scale_color_elements (cdev led_dat) b) e = Some ce ->
  is_uint (period e) -> period e <= INT_MAX ->
  is_uint (max_value ce) ->
  0 <= raw_value ce <= max_value ce -> 0 < max_value ce ->
  exists d' w' e',
    led_pwm_set led_dat b w = Ok (0, d') w' /\
    elements d' !! i = Some e' /\
    duty e' =
      (if active_low e =? 0
       then period e * raw_value ce / max_value ce
       else period e - period e * raw_value ce / max_value ce).
Proof.
  intros Hset Hi Hc Hp Hint Hm Hv Hpos.
  destruct (set_run led_dat b w Hset) as (w' & l' & Hrun & _).
  eexists _, w', _. split; [exact Hrun|]. cbn [elements].
  split; [rewrite list_lookup_fmap, Hi; reflexivity|].
  unfold element_target. rewrite Hc.
  rewrite stored_duty_in_range by assumption. reflexivity.
Qed.

(** On the simulated provider a channel that no element with a color index
    drives keeps its state. *)
Lemma sim_set_loop_frame args by_name by_ref cdev elems h :
  Forall (settable cdev) elems ->
  (forall e, In e elems -> 0 <= element_index e -> pwm e <> h) ->
  forall w : world sim_hw,
  exists r w',
    led_pwm_set_loop (P := sim_provider args by_name by_ref) cdev elems w
      = Ok r w' /\
    hw w' h = hw w h.
Proof.
  induction 1 as [|e elems He _ IH]; intros Hother w.
  - exists [], w. split; reflexivity.
  - cbn [led_pwm_set_loop].
    assert (Hrest : forall e', In e' elems -> 0 <= element_index e' ->
                               pwm e' <> h).
    { intros e' Hin. apply Hother. right. exact Hin. }
    destruct He as [Hneg | (ce & Hc & Hm)].
    + erewrite bind_ok by (apply set_element_skip; exact Hneg).
      destruct (IH Hrest w) as (r & w' & Hrun & Hhw).
      erewrite bind_ok by exact Hrun. unfold ret. eexists _, w'.
      split; [reflexivity | exact Hhw].
    + destruct (set_element_run (P := sim_provider args by_name by_ref)
                  cdev e ce w Hc Hm)
        as (w1 & Hrun1 & _ & _ & _ & _ & Hhw1).
      erewrite bind_ok by exact Hrun1.
      destruct (IH Hrest w1) as (r & w' & Hrun & Hhw).
      erewrite bind_ok by exact Hrun. unfold ret. eexists _, w'.
      split; [reflexivity|]. rewrite Hhw, Hhw1.
      assert (Hne : h <> pwm e).
      { intros ->. apply (Hother e); [left; reflexivity | | reflexivity].
        apply (color_of_some _ _ _ Hc). }
      cbn [pwm_config pwm_enable pwm_disable sim_provider].
      destruct (duty (element_target cdev e) =? 0);
        cbn [sim_config sim_enable sim_disable snd];
        rewrite !upd_other by exact Hne; reflexivity.
Qed.

(** C4: a brightness set calls the color scaling once, before anything
    else, and then computes and applies a duty for exactly the elements with
    a color index, each once and in the order of the array, each from the
    raw value and [max_value] of its own color element; an element without
    a color index is passed over: its fields are unchanged, no provider call
    is made for it, and (on the simulated channel) a channel that only such
    elements own keeps its state.  The spec's channel [value] is the
    [raw_value] of the color element. *)
Theorem brightness_set_elements :
  (forall HW (P : pwm_provider HW) (L : led_core) led_dat b (w : world HW),
      Forall (settable (led_scale_color_elements (cdev led_dat) b))
             (elements led_dat) ->
      exists w' l',
        led_pwm_set led_dat b w =
          Ok (0, {| cdev := led_scale_color_elements (cdev led_dat) b;
                    elements :=
                      map (element_target
                             (led_scale_color_elements (cdev led_dat) b))
                          (elements led_dat) |}) w' /\
        log w' = log w ++ EvScale b :: l' /\
        map erase_ret l' =
          flat_map element_calls
            (List.filter has_color
               (map (element_target
                       (led_scale_color_elements (cdev led_dat) b))
                    (elements led_dat)))) /\
  (forall cdev e, element_index e < 0 -> element_target cdev e = e) /\
  (forall cdev e ce,
      color_of cdev e = Some ce -> max_value ce <> 0 ->
      stored_duty (period e) (active_low e) (raw_value ce) (max_value ce)
        = Some (duty (element_target cdev e)) /\
      element_index (element_target cdev e) = element_index e /\
      pwm (element_target cdev e) = pwm e /\
      active_low (element_target cdev e) = active_low e /\
      period (element_target cdev e) = period e) /\
  (forall args by_name by_ref (L : led_core) led_dat b (w : world sim_hw) h,
      Forall (settable (led_scale_color_elements (cdev led_dat) b))
             (elements led_dat) ->
      (forall e, In e (elements led_dat) -> 0 <= element_index e ->
                 pwm e <> h) ->
      exists r w',
        led_pwm_set (P := sim_provider args by_name by_ref) led_dat b w
          = Ok r w' /\
        hw w' h = hw w h).
Proof.
  split; [|split; [|split]].
  - intros HW P L led_dat b w Hset.
    destruct (set_run led_dat b w Hset) as (w' & l' & Hrun & Hlog & Hcalls & _).
    exists w', l'. repeat split; assumption.
  - intros cdev e. apply element_target_skip.
  - intros cdev e ce Hc Hm.
    split; [apply element_target_own_color; assumption|].
    apply element_target_fields.
  - intros args by_name by_ref L led_dat b w h Hset Hother.
    unfold led_pwm_set. erewrite bind_ok by apply scale_run.
    destruct (sim_set_loop_frame args by_name by_ref _ _ h Hset Hother
                {| hw := hw w; log := log w ++ [EvScale b];
                   registered := registered w; devres := devres w |})
      as (r & w' & Hrun & Hhw).
    erewrite bind_ok by exact Hrun. unfold ret.
    eexists _, w'. split; [reflexivity | exact Hhw].
Qed.

Lemma brightness_set_elements_witness :
  exists w' l',
    led_pwm_set (P := plain_provider) (L := sim_core) (rgb_dat (-1) 255) 255 boot =
      Ok (0, {| cdev := sim_scale (rgb_cdev 255) 255;
                elements :=
                  [ {| element_index := 0; pwm := 1%nat; active_low := 0;
                       period := 1000; duty := 1000 |};
                    {| element_index := -1; pwm := 2%nat; active_low := 0;
                       period := 1000; duty := 7 |};
                    {| element_index := 2; pwm := 3%nat; active_low := 1;
                       period := 1000; duty := 750 |} ] |}) w' /\
    log w' = log boot ++ EvScale 255 :: l' /\
    map erase_ret l' =
      [ EvPwmConfig 1%nat 1000 1000 0; EvPwmEnable 1%nat 0;
        EvPwmConfig 3%nat 750 1000 0; EvPwmEnable 3%nat 0 ].
Proof.
  apply (proj1 brightness_set_elements sim_hw plain_provider sim_core
           (rgb_dat (-1) 255) 255 boot).
  constructor; [|constructor; [|constructor; [|constructor]]].
  - right. eexists. split; [reflexivity | discriminate].
  - left. cbn. lia.
  - right. eexists. split; [reflexivity | discriminate].
Defined.

(** C5, amended: a fault that the channel provider reports during
    configure, enable or disable is dropped: whatever the provider reports,
    a brightness set that returns returns 0, and it returns, with every duty
    recorded in its element, whenever every element can be set. *)
Theorem set_drops_provider_faults :
  (forall HW (P : pwm_provider HW) (L : led_core) led_dat b (w : world HW)
          r d' w',
      led_pwm_set led_dat b w = Ok (r, d') w' -> r = 0) /\
  (forall HW (P : pwm_provider HW) (L : led_core) led_dat b (w : world HW),
      Forall (settable (led_scale_color_elements (cdev led_dat) b))
             (elements led_dat) ->
      exists d' w',
        led_pwm_set led_dat b w = Ok (0, d') w' /\
        elements d' =
          map (element_target (led_scale_color_elements (cdev led_dat) b))
              (elements led_dat)).
Proof.
  split.
  - intros HW P L led_dat b w r d' w'. apply set_result_zero.
  - intros HW P L led_dat b w Hset.
    destruct (set_run led_dat b w Hset) as (w' & l' & Hrun & _).
    eexists _, w'. split; [exact Hrun | reflexivity].
Qed.

Lemma set_drops_provider_faults_witness :
  exists d' w',
    led_pwm_set (P := strict_provider) (L := sim_core) (mono_dat 0 255) 128 boot
      = Ok (0, d') w' /\
    elements d' = [ mono_elem 0 0 ].
Proof.
  apply (proj2 set_drops_provider_faults sim_hw strict_provider sim_core
           (mono_dat 0 255) 128 boot).
  constructor; [|constructor].
  right. eexists. split; [reflexivity | discriminate].
Defined.

(** An element without a hardware period (period 0): the checking provider
    refuses the configure with [-EINVAL], the log shows the fault, and the
    brightness set returns 0. *)
Lemma set_drops_provider_faults_counterexample :
  exists d' w',
    led_pwm_set (P := strict_provider) (L := sim_core) (mono_dat 0 255) 128 boot
      = Ok (0, d') w' /\
    log w' = [ EvScale 128; EvPwmConfig 1%nat 0 0 (- EINVAL);
               EvPwmDisable 1%nat 0 ] /\
    existsb reports_fault (log w') = true.
Proof.
  eexists _, _. split; [vm_compute; reflexivity|].
  split; reflexivity.
Qed.

(** C6, amended: the brightness set does not check [max_value]: when an
    element with a color index meets a color element whose [max_value] is 0
    (and no color index is out of range), the division is reached with the
    zero divisor, which is undefined; the run stops there with the fault,
    it neither skips the element nor reports an error.  With nonzero
    [max_value] throughout no division has a zero divisor. *)
Theorem set_divides_by_zero_max
    {HW} {P : pwm_provider HW} {L : led_core} led_dat b (w : world HW) :
  Forall (fun e => element_index e < 0 \/
                   is_Some (color_of (led_scale_color_elements
                                        (cdev led_dat) b) e))
         (elements led_dat) ->
  Exists (fun e => exists ce,
              color_of (led_scale_color_elements (cdev led_dat) b) e
                = Some ce /\ max_value ce = 0)
         (elements led_dat) ->
  led_pwm_set led_dat b w = Fault DivideByZero.
Proof.
  intros Hrange Hzero. unfold led_pwm_set.
  erewrite bind_ok by apply scale_run.
  apply bind_fault. apply set_loop_div_zero; assumption.
Qed.

Lemma set_divides_by_zero_max_witness :
  led_pwm_set (P := plain_provider) (L := sim_core) (rgb_dat 1 0) 255 boot
    = Fault DivideByZero.
Proof.
  apply (set_divides_by_zero_max (P := plain_provider) (L := sim_core)
           (rgb_dat 1 0) 255 boot).
  - constructor; [|constructor; [|constructor; [|constructor]]];
      right; eexists; reflexivity.
  - apply Exists_cons_tl, Exists_cons_hd.
    eexists. split; reflexivity.
Defined.

(** A monochrome LED whose color element has the range 0: the brightness set
    divides by zero. *)
Lemma set_divides_by_zero_max_counterexample :
  max_value <$> color_elements (cdev (mono_dat 1000 0)) = [0] /\
  led_pwm_set (P := plain_provider) (L := sim_core) (mono_dat 1000 0) 0 boot
    = Fault DivideByZero.
Proof. split; reflexivity. Qed.

(** ** What a brightness set that returns has done *)

Lemma quiet_nil : quiet [].
Proof. constructor. Qed.

Lemma quiet_app l1 l2 : quiet l1 -> quiet l2 -> quiet (l1 ++ l2).
Proof. unfold quiet. intros H1 H2. apply Forall_app. split; assumption. Qed.

Lemma quiet_cons e l : is_dev_err e = false -> quiet l -> quiet (e :: l).
Proof. unfold quiet. intros He Hl. constructor; assumption. Qed.

Lemma quiet_element_calls es : quiet (flat_map element_calls es).
Proof.
  induction es as [|e es IH]; [constructor|].
  cbn [flat_map]. apply quiet_app; [|exact IH].
  unfold element_calls. apply quiet_cons; [reflexivity|].
  apply quiet_cons; [destruct (duty e =? 0); reflexivity | constructor].
Qed.

Lemma quiet_erased l : quiet (map erase_ret l) -> quiet l.
Proof.
  unfold quiet. intros H. apply Forall_fmap in H.
  eapply Forall_impl; [exact H|].
  intros [] Hx; cbn in *; congruence.
Qed.

Section SetInversion.
Context {HW : Type} {P : pwm_provider HW} {L : led_core}.

Lemma set_element_settable cdev e (w : world HW) e' w' :
  led_pwm_set_element cdev e w = Ok e' w' -> settable cdev e.
Proof.
  unfold settable, color_of, led_pwm_set_element, array_read, bind.
  destruct (Z.ltb_spec (element_index e) 0) as [Hneg|Hpos]; [left; exact Hneg|].
  destruct (color_elements cdev !! Z.to_nat (element_index e)) as [ce|];
    [|discriminate].
  unfold ret at 1. intros Hrun. right. exists ce. split; [reflexivity|].
  intros Hz. unfold stored_duty, duty64 in Hrun.
  rewrite Hz, do_div_zero in Hrun. discriminate.
Qed.

Lemma set_loop_settable cdev elems :
  forall (w : world HW) r w',
    led_pwm_set_loop cdev elems w = Ok r w' -> Forall (settable cdev) elems.
Proof.
  induction elems as [|e elems IH]; intros w r w' Hrun; [constructor|].
  cbn [led_pwm_set_loop] in Hrun.
  apply bind_inv in Hrun as (e' & w1 & He & Hrun).
  apply bind_inv in Hrun as (r' & w2 & Hrest & _).
  constructor.
  - eapply set_element_settable. exact He.
  - eapply IH. exact Hrest.
Qed.

(** A brightness set that returns has returned 0, set every element to its
    target, logged no error, registered nothing and acquired nothing. *)
Lemma set_inv led_dat b (w : world HW) r w' :
  led_pwm_set led_dat b w = Ok r w' ->
  r = (0, {| cdev := led_scale_color_elements (cdev led_dat) b;
             elements :=
               map (element_target (led_scale_color_elements (cdev led_dat) b))
                   (elements led_dat) |}) /\
  (exists l', log w' = log w ++ l' /\ quiet l') /\
  registered w' = registered w /\
  devres w' = devres w.
Proof.
  intros Hrun.
  assert (Hset : Forall (settable (led_scale_color_elements (cdev led_dat) b))
                        (elements led_dat)).
  { unfold led_pwm_set in Hrun.
    apply bind_inv in Hrun as (c & w1 & Hscale & Hrun).
    rewrite scale_run in Hscale. injection Hscale as <- <-.
    apply bind_inv in Hrun as (elems & w2 & Hloop & _).
    eapply set_loop_settable. exact Hloop. }
  destruct (set_run led_dat b w Hset)
    as (w'' & l' & Hrun' & Hlog & Hcalls & Hreg & Hres).
  rewrite Hrun' in Hrun. injection Hrun as <- <-.
  split; [reflexivity|]. split; [|split; assumption].
  exists (EvScale b :: l'). split; [exact Hlog|].
  apply quiet_cons; [reflexivity|].
  apply quiet_erased. rewrite Hcalls. apply quiet_element_calls.
Qed.

End SetInversion.

(** ** Construction of a single-element LED *)

Lemma single_period_fallback hw_period fallback :
  0 <= fallback ->
  single_period hw_period fallback =
    if hw_period =? 0 then fallback else hw_period.
Proof.
  intros Hf. unfold single_period.
  destruct (Z.eqb_spec hw_period 0) as [->|Hnz]; cbn [andb]; [|reflexivity].
  destruct (Z.ltb_spec 0 fallback); [reflexivity | lia].
Qed.

Section AddSingle.
Context {HW : Type} {P : pwm_provider HW} {L : led_core}.

Lemma add_single_acquire led child (w : world HW) :
  match child with
  | Some node => call_devm_of_pwm_get (ln_pwms node)
  | None => call_devm_pwm_get (lp_name led)
  end w = hold_pwm (single_pwm led child) w.
Proof. destruct child; reflexivity. Qed.

(** A deferred acquisition: the function returns [-EPROBE_DEFER], having
    logged the acquisition and nothing else. *)
Lemma add_single_deferred priv led child (w : world HW) :
  single_pwm led child = ERR_PTR (- EPROBE_DEFER) ->
  led_pwm_add_single priv led child w =
    Ok (- EPROBE_DEFER, priv)
       {| hw := hw w;
          log := log w ++ [EvPwmGet (ERR_PTR (- EPROBE_DEFER))];
          registered := registered w; devres := devres w |}.
Proof.
  intros Hp. unfold led_pwm_add_single.
  erewrite bind_ok; [|rewrite add_single_acquire, Hp; reflexivity].
  reflexivity.
Qed.

(** A construction that returned 0 acquired a channel, registered the class
    device in the next slot and logged no error; the LED has one element on
    that channel. *)
Lemma add_single_ok priv led child (w : world HW) priv' w' :
  led_pwm_add_single priv led child w = Ok (0, priv') w' ->
  exists h d e,
    single_pwm led child = PwmDev h /\
    leds priv' = leds priv ++ [d] /\
    elements d = [e] /\
    pwm e = h /\
    period e = single_period (pwm_get_args h) (lp_pwm_period_ns led) /\
    active_low e = lp_active_low led /\
    registered w' = registered w ++ [num_leds priv] /\
    devres w' = devres w ++ [h] /\
    exists l', log w' = log w ++ l' /\ quiet l'.
Proof.
  unfold led_pwm_add_single. intros Hrun.
  apply bind_inv in Hrun as (p & w1 & Hacq & Hrun).
  rewrite add_single_acquire in Hacq. unfold hold_pwm in Hacq.
  injection Hacq as <- <-.
  destruct (single_pwm led child) as [h|errno] eqn:Hp.
  - apply bind_inv in Hrun as ([] & w2 & Happly & Hrun).
    unfold call_pwm_apply_args in Happly. injection Happly as <-.
    apply bind_inv in Hrun as ([r cdev2] & w3 & Hreg & Hrun).
    unfold call_led_classdev_register in Hreg.
    destruct (led_classdev_register _) as [r' c'] eqn:Ereg.
    injection Hreg as -> -> <-.
    destruct (Z.eqb_spec r 0) as [->|Hnz].
    + apply bind_inv in Hrun as (ce & w4 & Hread & Hrun).
      apply array_read_inv in Hread as (-> & _ & _).
      apply bind_inv in Hrun as (set & w5 & Hset & Hrun).
      apply set_inv in Hset as (-> & (l' & Hlog & Hq) & Hreg' & Hres').
      unfold ret in Hrun. injection Hrun as <- <-.
      cbn [log hw registered devres snd elements map] in *.
      eexists h, _, _. split; [reflexivity|].
      split; [reflexivity|]. split; [reflexivity|].
      split; [apply element_target_fields|].
      split; [apply element_target_fields|].
      split; [apply element_target_fields|].
      split; [exact Hreg'|]. split; [exact Hres'|].
      exists ([EvPwmGet (PwmDev h); EvPwmApplyArgs h; EvRegister (num_leds priv) 0]
                ++ l').
      split; [rewrite Hlog, <- !app_assoc; reflexivity|].
      apply quiet_app; [|exact Hq].
      repeat (apply quiet_cons; [reflexivity|]). apply quiet_nil.
    + apply bind_inv in Hrun as ([] & w4 & _ & Hrun).
      unfold ret in Hrun. injection Hrun as -> _ _. contradiction.
  - apply bind_inv in Hrun as ([] & w2 & _ & Hrun).
    unfold ret in Hrun. injection Hrun as Hz _ _. discriminate.
Qed.

End AddSingle.

(** ** Construction of a multi-element LED *)

Section AddMulti.
Context {HW : Type} {P : pwm_provider HW} {L : led_core}.

Lemma multi_child_skip led c st (w : world HW) :
  is_element_node c = false ->
  led_pwm_add_multi_child led c st w = Ok (inr st) w.
Proof. intros Hc. unfold led_pwm_add_multi_child. rewrite Hc. reflexivity. Qed.

(** An iteration that goes on to the next child has filled the element at
    [elem_index]. *)
Lemma multi_child_ok led c st (w : world HW) st' w' :
  is_element_node c = true ->
  led_pwm_add_multi_child led c st w = Ok (inr st') w' ->
  exists e slot,
    ms_elements st !! ms_elem_index st = Some slot /\
    element_built c e /\
    ms_elements st' = <[ms_elem_index st := e]> (ms_elements st) /\
    ms_elem_index st' = S (ms_elem_index st) /\
    registered w' = registered w /\
    devres w' = devres w ++ [pwm e] /\
    exists l', log w' = log w ++ l' /\ quiet l'.
Proof.
  intros Hc. unfold led_pwm_add_multi_child. rewrite Hc.
  destruct (led_color_element_setup_of _ _ _) as [r cdev1].
  destruct (r =? 0); cbn [negb]; [|discriminate].
  destruct (ms_elements st !! ms_elem_index st) as [slot|]; [|discriminate].
  intros Hrun.
  apply bind_inv in Hrun as (p & w1 & Hacq & Hrun).
  unfold call_devm_of_pwm_get, hold_pwm in Hacq. injection Hacq as <- <-.
  destruct (devm_of_pwm_get (en_pwms c)) as [h|errno] eqn:Hp.
  - apply bind_inv in Hrun as ([] & w2 & Happly & Hrun).
    unfold call_pwm_apply_args in Happly. injection Happly as <-.
    unfold ret in Hrun. injection Hrun as <- <-.
    cbn [ms_elements ms_elem_index log registered devres].
    exists {| element_index := to_int (Z.of_nat (ms_elem_index st));
              pwm := h;
              active_low := bool_to_uint (en_active_low c);
              period := pwm_get_args h;
              duty := duty slot |}, slot.
    split; [reflexivity|].
    split; [unfold element_built; cbn [pwm period active_low];
            split; [exact Hp | split; reflexivity]|].
    split; [reflexivity|]. split; [reflexivity|].
    split; [reflexivity|]. split; [reflexivity|].
    exists [EvPwmGet (PwmDev h); EvPwmApplyArgs h].
    split; [rewrite <- app_assoc; reflexivity|].
    repeat (apply quiet_cons; [reflexivity|]). apply quiet_nil.
  - apply bind_inv in Hrun as ([] & w2 & _ & Hrun). discriminate.
Qed.

Lemma multi_child_fail led c st (w : world HW) r w' :
  led_pwm_add_multi_child led c st w = Ok (inl r) w' -> r <> 0.
Proof.
  unfold led_pwm_add_multi_child.
  destruct (is_element_node c); [|discriminate].
  destruct (led_color_element_setup_of _ _ _) as [r1 cdev1].
  destruct (Z.eqb_spec r1 0) as [Hz|Hnz]; cbn [negb].
  - destruct (ms_elements st !! ms_elem_index st) as [slot|]; [|discriminate].
    intros Hrun.
    apply bind_inv in Hrun as (p & w1 & _ & Hrun).
    destruct p as [h|errno].
    + apply bind_inv in Hrun as ([] & w2 & _ & Hrun). discriminate.
    + apply bind_inv in Hrun as ([] & w2 & _ & Hrun).
      unfold ret in Hrun. injection Hrun as <- _. discriminate.
  - unfold ret. intros [= <- _]. exact Hnz.
Qed.

(** A deferred acquisition for an element node. *)
Lemma multi_child_deferred led c st (w : world HW) cdev1 slot :
  is_element_node c = true ->
  led_color_element_setup_of (ms_cdev st) (ms_elem_index st) c = (0, cdev1) ->
  ms_elements st !! ms_elem_index st = Some slot ->
  devm_of_pwm_get (en_pwms c) = ERR_PTR (- EPROBE_DEFER) ->
  led_pwm_add_multi_child led c st w =
    Ok (inl (- EPROBE_DEFER))
       {| hw := hw w;
          log := log w ++ [EvPwmGet (ERR_PTR (- EPROBE_DEFER))];
          registered := registered w; devres := devres w |}.
Proof.
  intros Hc Hsetup Hslot Hp. unfold led_pwm_add_multi_child.
  rewrite Hc, Hsetup, Hslot. cbn [Z.eqb negb].
  erewrite bind_ok;
    [|unfold call_devm_of_pwm_get, hold_pwm; rewrite Hp; reflexivity].
  reflexivity.
Qed.

Lemma multi_loop_app led c1 rest :
  forall st (w : world HW) st1 w1,
    led_pwm_add_multi_loop led c1 st w = Ok (inr st1) w1 ->
    led_pwm_add_multi_loop led (c1 ++ rest) st w =
      led_pwm_add_multi_loop led rest st1 w1.
Proof.
  induction c1 as [|c c1 IH]; intros st w st1 w1 Hrun.
  - cbn in Hrun. unfold ret in Hrun. injection Hrun as <- <-. reflexivity.
  - cbn [led_pwm_add_multi_loop app] in *.
    apply bind_inv in Hrun as (res & w2 & Hstep & Hrun).
    erewrite bind_ok by exact Hstep.
    destruct res as [r|st2]; [discriminate|].
    apply IH. exact Hrun.
Qed.

Lemma multi_loop_fail led children :
  forall st (w : world HW) r w',
    led_pwm_add_multi_loop led children st w = Ok (inl r) w' -> r <> 0.
Proof.
  induction children as [|c children IH]; intros st w r w' Hrun.
  - discriminate.
  - cbn [led_pwm_add_multi_loop] in Hrun.
    apply bind_inv in Hrun as (res & w2 & Hstep & Hrun).
    destruct res as [r'|st2].
    + unfold ret in Hrun. injection Hrun as <- _.
      eapply multi_child_fail. exact Hstep.
    + eapply IH. exact Hrun.
Qed.

(** The loop, when it runs to its end: the elements are filled in the order
    of the element nodes, from [elem_index] on. *)
Lemma multi_loop_ok led children :
  forall st (w : world HW) st' w' done zeros,
    led_pwm_add_multi_loop led children st w = Ok (inr st') w' ->
    ms_elements st = done ++ zeros ->
    ms_elem_index st = length done ->
    exists done',
      ms_elements st' = done ++ done' ++ drop (length done') zeros /\
      (length done' <= length zeros)%nat /\
      ms_elem_index st' = (length done + length done')%nat /\
      Forall2 element_built (List.filter is_element_node children) done' /\
      registered w' = registered w /\
      devres w' = devres w ++ map pwm done' /\
      exists l', log w' = log w ++ l' /\ quiet l'.
Proof.
  induction children as [|c children IH];
    intros st w st' w' done zeros Hrun Hel Hidx.
  - cbn in Hrun. unfold ret in Hrun. injection Hrun as <- <-.
    exists []. cbn. rewrite drop_0, app_nil_r.
    repeat split; try assumption; try lia; try constructor.
    exists []. rewrite app_nil_r. split; [reflexivity | apply quiet_nil].
  - cbn [led_pwm_add_multi_loop] in Hrun.
    apply bind_inv in Hrun as (res & w2 & Hstep & Hrun).
    destruct res as [r|st2]; [discriminate|].
    cbn [List.filter].
    destruct (is_element_node c) eqn:Hc.
    + apply (multi_child_ok led c st w st2 w2 Hc) in Hstep
        as (e & slot & Hslot & Hbuilt & Hel2 & Hidx2 & Hreg2 & Hres2
            & l2 & Hlog2 & Hq2).
      rewrite Hel, Hidx in Hslot.
      rewrite lookup_app_r in Hslot by lia. rewrite Nat.sub_diag in Hslot.
      destruct zeros as [|z zeros]; [discriminate|].
      assert (Hel2' : ms_elements st2 = (done ++ [e]) ++ zeros).
      { rewrite Hel2, Hel, Hidx.
        replace (length done) with (length done + 0)%nat at 1 by lia.
        rewrite insert_app_r. cbn. rewrite <- app_assoc. reflexivity. }
      assert (Hidx2' : ms_elem_index st2 = length (done ++ [e])).
      { rewrite Hidx2, Hidx, length_app. cbn. lia. }
      destruct (IH st2 w2 st' w' (done ++ [e]) zeros Hrun Hel2' Hidx2')
        as (done' & Hel' & Hlen & Hidx' & Hall & Hreg & Hres & l' & Hlog & Hq).
      exists (e :: done'). cbn [length drop].
      split; [rewrite Hel', <- app_assoc; reflexivity|].
      split; [lia|].
      split; [rewrite Hidx', length_app; cbn; lia|].
      split; [constructor; assumption|].
      split; [congruence|].
      split; [rewrite Hres, Hres2, <- app_assoc; reflexivity|].
      exists (l2 ++ l'). split; [rewrite Hlog, Hlog2, app_assoc; reflexivity|].
      apply quiet_app; assumption.
    + rewrite multi_child_skip in Hstep by exact Hc.
      injection Hstep as <- <-.
      apply (IH st w st' w' done zeros Hrun Hel Hidx).
Qed.

End AddMulti.

Lemma element_built_target {HW} {P : pwm_provider HW} cdev cs es :
  Forall2 element_built cs es ->
  Forall2 element_built cs (map (element_target cdev) es).
Proof.
  intros H. apply Forall2_fmap_r.
  eapply Forall2_impl; [exact H|].
  intros c e (Hp & Hper & Hal). unfold element_built.
  destruct (element_target_fields cdev e) as (_ & E1 & E2 & E3).
  unfold compose. rewrite E1, E2, E3. repeat split; assumption.
Qed.

Section AddMultiWhole.
Context {HW : Type} {P : pwm_provider HW} {L : led_core}.

(** A construction that returned 0: the loop ran to its end, the class
    device is registered in the next slot, no error is logged. *)
Lemma add_multi_ok priv led child n (w : world HW) priv' w' :
  led_pwm_add_multi priv led child n w = Ok (0, priv') w' ->
  exists d done',
    leds priv' = leds priv ++ [d] /\
    Forall2 element_built
      (List.filter is_element_node (ln_children child)) done' /\
    (length done' <= n)%nat /\
    (exists c, elements d =
       map (element_target c)
           (done' ++ drop (length done') (replicate n zero_element))) /\
    registered w' = registered w ++ [num_leds priv] /\
    devres w' = devres w ++ map pwm done' /\
    exists l', log w' = log w ++ l' /\ quiet l'.
Proof.
  unfold led_pwm_add_multi. intros Hrun.
  apply bind_inv in Hrun as (res & w1 & Hloop & Hrun).
  destruct res as [r|st].
  - unfold ret in Hrun. injection Hrun as -> _ _.
    apply multi_loop_fail in Hloop. contradiction.
  - destruct (multi_loop_ok led (ln_children child) _ w st w1 []
                (replicate n zero_element) Hloop eq_refl eq_refl)
      as (done' & Hel & Hlen & _ & Hall & Hreg1 & Hres1 & l1 & Hlog1 & Hq1).
    rewrite length_replicate in Hlen. cbn [app] in Hel.
    apply bind_inv in Hrun as ([r cdev2] & w2 & Hreg & Hrun).
    unfold call_led_classdev_register in Hreg.
    destruct (led_classdev_register _) as [r' c'] eqn:Ereg.
    injection Hreg as -> -> <-.
    destruct (Z.eqb_spec r 0) as [->|Hnz].
    + apply bind_inv in Hrun as (set & w3 & Hset & Hrun).
      apply set_inv in Hset as (-> & (l' & Hlog & Hq) & Hreg' & Hres').
      unfold ret in Hrun. injection Hrun as <- <-.
      cbn [log hw registered devres snd elements cdev Z.eqb] in *.
      eexists _, done'. split; [reflexivity|].
      split; [exact Hall|]. split; [exact Hlen|].
      split; [eexists; rewrite Hel; reflexivity|].
      split; [rewrite Hreg', Hreg1; reflexivity|].
      split; [rewrite Hres', Hres1; reflexivity|].
      exists (l1 ++ [EvRegister (num_leds priv) 0] ++ l').
      split; [rewrite Hlog, Hlog1, <- !app_assoc; reflexivity|].
      apply quiet_app; [exact Hq1|].
      apply quiet_cons; [reflexivity | exact Hq].
    + apply bind_inv in Hrun as ([] & w3 & _ & Hrun).
      unfold ret in Hrun. injection Hrun as -> _ _. contradiction.
Qed.

(** With as many elements as there are element nodes, every element of the
    LED is one built from its node. *)
Lemma add_multi_elements priv led child (w : world HW) priv' w' :
  led_pwm_add_multi priv led child (num_color_elements_of child) w
    = Ok (0, priv') w' ->
  exists d,
    leds priv' = leds priv ++ [d] /\
    Forall2 element_built
      (List.filter is_element_node (ln_children child)) (elements d).
Proof.
  intros Hrun.
  destruct (add_multi_ok _ _ _ _ _ _ _ Hrun)
    as (d & done' & Hleds & Hall & _ & (c & Hel) & _).
  exists d. split; [exact Hleds|].
  rewrite Hel.
  assert (Hlen : length done' = num_color_elements_of child).
  { symmetry. apply (Forall2_length _ _ _ Hall). }
  rewrite Hlen, drop_replicate, Nat.sub_diag. cbn [replicate].
  rewrite app_nil_r. apply element_built_target. exact Hall.
Qed.

(** A deferred acquisition for an element node, the nodes before it having
    been handled: the function returns [-EPROBE_DEFER], the class device is
    not registered, no error is logged. *)
Lemma add_multi_deferred priv led child c1 ec c2 (w : world HW) st1 w1 cdev1 :
  ln_children child = c1 ++ ec :: c2 ->
  led_pwm_add_multi_loop led c1
    (led_pwm_add_multi_init led (num_color_elements_of child)) w
    = Ok (inr st1) w1 ->
  is_element_node ec = true ->
  led_color_element_setup_of (ms_cdev st1) (ms_elem_index st1) ec
    = (0, cdev1) ->
  devm_of_pwm_get (en_pwms ec) = ERR_PTR (- EPROBE_DEFER) ->
  led_pwm_add_multi priv led child (num_color_elements_of child) w =
    Ok (- EPROBE_DEFER, priv)
       {| hw := hw w1;
          log := log w1 ++ [EvPwmGet (ERR_PTR (- EPROBE_DEFER))];
          registered := registered w1; devres := devres w1 |}.
Proof.
  intros Hch Hloop Hec Hsetup Hp.
  destruct (multi_loop_ok led c1 _ w st1 w1 []
              (replicate (num_color_elements_of child) zero_element)
              Hloop eq_refl eq_refl)
    as (done' & Hel & _ & Hidx & Hall & _).
  cbn [app length] in Hel, Hidx.
  assert (Hlt : (length done' < num_color_elements_of child)%nat).
  { rewrite <- (Forall2_length _ _ _ Hall).
    unfold num_color_elements_of. rewrite Hch, List.filter_app, length_app.
    cbn [List.filter]. rewrite Hec. cbn [length]. lia. }
  assert (Hslot : ms_elements st1 !! ms_elem_index st1 = Some zero_element).
  { rewrite Hel, Hidx. rewrite lookup_app_r by lia.
    rewrite Nat.sub_diag, lookup_drop, Nat.add_0_r.
    apply lookup_replicate_2. exact Hlt. }
  unfold led_pwm_add_multi. rewrite Hch.
  erewrite bind_ok.
  2:{ rewrite <- Hch. rewrite Hch at 1.
      erewrite multi_loop_app by exact Hloop.
      cbn [led_pwm_add_multi_loop].
      erewrite bind_ok
        by (eapply multi_child_deferred; eassumption).
      reflexivity. }
  reflexivity.
Qed.

End AddMultiWhole.

(** ** Cleanup *)

Lemma rev_seq_S n : rev (seq 0 (S n)) = n :: rev (seq 0 n).
Proof. rewrite seq_S, rev_app_distr. reflexivity. Qed.

(** Unregistering the slots [n-1 .. 0] empties a registry that holds
    exactly the slots [0 .. n-1]. *)
Lemma unregister_all n :
  fold_left (fun r i => List.remove Nat.eq_dec i r) (rev (seq 0 n)) (seq 0 n)
    = [].
Proof.
  induction n as [|n IH]; [reflexivity|].
  rewrite rev_seq_S. cbn [fold_left].
  rewrite seq_S, List.remove_app. cbn [List.remove Nat.add].
  destruct (Nat.eq_dec n n) as [_|Hne]; [|contradiction].
  rewrite app_nil_r, List.notin_remove; [exact IH|].
  rewrite in_seq. lia.
Qed.

Section Cleanup.
Context {HW : Type} {P : pwm_provider HW} {L : led_core}.

Lemma cleanup_from_run n :
  forall w : world HW,
    led_pwm_cleanup_from n w =
      Ok tt {| hw := hw w;
               log := log w ++ map EvUnregister (rev (seq 0 n));
               registered :=
                 fold_left (fun r i => List.remove Nat.eq_dec i r)
                           (rev (seq 0 n)) (registered w);
               devres := devres w |}.
Proof.
  induction n as [|n IH]; intros w.
  - cbn. rewrite app_nil_r. destruct w; reflexivity.
  - cbn [led_pwm_cleanup_from].
    erewrite bind_ok by reflexivity. rewrite IH.
    cbn [hw log registered devres]. rewrite rev_seq_S.
    cbn [map fold_left]. rewrite <- app_assoc. reflexivity.
Qed.

End Cleanup.

(** ** The loops over the LEDs *)

Section Loops.
Context {HW : Type} {P : pwm_provider HW} {L : led_core}.

(** The loop over the platform data, when every LED was added. *)
Lemma probe_loop_ok l :
  forall priv (w : world HW) priv' w',
    led_pwm_probe_loop l priv w = Ok (0, priv') w' ->
    num_leds priv' = (num_leds priv + length l)%nat /\
    registered w' = registered w ++ seq (num_leds priv) (length l) /\
    (exists hs, devres w' = devres w ++ hs /\
                Forall2 (fun led h => devm_pwm_get (lp_name led) = PwmDev h)
                        l hs) /\
    exists l', log w' = log w ++ l' /\ quiet l'.
Proof.
  induction l as [|led l IH]; intros priv w priv' w' Hrun.
  - cbn in Hrun. unfold ret in Hrun. injection Hrun as <- <-.
    cbn. rewrite Nat.add_0_r, !app_nil_r.
    split; [reflexivity|]. split; [reflexivity|].
    split; [exists []; rewrite app_nil_r; split; [reflexivity | constructor]|].
    exists []. rewrite app_nil_r. split; [reflexivity | apply quiet_nil].
  - cbn [led_pwm_probe_loop] in Hrun.
    apply bind_inv in Hrun as ([r priv1] & w1 & Hadd & Hrun).
    cbn [fst snd] in Hrun.
    destruct (Z.eqb_spec r 0) as [->|Hnz]; cbn [negb] in Hrun.
    + apply add_single_ok in Hadd
        as (h & d & e & Hp & Hleds & _ & _ & _ & _ & Hreg1 & Hres1
            & l1 & Hlog1 & Hq1).
      assert (Hn : num_leds priv1 = S (num_leds priv)).
      { unfold num_leds. rewrite Hleds, length_app. cbn. lia. }
      apply IH in Hrun as (Hnum & Hreg & (hs & Hres & Hall) & l' & Hlog & Hq).
      rewrite Hn in Hnum, Hreg.
      split; [cbn [length]; lia|].
      split; [rewrite Hreg, Hreg1, <- app_assoc; reflexivity|].
      split.
      { exists (h :: hs). split; [rewrite Hres, Hres1, <- app_assoc; reflexivity|].
        constructor; assumption. }
      exists (l1 ++ l'). split; [rewrite Hlog, Hlog1, app_assoc; reflexivity|].
      apply quiet_app; assumption.
    + unfold ret in Hrun. injection Hrun as -> _ _. contradiction.
Qed.

(** The loop is left at the first LED that cannot be added. *)
Lemma probe_loop_stop l1 x l2 :
  forall priv (w : world HW) priv1 w1 r priv2 w2,
    led_pwm_probe_loop l1 priv w = Ok (0, priv1) w1 ->
    led_pwm_add_single priv1 x None w1 = Ok (r, priv2) w2 ->
    r <> 0 ->
    led_pwm_probe_loop (l1 ++ x :: l2) priv w = Ok (r, priv2) w2.
Proof.
  induction l1 as [|led l1 IH]; intros priv w priv1 w1 r priv2 w2 Hpre Hadd Hr.
  - cbn in Hpre. unfold ret in Hpre. injection Hpre as <- <-.
    cbn [app led_pwm_probe_loop]. erewrite bind_ok by exact Hadd.
    cbn [fst]. destruct (Z.eqb_spec r 0); [contradiction | reflexivity].
  - cbn [app led_pwm_probe_loop] in *.
    apply bind_inv in Hpre as ([r' priv'] & w' & Hadd' & Hpre).
    erewrite bind_ok by exact Hadd'. cbn [fst snd] in *.
    destruct (Z.eqb_spec r' 0) as [->|Hnz]; cbn [negb] in *.
    + eapply IH; eassumption.
    + unfold ret in Hpre. injection Hpre as -> _ _. contradiction.
Qed.

(** One LED of the tree, added. *)
Lemma create_of_child_ok priv led child (w : world HW) priv' w' :
  led_pwm_create_of_child priv led child w = Ok (0, priv') w' ->
  num_leds priv' = S (num_leds priv) /\
  registered w' = registered w ++ [num_leds priv] /\
  (exists hs, devres w' = devres w ++ hs /\ (1 <= length hs)%nat) /\
  exists l', log w' = log w ++ l' /\ quiet l'.
Proof.
  unfold led_pwm_create_of_child.
  destruct (Nat.eqb_spec (num_color_elements_of child) 0) as [Hz|Hnz];
    cbn [negb]; intros Hrun.
  - apply add_single_ok in Hrun
      as (h & d & e & _ & Hleds & _ & _ & _ & _ & Hreg & Hres & Hlog).
    split; [unfold num_leds; rewrite Hleds, length_app; cbn; lia|].
    split; [exact Hreg|]. split; [|exact Hlog].
    exists [h]. split; [exact Hres | cbn; lia].
  - apply add_multi_ok in Hrun
      as (d & done' & Hleds & Hall & _ & _ & Hreg & Hres & Hlog).
    split; [unfold num_leds; rewrite Hleds, length_app; cbn; lia|].
    split; [exact Hreg|]. split; [|exact Hlog].
    exists (map pwm done'). split; [exact Hres|].
    rewrite length_map, <- (Forall2_length _ _ _ Hall).
    unfold num_color_elements_of in Hnz. lia.
Qed.

Lemma create_of_loop_ok children :
  forall led priv (w : world HW) priv' w',
    led_pwm_create_of_loop children led priv w = Ok (0, priv') w' ->
    num_leds priv' = (num_leds priv + length children)%nat /\
    registered w' = registered w ++ seq (num_leds priv) (length children) /\
    (exists hs, devres w' = devres w ++ hs /\
                (length children <= length hs)%nat) /\
    exists l', log w' = log w ++ l' /\ quiet l'.
Proof.
  induction children as [|child children IH]; intros led priv w priv' w' Hrun.
  - cbn in Hrun. unfold ret in Hrun. injection Hrun as <- <-.
    cbn. rewrite Nat.add_0_r, !app_nil_r.
    split; [reflexivity|]. split; [reflexivity|].
    split; [exists []; rewrite app_nil_r; split; [reflexivity | cbn; lia]|].
    exists []. rewrite app_nil_r. split; [reflexivity | apply quiet_nil].
  - cbn [led_pwm_create_of_loop] in Hrun.
    apply bind_inv in Hrun as ([r priv1] & w1 & Hadd & Hrun).
    cbn [fst snd] in Hrun.
    destruct (Z.eqb_spec r 0) as [->|Hnz]; cbn [negb] in Hrun.
    + apply create_of_child_ok in Hadd
        as (Hn & Hreg1 & (hs1 & Hres1 & Hlen1) & l1 & Hlog1 & Hq1).
      apply IH in Hrun as (Hnum & Hreg & (hs & Hres & Hlen) & l' & Hlog & Hq).
      rewrite Hn in Hnum, Hreg.
      split; [cbn [length]; lia|].
      split; [rewrite Hreg, Hreg1, <- app_assoc; reflexivity|].
      split.
      { exists (hs1 ++ hs).
        split; [rewrite Hres, Hres1, <- app_assoc; reflexivity|].
        rewrite length_app. cbn [length]. lia. }
      exists (l1 ++ l'). split; [rewrite Hlog, Hlog1, app_assoc; reflexivity|].
      apply quiet_app; assumption.
    + unfold ret in Hrun. injection Hrun as -> _ _. contradiction.
Qed.

Lemma create_of_loop_stop n1 x n2 :
  forall led priv (w : world HW) priv1 w1 r priv2 w2,
    led_pwm_create_of_loop n1 led priv w = Ok (0, priv1) w1 ->
    led_pwm_create_of_child priv1 (fold_left next_led n1 led) x w1
      = Ok (r, priv2) w2 ->
    r <> 0 ->
    led_pwm_create_of_loop (n1 ++ x :: n2) led priv w = Ok (r, priv2) w2.
Proof.
  induction n1 as [|child n1 IH];
    intros led priv w priv1 w1 r priv2 w2 Hpre Hadd Hr.
  - cbn in Hpre. unfold ret in Hpre. injection Hpre as <- <-.
    cbn [app led_pwm_create_of_loop fold_left] in *.
    erewrite bind_ok by exact Hadd.
    cbn [fst]. destruct (Z.eqb_spec r 0); [contradiction | reflexivity].
  - cbn [app led_pwm_create_of_loop fold_left] in *.
    apply bind_inv in Hpre as ([r' priv'] & w' & Hadd' & Hpre).
    erewrite bind_ok by exact Hadd'. cbn [fst snd] in *.
    destruct (Z.eqb_spec r' 0) as [->|Hnz]; cbn [negb] in *.
    + eapply IH; eassumption.
    + unfold ret in Hpre. injection Hpre as -> _ _. contradiction.
Qed.

End Loops.

(** ** The probe, when an LED cannot be added *)

Section ProbeFailure.
Context {HW : Type} {P : pwm_provider HW} {L : led_core}.

(** The LEDs added before the failure are unregistered, last one first, and
    the error code of the failure is returned; the PWM devices stay among
    the managed resources. *)
Lemma probe_unwinds pdev (w : world HW) r priv2 w2 :
  match pdata pdev with
  | Some l => length l
  | None => length (of_children pdev)
  end <> O ->
  devm_kzalloc_priv
    match pdata pdev with
    | Some l => length l
    | None => length (of_children pdev)
    end = true ->
  match pdata pdev with
  | Some l => led_pwm_probe_loop l {| leds := [] |}
  | None => led_pwm_create_of (of_children pdev) {| leds := [] |}
  end w = Ok (r, priv2) w2 ->
  r <> 0 ->
  registered w2 = seq 0 (num_leds priv2) ->
  exists w',
    led_pwm_probe pdev w = Ok (r, None) w' /\
    log w' = log w2 ++ map EvUnregister (rev (seq 0 (num_leds priv2))) /\
    registered w' = [] /\
    devres w' = devres w2.
Proof.
  intros Hcount Halloc Hinner Hr Hreg. unfold led_pwm_probe.
  destruct (Nat.eqb_spec
              match pdata pdev with
              | Some l => length l
              | None => length (of_children pdev)
              end 0) as [Hz|_]; [contradiction|].
  rewrite Halloc. cbn [negb].
  erewrite bind_ok by exact Hinner. cbn [fst snd].
  destruct (Z.eqb_spec r 0) as [Hz|_]; [contradiction|]. cbn [negb].
  unfold led_pwm_cleanup.
  erewrite bind_ok by apply cleanup_from_run.
  eexists. split; [reflexivity|]. cbn [log registered devres].
  split; [reflexivity|]. split; [|reflexivity].
  rewrite Hreg. apply unregister_all.
Qed.

End ProbeFailure.

Lemma deferred_nonzero : - EPROBE_DEFER <> 0.
Proof. discriminate. Qed.

(** C8, amended: in a setup where the LEDs before some LED have been added
    and the acquisition of the PWM channel for that LED (of the LED itself,
    or of one of the color elements of a multi-color LED) fails with
    [-EPROBE_DEFER]: the remaining LEDs are not constructed (the failed
    acquisition is followed by the unregistrations only), every LED
    registered before the failure is unregistered before the probe returns,
    last one first, no LED is left registered, the probe returns
    [-EPROBE_DEFER] itself, and no error is logged.  The channels acquired
    before the failure are managed resources of the device: the driver does
    not release them, they are still held when the probe returns. *)
Theorem probe_deferred :
  (forall HW (P : pwm_provider HW) (L : led_core) l1 x l2 ch
          (w : world HW) priv1 w1,
      registered w = [] ->
      devm_kzalloc_priv (length (l1 ++ x :: l2)) = true ->
      led_pwm_probe_loop l1 {| leds := [] |} w = Ok (0, priv1) w1 ->
      devm_pwm_get (lp_name x) = ERR_PTR (- EPROBE_DEFER) ->
      exists w',
        led_pwm_probe {| pdata := Some (l1 ++ x :: l2); of_children := ch |} w
          = Ok (- EPROBE_DEFER, None) w' /\
        log w' = log w1 ++ EvPwmGet (ERR_PTR (- EPROBE_DEFER))
                   :: map EvUnregister (rev (seq 0 (length l1))) /\
        registered w1 = seq 0 (length l1) /\
        registered w' = [] /\
        (exists l', log w' = log w ++ l' /\ quiet l') /\
        (exists hs, devres w' = devres w ++ hs /\
                    Forall2 (fun led h =>
                               devm_pwm_get (lp_name led) = PwmDev h) l1 hs)) /\
  (forall HW (P : pwm_provider HW) (L : led_core) n1 x n2
          (w : world HW) priv1 w1,
      registered w = [] ->
      devm_kzalloc_priv (length (n1 ++ x :: n2)) = true ->
      led_pwm_create_of_loop n1 zero_led_pwm {| leds := [] |} w
        = Ok (0, priv1) w1 ->
      num_color_elements_of x = O ->
      devm_of_pwm_get (ln_pwms x) = ERR_PTR (- EPROBE_DEFER) ->
      exists w',
        led_pwm_probe {| pdata := None; of_children := n1 ++ x :: n2 |} w
          = Ok (- EPROBE_DEFER, None) w' /\
        log w' = log w1 ++ EvPwmGet (ERR_PTR (- EPROBE_DEFER))
                   :: map EvUnregister (rev (seq 0 (length n1))) /\
        registered w1 = seq 0 (length n1) /\
        registered w' = [] /\
        (exists l', log w' = log w ++ l' /\ quiet l') /\
        (exists hs, devres w' = devres w ++ hs /\
                    (length n1 <= length hs)%nat)) /\
  (forall HW (P : pwm_provider HW) (L : led_core) n1 x n2 c1 ec c2
          (w : world HW) priv1 w1 st1 w2 cdev1,
      registered w = [] ->
      devm_kzalloc_priv (length (n1 ++ x :: n2)) = true ->
      led_pwm_create_of_loop n1 zero_led_pwm {| leds := [] |} w
        = Ok (0, priv1) w1 ->
      ln_children x = c1 ++ ec :: c2 ->
      led_pwm_add_multi_loop
        (of_led (fold_left next_led n1 zero_led_pwm) x) c1
        (led_pwm_add_multi_init
           (of_led (fold_left next_led n1 zero_led_pwm) x)
           (num_color_elements_of x)) w1
        = Ok (inr st1) w2 ->
      is_element_node ec = true ->
      led_color_element_setup_of (ms_cdev st1) (ms_elem_index st1) ec
        = (0, cdev1) ->
      devm_of_pwm_get (en_pwms ec) = ERR_PTR (- EPROBE_DEFER) ->
      exists w',
        led_pwm_probe {| pdata := None; of_children := n1 ++ x :: n2 |} w
          = Ok (- EPROBE_DEFER, None) w' /\
        log w' = log w2 ++ EvPwmGet (ERR_PTR (- EPROBE_DEFER))
                   :: map EvUnregister (rev (seq 0 (length n1))) /\
        registered w2 = seq 0 (length n1) /\
        registered w' = [] /\
        (exists l', log w' = log w ++ l' /\ quiet l') /\
        (exists hs, devres w' = devres w ++ hs /\
                    (length n1 <= length hs)%nat)).
Proof.
  split; [|split].
  - intros HW P L l1 x l2 ch w priv1 w1 Hempty Halloc Hpre Hdefer.
    destruct (probe_loop_ok l1 _ w priv1 w1 Hpre)
      as (Hnum & Hreg & (hs & Hres & Hall) & l' & Hlog & Hq).
    cbn [num_leds leds length Nat.add] in Hnum, Hreg.
    rewrite Hempty in Hreg. cbn [app] in Hreg.
    pose proof (probe_loop_stop l1 x l2 _ w priv1 w1 _ _ _ Hpre
                  (add_single_deferred priv1 x None w1 Hdefer)
                  deferred_nonzero) as Hloop.
    edestruct (probe_unwinds
                 {| pdata := Some (l1 ++ x :: l2); of_children := ch |} w)
      as (w' & Hrun & Hlog' & Hreg' & Hres').
    { cbn [pdata]. rewrite length_app. cbn. lia. }
    { exact Halloc. }
    { exact Hloop. }
    { exact deferred_nonzero. }
    { cbn [registered]. rewrite Hnum. exact Hreg. }
    cbn [log devres] in Hlog', Hres'. rewrite Hnum in Hlog'.
    exists w'. split; [exact Hrun|].
    split; [rewrite Hlog', <- app_assoc; reflexivity|].
    split; [exact Hreg|]. split; [exact Hreg'|].
    split.
    { exists (l' ++ EvPwmGet (ERR_PTR (- EPROBE_DEFER))
                 :: map EvUnregister (rev (seq 0 (length l1)))).
      split; [rewrite Hlog', Hlog, <- !app_assoc; reflexivity|].
      apply quiet_app; [exact Hq|].
      apply quiet_cons; [reflexivity|].
      unfold quiet. apply Forall_fmap, Forall_true. reflexivity. }
    exists hs. split; [rewrite Hres', Hres; reflexivity | exact Hall].
  - intros HW P L n1 x n2 w priv1 w1 Hempty Halloc Hpre Hsingle Hdefer.
    destruct (create_of_loop_ok n1 _ _ w priv1 w1 Hpre)
      as (Hnum & Hreg & (hs & Hres & Hlen) & l' & Hlog & Hq).
    cbn [num_leds leds length Nat.add] in Hnum, Hreg.
    rewrite Hempty in Hreg. cbn [app] in Hreg.
    assert (Hadd : led_pwm_create_of_child priv1
                     (fold_left next_led n1 zero_led_pwm) x w1 =
                   Ok (- EPROBE_DEFER, priv1)
                      {| hw := hw w1;
                         log := log w1 ++ [EvPwmGet (ERR_PTR (- EPROBE_DEFER))];
                         registered := registered w1; devres := devres w1 |}).
    { unfold led_pwm_create_of_child. rewrite Hsingle. cbn [Nat.eqb negb].
      apply add_single_deferred. exact Hdefer. }
    pose proof (create_of_loop_stop n1 x n2 _ _ w priv1 w1 _ _ _ Hpre Hadd
                  deferred_nonzero) as Hloop.
    edestruct (probe_unwinds
                 {| pdata := None; of_children := n1 ++ x :: n2 |} w)
      as (w' & Hrun & Hlog' & Hreg' & Hres').
    { cbn [pdata of_children]. rewrite length_app. cbn. lia. }
    { exact Halloc. }
    { exact Hloop. }
    { exact deferred_nonzero. }
    { cbn [registered]. rewrite Hnum. exact Hreg. }
    cbn [log devres] in Hlog', Hres'. rewrite Hnum in Hlog'.
    exists w'. split; [exact Hrun|].
    split; [rewrite Hlog', <- app_assoc; reflexivity|].
    split; [exact Hreg|]. split; [exact Hreg'|].
    split.
    { exists (l' ++ EvPwmGet (ERR_PTR (- EPROBE_DEFER))
                 :: map EvUnregister (rev (seq 0 (length n1)))).
      split; [rewrite Hlog', Hlog, <- !app_assoc; reflexivity|].
      apply quiet_app; [exact Hq|].
      apply quiet_cons; [reflexivity|].
      unfold quiet. apply Forall_fmap, Forall_true. reflexivity. }
    exists hs. split; [rewrite Hres', Hres; reflexivity | exact Hlen].
  - intros HW P L n1 x n2 c1 ec c2 w priv1 w1 st1 w2 cdev1
           Hempty Halloc Hpre Hch Hmulti Hec Hsetup Hdefer.
    destruct (create_of_loop_ok n1 _ _ w priv1 w1 Hpre)
      as (Hnum & Hreg & (hs & Hres & Hlen) & l' & Hlog & Hq).
    cbn [num_leds leds length Nat.add] in Hnum, Hreg.
    rewrite Hempty in Hreg. cbn [app] in Hreg.
    destruct (multi_loop_ok _ c1 _ w1 st1 w2 []
                (replicate (num_color_elements_of x) zero_element)
                Hmulti eq_refl eq_refl)
      as (done' & _ & _ & _ & _ & Hreg2 & Hres2 & l2 & Hlog2 & Hq2).
    assert (Hnz : num_color_elements_of x <> O).
    { unfold num_color_elements_of. rewrite Hch, List.filter_app, length_app.
      cbn [List.filter]. rewrite Hec. cbn [length]. lia. }
    assert (Hadd : led_pwm_create_of_child priv1
                     (fold_left next_led n1 zero_led_pwm) x w1 =
                   Ok (- EPROBE_DEFER, priv1)
                      {| hw := hw w2;
                         log := log w2 ++ [EvPwmGet (ERR_PTR (- EPROBE_DEFER))];
                         registered := registered w2; devres := devres w2 |}).
    { unfold led_pwm_create_of_child.
      destruct (Nat.eqb_spec (num_color_elements_of x) 0) as [Hz|_];
        [contradiction|]. cbn [negb].
      eapply add_multi_deferred; eassumption. }
    pose proof (create_of_loop_stop n1 x n2 _ _ w priv1 w1 _ _ _ Hpre Hadd
                  deferred_nonzero) as Hloop.
    edestruct (probe_unwinds
                 {| pdata := None; of_children := n1 ++ x :: n2 |} w)
      as (w' & Hrun & Hlog' & Hreg' & Hres').
    { cbn [pdata of_children]. rewrite length_app. cbn. lia. }
    { exact Halloc. }
    { exact Hloop. }
    { exact deferred_nonzero. }
    { cbn [registered]. rewrite Hnum, Hreg2. exact Hreg. }
    cbn [log devres] in Hlog', Hres'. rewrite Hnum in Hlog'.
    exists w'. split; [exact Hrun|].
    split; [rewrite Hlog', <- app_assoc; reflexivity|].
    split; [rewrite Hreg2; exact Hreg|]. split; [exact Hreg'|].
    split.
    { exists (l' ++ l2 ++ EvPwmGet (ERR_PTR (- EPROBE_DEFER))
                 :: map EvUnregister (rev (seq 0 (length n1)))).
      split; [rewrite Hlog', Hlog2, Hlog, <- !app_assoc; reflexivity|].
      apply quiet_app; [exact Hq|]. apply quiet_app; [exact Hq2|].
      apply quiet_cons; [reflexivity|].
      unfold quiet. apply Forall_fmap, Forall_true. reflexivity. }
    exists (hs ++ map pwm done').
    split; [rewrite Hres', Hres2, Hres, app_assoc; reflexivity|].
    rewrite length_app. lia.
Qed.

(** Three LEDs, the channel of the second one not available yet: from the
    platform data, from the tree with a single-element LED, and from the
    tree with a two-color LED whose second channel is the one missing. *)
Lemma probe_deferred_witness :
  (exists w',
      led_pwm_probe (P := board) (L := sim_core)
        {| pdata := Some board_pdata; of_children := [] |} boot
        = Ok (- EPROBE_DEFER, None) w' /\
      registered w' = [] /\
      exists l', log w' = log boot ++ l' /\ quiet l') /\
  (exists w',
      led_pwm_probe (P := board) (L := sim_core)
        {| pdata := None; of_children := board_tree_single |} boot
        = Ok (- EPROBE_DEFER, None) w' /\
      registered w' = [] /\
      exists l', log w' = log boot ++ l' /\ quiet l') /\
  (exists w',
      led_pwm_probe (P := board) (L := sim_core)
        {| pdata := None; of_children := board_tree_multi |} boot
        = Ok (- EPROBE_DEFER, None) w' /\
      registered w' = [] /\
      exists l', log w' = log boot ++ l' /\ quiet l').
Proof.
  split; [|split].
  - edestruct (proj1 probe_deferred sim_hw board sim_core
                 [board_led "led0"] (board_led "led1") [board_led "led2"]
                 [] boot)
      as (w' & Hrun & _ & _ & Hreg & Hq & _).
    + reflexivity.
    + reflexivity.
    + vm_compute. reflexivity.
    + reflexivity.
    + exists w'. split; [exact Hrun|]. split; [exact Hreg | exact Hq].
  - edestruct (proj1 (proj2 probe_deferred) sim_hw board sim_core
                 [board_node "a" (Some 1%nat) []]
                 (board_node "b" (Some 3%nat) [])
                 [board_node "c" (Some 2%nat) []] boot)
      as (w' & Hrun & _ & _ & Hreg & Hq & _).
    + reflexivity.
    + reflexivity.
    + vm_compute. reflexivity.
    + reflexivity.
    + reflexivity.
    + exists w'. split; [exact Hrun|]. split; [exact Hreg | exact Hq].
  - edestruct (proj2 (proj2 probe_deferred) sim_hw board sim_core
                 [board_node "a" (Some 1%nat) []]
                 (board_node "rgb" None
                    [ board_elem "element-0" 2; board_elem "element-1" 3 ])
                 [board_node "c" (Some 2%nat) []]
                 [board_elem "element-0" 2] (board_elem "element-1" 3) []
                 boot)
      as (w' & Hrun & _ & _ & Hreg & Hq & _).
    + reflexivity.
    + reflexivity.
    + vm_compute. reflexivity.
    + reflexivity.
    + vm_compute. reflexivity.
    + reflexivity.
    + reflexivity.
    + reflexivity.
    + exists w'. split; [exact Hrun|]. split; [exact Hreg | exact Hq].
Defined.

(** The same platform data: when the probe returns [-EPROBE_DEFER], with no
    LED registered, channel 1, acquired for the first LED, is still among
    the managed resources of the device. *)
Lemma probe_deferred_counterexample :
  exists w',
    led_pwm_probe (P := board) (L := sim_core)
      {| pdata := Some board_pdata; of_children := [] |} boot
      = Ok (- EPROBE_DEFER, None) w' /\
    registered w' = [] /\
    devres w' = [1%nat] /\
    log w' = [ EvPwmGet (PwmDev 1%nat); EvPwmApplyArgs 1%nat;
               EvRegister 0%nat 0; EvScale 0; EvPwmConfig 1%nat 0 1000 0;
               EvPwmDisable 1%nat 0; EvPwmGet (ERR_PTR (- EPROBE_DEFER));
               EvUnregister 0%nat ].
Proof.
  eexists. split; [vm_compute; reflexivity|].
  repeat split; reflexivity.
Qed.

(** ** The scenarios of the specification, run on the simulated channel *)

(** Scenario A: a monochrome LED, range 255, active-high, period 1000. *)
Example scenario_a_off :
  exists d' w',
    led_pwm_set (P := plain_provider) (L := sim_core) (mono_dat 1000 255) 0 boot
      = Ok (0, d') w' /\
    duty <$> elements d' = [0] /\
    enabled (hw w' 1%nat) = false.
Proof.
  eexists _, _. split; [vm_compute; reflexivity|]. split; reflexivity.
Qed.

Example scenario_a_full :
  exists d' w',
    led_pwm_set (P := plain_provider) (L := sim_core) (mono_dat 1000 255) 255
                boot
      = Ok (0, d') w' /\
    duty <$> elements d' = [1000] /\
    enabled (hw w' 1%nat) = true.
Proof.
  eexists _, _. split; [vm_compute; reflexivity|]. split; reflexivity.
Qed.

Example scenario_a_half :
  exists d' w',
    led_pwm_set (P := plain_provider) (L := sim_core) (mono_dat 1000 255) 128
                boot
      = Ok (0, d') w' /\
    duty <$> elements d' = [501] /\
    enabled (hw w' 1%nat) = true.
Proof.
  eexists _, _. split; [vm_compute; reflexivity|]. split; reflexivity.
Qed.

(** Scenario B: the same LED, active-low, at full brightness. *)
Example scenario_b_full :
  exists d' w',
    led_pwm_set (P := plain_provider) (L := sim_core)
      {| cdev := cdev (mono_dat 1000 255); elements := [ mono_elem 1 1000 ] |}
      255 boot
      = Ok (0, d') w' /\
    duty <$> elements d' = [0] /\
    enabled (hw w' 1%nat) = false.
Proof.
  eexists _, _. split; [vm_compute; reflexivity|]. split; reflexivity.
Qed.

(** Scenario D, from the platform data: the channel of the second of three
    LEDs is not available yet. *)
Example scenario_d :
  fst <$> (match led_pwm_probe (P := board) (L := sim_core)
                   {| pdata := Some board_pdata; of_children := [] |} boot with
           | Ok a _ => Some a
           | Fault _ => None
           end) = Some (- EPROBE_DEFER).
Proof. vm_compute. reflexivity. Qed.

(** ** Further properties of the duty computation *)

Lemma stored_duty_value period al v m :
  m <> 0 ->
  stored_duty period al v m =
    Some (to_int (if al =? 0 then to_u64 (period * v) / m
                  else to_u64 (period - to_u64 (period * v) / m))).
Proof.
  intros Hm. unfold stored_duty, duty64. rewrite do_div_nonzero by exact Hm.
  reflexivity.
Qed.

(** The two polarities are complementary: over the range of the color
    element, the duty of an active-low element and the duty an active-high
    element would get add up to the period (lines 83-89); the values stored
    do as well when an [int] holds the period. *)
Theorem duty_polarity_complement period al v m :
  is_uint period -> is_uint m -> 0 <= v <= m -> 0 < m -> al <> 0 ->
  exists d_high d_low,
    duty64 period 0 v m = Some d_high /\
    duty64 period al v m = Some d_low /\
    d_high + d_low = period /\
    (period <= INT_MAX ->
     stored_duty period 0 v m = Some d_high /\
     stored_duty period al v m = Some d_low).
Proof.
  intros Hp Hm Hv Hpos Hal.
  exists (period * v / m), (period - period * v / m).
  rewrite !duty64_in_range by assumption.
  destruct (Z.eqb_spec al 0) as [Hz|_]; [contradiction|]. cbn [Z.eqb].
  split; [reflexivity|]. split; [reflexivity|]. split; [lia|].
  intros Hint. rewrite !stored_duty_in_range by assumption.
  destruct (Z.eqb_spec al 0) as [Hz|_]; [contradiction|]. cbn [Z.eqb].
  split; reflexivity.
Qed.

Lemma duty_polarity_complement_witness :
  exists d_high d_low,
    duty64 1000 0 128 255 = Some d_high /\
    duty64 1000 1 128 255 = Some d_low /\
    d_high + d_low = 1000 /\
    (1000 <= INT_MAX ->
     stored_duty 1000 0 128 255 = Some d_high /\
     stored_duty 1000 1 128 255 = Some d_low).
Proof.
  apply (duty_polarity_complement 1000 1 128 255);
    unfold is_uint, UINT_MAX; lia.
Defined.

(** The ends of the range (lines 83-91): the raw value 0 of an active-high
    element and the full raw value of an active-low one store the duty 0,
    for every period; the other two ends store the period, as the [int] it
    converts to. *)
Lemma duty_ends period al m :
  is_uint period -> is_uint m -> 0 < m -> al <> 0 ->
  stored_duty period 0 0 m = Some 0 /\
  stored_duty period al m m = Some 0 /\
  stored_duty period 0 m m = Some (to_int period) /\
  stored_duty period al 0 m = Some (to_int period).
Proof.
  intros Hp Hm Hpos Hal.
  pose proof (is_uint_u64 period Hp) as Hp64.
  assert (Hfull : to_u64 (period * m) / m = period).
  { rewrite to_u64_small by (apply uint_product_fits; assumption).
    apply Z.div_mul. lia. }
  assert (Hnone : to_u64 (period * 0) / m = 0).
  { rewrite Z.mul_0_r. reflexivity. }
  rewrite !stored_duty_value by lia.
  destruct (Z.eqb_spec al 0) as [Hz|_]; [contradiction|]. cbn [Z.eqb].
  rewrite Hfull, Hnone, Z.sub_diag, Z.sub_0_r.
  rewrite (to_u64_small period) by exact Hp64.
  repeat split; reflexivity.
Qed.

(** A period of 0 (an element whose channel has no hardware period, which
    the multi-element construction takes over as it is) gives the duty 0 for
    every raw value and both polarities. *)
Lemma duty_zero_period al v m :
  m <> 0 -> stored_duty 0 al v m = Some 0.
Proof.
  intros Hm. rewrite stored_duty_value by exact Hm.
  rewrite Z.mul_0_l. destruct (al =? 0); reflexivity.
Qed.

(** ** The channel after one element of a brightness set *)

(** On the simulated provider: the element gets its target and its channel
    holds the duty, the period as [int], and is enabled unless the duty
    is 0; every other channel is as before. *)
Lemma sim_element_state args by_name by_ref cdev e ce (w : world sim_hw) :
  color_of cdev e = Some ce -> max_value ce <> 0 ->
  exists w',
    led_pwm_set_element (P := sim_provider args by_name by_ref) cdev e w
      = Ok (element_target cdev e) w' /\
    forall h,
      hw w' h =
        if Nat.eqb h (pwm e)
        then {| cfg_duty := duty (element_target cdev e);
                cfg_period := to_int (period e);
                enabled := negb (duty (element_target cdev e) =? 0) |}
        else hw w h.
Proof.
  intros Hc Hm.
  destruct (set_element_run (P := sim_provider args by_name by_ref)
              cdev e ce w Hc Hm)
    as (w' & Hrun & _ & _ & _ & _ & Hhw).
  exists w'. split; [exact Hrun|]. intros h. rewrite Hhw.
  cbn [pwm_config pwm_enable pwm_disable sim_provider].
  destruct (duty (element_target cdev e) =? 0);
    cbn [sim_config sim_enable sim_disable snd negb]; unfold upd;
    rewrite !Nat.eqb_refl; cbn [cfg_duty cfg_period enabled];
    destruct (Nat.eqb h (pwm e)); reflexivity.
Qed.

Lemma element_target_duty cdev e ce d :
  color_of cdev e = Some ce ->
  stored_duty (period e) (active_low e) (raw_value ce) (max_value ce)
    = Some d ->
  duty (element_target cdev e) = d.
Proof.
  intros Hc Hd. unfold element_target. rewrite Hc, Hd. reflexivity.
Qed.

(** The ends of the range, on the channel (lines 46-56 and 83-93): an
    active-high element at the raw value 0 and an active-low element at the
    full raw value get the duty 0 and their channel ends disabled, whatever
    the period and the state before; at the opposite end, for a period that
    is positive and that an [int] holds, the duty is the period and the
    channel ends enabled. *)
Theorem element_ends args by_name by_ref cdev e ce (w : world sim_hw) :
  color_of cdev e = Some ce ->
  is_uint (period e) -> is_uint (max_value ce) -> 0 < max_value ce ->
  exists e' w',
    led_pwm_set_element (P := sim_provider args by_name by_ref) cdev e w
      = Ok e' w' /\
    ((active_low e = 0 /\ raw_value ce = 0) \/
     (active_low e <> 0 /\ raw_value ce = max_value ce) ->
     duty e' = 0 /\ enabled (hw w' (pwm e)) = false) /\
    ((active_low e = 0 /\ raw_value ce = max_value ce) \/
     (active_low e <> 0 /\ raw_value ce = 0) ->
     0 < period e -> period e <= INT_MAX ->
     duty e' = period e /\ enabled (hw w' (pwm e)) = true).
Proof.
  intros Hc Hp Hm Hpos.
  destruct (sim_element_state args by_name by_ref cdev e ce w Hc)
    as (w' & Hrun & Hhw); [lia|].
  exists (element_target cdev e), w'. split; [exact Hrun|].
  rewrite Hhw, Nat.eqb_refl. cbn [enabled].
  destruct (duty_ends (period e) 1 (max_value ce) Hp Hm Hpos)
    as (Hdark0 & _ & Hfull0 & _); [discriminate|].
  split.
  - intros [[Hal Hraw] | [Hal Hraw]].
    + rewrite (element_target_duty cdev e ce 0 Hc)
        by (rewrite Hal, Hraw; exact Hdark0).
      split; reflexivity.
    + destruct (duty_ends (period e) (active_low e) (max_value ce)
                  Hp Hm Hpos Hal) as (_ & Hdark1 & _).
      rewrite (element_target_duty cdev e ce 0 Hc)
        by (rewrite Hraw; exact Hdark1).
      split; reflexivity.
  - intros Hend Hper Hint.
    assert (Hd : duty (element_target cdev e) = period e).
    { transitivity (to_int (period e));
        [|apply to_int_small; unfold INT_MIN; lia].
      destruct Hend as [[Hal Hraw] | [Hal Hraw]].
      - apply (element_target_duty cdev e ce _ Hc).
        rewrite Hal, Hraw. exact Hfull0.
      - destruct (duty_ends (period e) (active_low e) (max_value ce)
                    Hp Hm Hpos Hal) as (_ & _ & _ & Hfull1).
        apply (element_target_duty cdev e ce _ Hc).
        rewrite Hraw. exact Hfull1. }
    rewrite Hd. split; [reflexivity|].
    destruct (Z.eqb_spec (period e) 0); [lia | reflexivity].
Qed.

Lemma element_ends_witness :
  exists e' w',
    led_pwm_set_element (P := plain_provider) (mono_cdev 255)
                        (mono_elem 1 1000) boot = Ok e' w' /\
    ((active_low (mono_elem 1 1000) = 0 /\ 255 = 0) \/
     (active_low (mono_elem 1 1000) <> 0 /\ 255 = 255) ->
     duty e' = 0 /\ enabled (hw w' 1%nat) = false) /\
    ((active_low (mono_elem 1 1000) = 0 /\ 255 = 255) \/
     (active_low (mono_elem 1 1000) <> 0 /\ 255 = 0) ->
     0 < 1000 -> 1000 <= INT_MAX ->
     duty e' = 1000 /\ enabled (hw w' 1%nat) = true).
Proof.
  apply (element_ends (fun _ => 1000) (fun _ => ERR_PTR (- EINVAL))
           (fun _ => ERR_PTR (- EINVAL)) (mono_cdev 255) (mono_elem 1 1000)
           {| ce_name := Some "single"%string; value := 255; raw_value := 255;
              max_value := 255 |} boot);
    cbn; unfold is_uint, UINT_MAX; try reflexivity; lia.
Defined.

(** An element whose period is 0 (lines 255-257 take a channel without a
    hardware period as it is) does not follow the brightness: whatever the
    raw value, the nonzero range and the polarity, the brightness set stores
    the duty 0, configures the channel with the duty 0 and the period 0 and
    leaves it disabled, so that the channel is in the same state for every
    brightness. *)
Theorem element_zero_period args by_name by_ref cdev e ce (w : world sim_hw) :
  color_of cdev e = Some ce -> max_value ce <> 0 -> period e = 0 ->
  exists e' w',
    led_pwm_set_element (P := sim_provider args by_name by_ref) cdev e w
      = Ok e' w' /\
    duty e' = 0 /\
    hw w' (pwm e) = {| cfg_duty := 0; cfg_period := 0; enabled := false |}.
Proof.
  intros Hc Hm Hper.
  destruct (sim_element_state args by_name by_ref cdev e ce w Hc Hm)
    as (w' & Hrun & Hhw).
  exists (element_target cdev e), w'. split; [exact Hrun|].
  rewrite Hhw, Nat.eqb_refl.
  rewrite (element_target_duty cdev e ce 0 Hc)
    by (rewrite Hper; apply duty_zero_period; exact Hm).
  rewrite Hper. split; reflexivity.
Qed.

(** An active-low and an active-high element with the period 0, at
    different raw values: both channels end in the same state. *)
Lemma element_zero_period_witness :
  (exists e' w',
      led_pwm_set_element (P := plain_provider) (mono_cdev 200)
                          (mono_elem 1 0) boot = Ok e' w' /\
      duty e' = 0 /\
      hw w' 1%nat = {| cfg_duty := 0; cfg_period := 0; enabled := false |}) /\
  (exists e' w',
      led_pwm_set_element (P := plain_provider) (mono_cdev 255)
                          (mono_elem 0 0) boot = Ok e' w' /\
      duty e' = 0 /\
      hw w' 1%nat = {| cfg_duty := 0; cfg_period := 0; enabled := false |}).
Proof.
  split.
  - apply (element_zero_period (fun _ => 1000) (fun _ => ERR_PTR (- EINVAL))
             (fun _ => ERR_PTR (- EINVAL)) (mono_cdev 200) (mono_elem 1 0)
             {| ce_name := Some "single"%string; value := 255;
                raw_value := 200; max_value := 255 |} boot);
      [reflexivity | discriminate | reflexivity].
  - apply (element_zero_period (fun _ => 1000) (fun _ => ERR_PTR (- EINVAL))
             (fun _ => ERR_PTR (- EINVAL)) (mono_cdev 255) (mono_elem 0 0)
             {| ce_name := Some "single"%string; value := 255;
                raw_value := 255; max_value := 255 |} boot);
      [reflexivity | discriminate | reflexivity].
Defined.

Lemma element_target_colored cdev e ce :
  color_of cdev e = Some ce -> max_value ce <> 0 ->
  exists d,
    element_target cdev e = with_duty e d /\
    forall x,
      color_of cdev (with_duty e x) = Some ce /\
      element_target cdev (with_duty e x) = with_duty e d.
Proof.
  intros Hc Hm.
  exists (to_int (if active_low e =? 0
                  then to_u64 (period e * raw_value ce) / max_value ce
                  else to_u64 (period e -
                               to_u64 (period e * raw_value ce)
                               / max_value ce))).
  split.
  - unfold element_target. rewrite Hc, stored_duty_value by exact Hm.
    reflexivity.
  - intros x.
    assert (Hcx : color_of cdev (with_duty e x) = Some ce) by exact Hc.
    split; [exact Hcx|].
    unfold element_target. rewrite Hcx.
    cbn [with_duty period active_low].
    rewrite stored_duty_value by exact Hm. reflexivity.
Qed.

(** The duty an element had before is no input of the brightness set, and
    the set is idempotent (lines 83-93): setting an element again from the
    same color element gives the same element and leaves every channel as
    the first set left it, and an element that differs only in its old duty
    gets the same result. *)
Theorem element_set_idempotent args by_name by_ref cdev e ce
    (w : world sim_hw) :
  color_of cdev e = Some ce -> max_value ce <> 0 ->
  exists e1 w1 w2,
    led_pwm_set_element (P := sim_provider args by_name by_ref) cdev e w
      = Ok e1 w1 /\
    led_pwm_set_element (P := sim_provider args by_name by_ref) cdev e1 w1
      = Ok e1 w2 /\
    (forall h, hw w2 h = hw w1 h) /\
    (forall d0, exists w1',
        led_pwm_set_element (P := sim_provider args by_name by_ref) cdev
                            (with_duty e d0) w = Ok e1 w1' /\
        forall h, hw w1' h = hw w1 h).
Proof.
  intros Hc Hm.
  destruct (element_target_colored cdev e ce Hc Hm) as (d & Ht & Hx).
  destruct (sim_element_state args by_name by_ref cdev e ce w Hc Hm)
    as (w1 & Hrun1 & Hhw1).
  destruct (Hx d) as (Hc1 & Ht1).
  destruct (sim_element_state args by_name by_ref cdev (with_duty e d) ce w1
              Hc1 Hm) as (w2 & Hrun2 & Hhw2).
  rewrite Ht1 in Hrun2, Hhw2. rewrite Ht in Hrun1, Hhw1.
  exists (with_duty e d), w1, w2.
  split; [exact Hrun1|]. split; [exact Hrun2|].
  split.
  - intros h. rewrite Hhw2, Hhw1. cbn [with_duty pwm period duty].
    destruct (Nat.eqb h (pwm e)); reflexivity.
  - intros d0. destruct (Hx d0) as (Hc0 & Ht0).
    destruct (sim_element_state args by_name by_ref cdev (with_duty e d0) ce w
                Hc0 Hm) as (w0 & Hrun0 & Hhw0).
    rewrite Ht0 in Hrun0, Hhw0.
    exists w0. split; [exact Hrun0|].
    intros h. rewrite Hhw0, Hhw1. reflexivity.
Qed.

Lemma element_set_idempotent_witness :
  exists e1 w1 w2,
    led_pwm_set_element (P := plain_provider) (mono_cdev 128)
                        (mono_elem 0 1000) boot = Ok e1 w1 /\
    led_pwm_set_element (P := plain_provider) (mono_cdev 128) e1 w1
      = Ok e1 w2 /\
    (forall h, hw w2 h = hw w1 h) /\
    (forall d0, exists w1',
        led_pwm_set_element (P := plain_provider) (mono_cdev 128)
                            (with_duty (mono_elem 0 1000) d0) boot
          = Ok e1 w1' /\
        forall h, hw w1' h = hw w1 h).
Proof.
  apply (element_set_idempotent (fun _ => 1000) (fun _ => ERR_PTR (- EINVAL))
           (fun _ => ERR_PTR (- EINVAL)) (mono_cdev 128) (mono_elem 0 1000)
           {| ce_name := Some "single"%string; value := 255; raw_value := 128;
              max_value := 255 |} boot);
    [reflexivity | discriminate].
Defined.

(** ** A color index beyond the color elements *)

Section IndexRange.
Context {HW : Type} {P : pwm_provider HW} {L : led_core}.

Lemma set_element_out_of_bounds cdev e (w : world HW) :
  0 <= element_index e ->
  (length (color_elements cdev) <= Z.to_nat (element_index e))%nat ->
  led_pwm_set_element cdev e w = Fault OutOfBounds.
Proof.
  intros Hidx Hlen. unfold led_pwm_set_element, array_read, bind.
  destruct (Z.ltb_spec (element_index e) 0); [lia|].
  rewrite (proj2 (lookup_ge_None _ _) Hlen). reflexivity.
Qed.

Lemma set_loop_fault cdev es1 e es2 f :
  Forall (settable cdev) es1 ->
  (forall w : world HW, led_pwm_set_element cdev e w = Fault f) ->
  forall w : world HW,
    led_pwm_set_loop cdev (es1 ++ e :: es2) w = Fault f.
Proof.
  induction 1 as [|e1 es1 He1 _ IH]; intros He w.
  - cbn [app led_pwm_set_loop]. apply bind_fault. apply He.
  - cbn [app led_pwm_set_loop].
    destruct He1 as [Hneg | (ce & Hc & Hm)].
    + erewrite bind_ok by (apply set_element_skip; exact Hneg).
      rewrite bind_fault with (f := f); [reflexivity|]. apply IH. exact He.
    + destruct (set_element_run cdev e1 ce w Hc Hm) as (w1 & Hrun1 & _).
      erewrite bind_ok by exact Hrun1.
      rewrite bind_fault with (f := f); [reflexivity|]. apply IH. exact He.
Qed.

(** Only a negative color index is passed over (lines 75-78): an index at or
    beyond the number of color elements is used to read outside the array,
    which is undefined; the elements before it have been applied, none
    after it is. *)
Theorem set_index_out_of_range led_dat b (w : world HW) es1 e es2 :
  elements led_dat = es1 ++ e :: es2 ->
  Forall (settable (led_scale_color_elements (cdev led_dat) b)) es1 ->
  Z.of_nat (length (color_elements
                      (led_scale_color_elements (cdev led_dat) b)))
    <= element_index e ->
  led_pwm_set led_dat b w = Fault OutOfBounds.
Proof.
  intros Hel Hset Hidx. unfold led_pwm_set.
  erewrite bind_ok by apply scale_run. rewrite Hel.
  apply bind_fault. apply set_loop_fault; [exact Hset|].
  intros w0. apply set_element_out_of_bounds; lia.
Qed.

End IndexRange.

Lemma set_index_out_of_range_witness :
  led_pwm_set (P := plain_provider) (L := sim_core) (rgb_dat 3 255) 255 boot
    = Fault OutOfBounds.
Proof.
  apply (set_index_out_of_range (P := plain_provider) (L := sim_core)
           (rgb_dat 3 255) 255 boot
           [ {| element_index := 0; pwm := 1%nat; active_low := 0;
                period := 1000; duty := 0 |} ]
           {| element_index := 3; pwm := 2%nat; active_low := 0;
              period := 1000; duty := 7 |}
           [ {| element_index := 2; pwm := 3%nat; active_low := 1;
                period := 1000; duty := 0 |} ]).
  - reflexivity.
  - constructor; [|constructor].
    right. eexists. split; [reflexivity | discriminate].
  - cbn. lia.
Defined.

(** ** Cleanup and removal *)

Lemma in_unregistered (l r : list nat) i :
  In i (fold_left (fun r i => List.remove Nat.eq_dec i r) l r) <->
  In i r /\ ~ In i l.
Proof.
  revert r. induction l as [|x l IH]; intros r; cbn [fold_left In].
  - tauto.
  - rewrite IH. split.
    + intros [Hin Hnot]. apply List.in_remove in Hin as [Hin Hne].
      split; [exact Hin|]. intros [Heq | Hl]; [congruence | contradiction].
    + intros [Hin Hnot]. split.
      * apply List.in_in_remove; [|exact Hin]. intros ->. apply Hnot. now left.
      * intros Hl. apply Hnot. now right.
Qed.

(** The cleanup (lines 105-114) unregisters the slots of the LEDs, the last
    one first and each once, and does nothing else: no provider call, no
    release of a PWM device.  After it none of these slots is registered and
    every other registration is as before. *)
Theorem cleanup_unregisters {HW} {P : pwm_provider HW} {L : led_core}
    priv (w : world HW) :
  exists w',
    led_pwm_cleanup priv w = Ok tt w' /\
    log w' = log w ++ map EvUnregister (rev (seq 0 (num_leds priv))) /\
    hw w' = hw w /\
    devres w' = devres w /\
    forall i, In i (registered w') <->
              In i (registered w) /\ (num_leds priv <= i)%nat.
Proof.
  unfold led_pwm_cleanup. rewrite cleanup_from_run.
  eexists. split; [reflexivity|]. cbn [log hw devres registered].
  split; [reflexivity|]. split; [reflexivity|]. split; [reflexivity|].
  intros i. rewrite in_unregistered, <- in_rev, in_seq.
  split; intros [Hin Hslot]; (split; [exact Hin | lia]).
Qed.

(** ** What the probe leaves, in every case *)

Section ProbeOutcome.
Context {HW : Type} {P : pwm_provider HW} {L : led_core}.

(** An LED is added and registered, or the private data and the registry
    are as before. *)
Lemma add_single_result priv led child (w : world HW) r priv' w' :
  led_pwm_add_single priv led child w = Ok (r, priv') w' ->
  (r = 0 /\ num_leds priv' = S (num_leds priv) /\
   registered w' = registered w ++ [num_leds priv]) \/
  (r <> 0 /\ priv' = priv /\ registered w' = registered w).
Proof.
  intros Hrun. destruct (Z.eq_dec r 0) as [->|Hnz].
  - left. apply add_single_ok in Hrun
      as (h & d & e & _ & Hleds & _ & _ & _ & _ & Hreg & _).
    split; [reflexivity|]. split; [|exact Hreg].
    unfold num_leds. rewrite Hleds, length_app. cbn. lia.
  - right. split; [exact Hnz|].
    unfold led_pwm_add_single in Hrun.
    apply bind_inv in Hrun as (p & w1 & Hacq & Hrun).
    rewrite add_single_acquire in Hacq. unfold hold_pwm in Hacq.
    injection Hacq as <- <-.
    destruct (single_pwm led child) as [h|errno].
    + apply bind_inv in Hrun as ([] & w2 & Happly & Hrun).
      unfold call_pwm_apply_args in Happly. injection Happly as <-.
      apply bind_inv in Hrun as ([r0 cdev2] & w3 & Hreg & Hrun).
      unfold call_led_classdev_register in Hreg.
      destruct (led_classdev_register _) as [r' c'] eqn:Ereg.
      injection Hreg as -> -> <-.
      destruct (Z.eqb_spec r0 0) as [->|Hr0].
      * apply bind_inv in Hrun as (ce & w4 & _ & Hrun).
        apply bind_inv in Hrun as (set & w5 & _ & Hrun).
        unfold ret in Hrun. injection Hrun as <- _ _. contradiction.
      * apply bind_inv in Hrun as ([] & w4 & Herr & Hrun).
        unfold dev_err, emit in Herr. injection Herr as <-.
        unfold ret in Hrun. injection Hrun as _ <- <-.
        split; reflexivity.
    + apply bind_inv in Hrun as ([] & w2 & Herr & Hrun).
      unfold ret in Hrun. injection Hrun as _ <- <-.
      split; [reflexivity|].
      destruct (PTR_ERR errno =? - EPROBE_DEFER).
      * unfold ret in Herr. injection Herr as <-. reflexivity.
      * unfold dev_err, emit in Herr. injection Herr as <-. reflexivity.
Qed.

Lemma multi_child_frame led c st (w : world HW) res w' :
  led_pwm_add_multi_child led c st w = Ok res w' ->
  registered w' = registered w.
Proof.
  unfold led_pwm_add_multi_child.
  destruct (is_element_node c); [|unfold ret; intros [= _ <-]; reflexivity].
  destruct (led_color_element_setup_of _ _ _) as [r cdev1].
  destruct (r =? 0); cbn [negb];
    [|unfold ret; intros [= _ <-]; reflexivity].
  destruct (ms_elements st !! ms_elem_index st) as [slot|]; [|discriminate].
  intros Hrun.
  apply bind_inv in Hrun as (p & w1 & Hacq & Hrun).
  unfold call_devm_of_pwm_get, hold_pwm in Hacq. injection Hacq as <- <-.
  destruct (devm_of_pwm_get (en_pwms c)) as [h|errno].
  - apply bind_inv in Hrun as ([] & w2 & Happly & Hrun).
    unfold call_pwm_apply_args in Happly. injection Happly as <-.
    unfold ret in Hrun. injection Hrun as _ <-. reflexivity.
  - apply bind_inv in Hrun as ([] & w2 & Herr & Hrun).
    unfold ret in Hrun. injection Hrun as _ <-.
    destruct (PTR_ERR errno =? - EPROBE_DEFER).
    + unfold ret in Herr. injection Herr as <-. reflexivity.
    + unfold dev_err, emit in Herr. injection Herr as <-. reflexivity.
Qed.

Lemma multi_loop_frame led children :
  forall st (w : world HW) res w',
    led_pwm_add_multi_loop led children st w = Ok res w' ->
    registered w' = registered w.
Proof.
  induction children as [|c children IH]; intros st w res w' Hrun.
  - cbn in Hrun. unfold ret in Hrun. injection Hrun as _ <-. reflexivity.
  - cbn [led_pwm_add_multi_loop] in Hrun.
    apply bind_inv in Hrun as (res1 & w1 & Hstep & Hrun).
    apply multi_child_frame in Hstep.
    destruct res1 as [r|st1].
    + unfold ret in Hrun. injection Hrun as _ <-. exact Hstep.
    + apply IH in Hrun. congruence.
Qed.

Lemma add_multi_result priv led child n (w : world HW) r priv' w' :
  led_pwm_add_multi priv led child n w = Ok (r, priv') w' ->
  (r = 0 /\ num_leds priv' = S (num_leds priv) /\
   registered w' = registered w ++ [num_leds priv]) \/
  (r <> 0 /\ priv' = priv /\ registered w' = registered w).
Proof.
  intros Hrun. destruct (Z.eq_dec r 0) as [->|Hnz].
  - left. apply add_multi_ok in Hrun
      as (d & done' & Hleds & _ & _ & _ & Hreg & _).
    split; [reflexivity|]. split; [|exact Hreg].
    unfold num_leds. rewrite Hleds, length_app. cbn. lia.
  - right. split; [exact Hnz|].
    unfold led_pwm_add_multi in Hrun.
    apply bind_inv in Hrun as (res & w1 & Hloop & Hrun).
    apply multi_loop_frame in Hloop.
    destruct res as [r0|st].
    + unfold ret in Hrun. injection Hrun as _ <- <-.
      split; [reflexivity | exact Hloop].
    + apply bind_inv in Hrun as ([r0 cdev2] & w3 & Hreg & Hrun).
      unfold call_led_classdev_register in Hreg.
      destruct (led_classdev_register _) as [r' c'] eqn:Ereg.
      injection Hreg as -> -> <-.
      destruct (Z.eqb_spec r0 0) as [->|Hr0].
      * apply bind_inv in Hrun as (set & w5 & _ & Hrun).
        unfold ret in Hrun. injection Hrun as <- _ _. contradiction.
      * apply bind_inv in Hrun as ([] & w4 & Herr & Hrun).
        unfold dev_err, emit in Herr. injection Herr as <-.
        unfold ret in Hrun. injection Hrun as _ <- <-.
        split; [reflexivity | exact Hloop].
Qed.

Lemma create_of_child_result priv led child (w : world HW) r priv' w' :
  led_pwm_create_of_child priv led child w = Ok (r, priv') w' ->
  (r = 0 /\ num_leds priv' = S (num_leds priv) /\
   registered w' = registered w ++ [num_leds priv]) \/
  (r <> 0 /\ priv' = priv /\ registered w' = registered w).
Proof.
  unfold led_pwm_create_of_child.
  destruct (negb (Nat.eqb (num_color_elements_of child) 0)).
  - apply add_multi_result.
  - apply add_single_result.
Qed.

(** The registry follows the private data through the loops, whether they
    run to the end or are left early. *)
Lemma probe_loop_result l :
  forall priv (w : world HW) r priv' w',
    led_pwm_probe_loop l priv w = Ok (r, priv') w' ->
    exists k,
      (k <= length l)%nat /\
      num_leds priv' = (num_leds priv + k)%nat /\
      registered w' = registered w ++ seq (num_leds priv) k /\
      (r = 0 -> k = length l).
Proof.
  induction l as [|led l IH]; intros priv w r priv' w' Hrun.
  - cbn in Hrun. unfold ret in Hrun. injection Hrun as <- <- <-.
    exists O. cbn. rewrite Nat.add_0_r, app_nil_r. repeat split; lia.
  - cbn [led_pwm_probe_loop] in Hrun.
    apply bind_inv in Hrun as ([r1 priv1] & w1 & Hadd & Hrun).
    cbn [fst snd] in Hrun.
    apply add_single_result in Hadd
      as [(-> & Hn & Hreg) | (Hnz & -> & Hreg)].
    + cbn [Z.eqb negb] in Hrun.
      apply IH in Hrun as (k & Hk & Hnum & Hreg' & Hall).
      exists (S k). cbn [length seq].
      split; [lia|]. split; [lia|].
      split; [rewrite Hreg', Hreg, Hn, <- app_assoc; reflexivity|].
      intros Hr. rewrite (Hall Hr). reflexivity.
    + destruct (Z.eqb_spec r1 0) as [Hz|_]; [contradiction|].
      cbn [negb] in Hrun. unfold ret in Hrun. injection Hrun as <- <- <-.
      exists O. cbn. rewrite Nat.add_0_r, app_nil_r.
      repeat split; try lia; try assumption.
Qed.

Lemma create_of_loop_result children :
  forall led priv (w : world HW) r priv' w',
    led_pwm_create_of_loop children led priv w = Ok (r, priv') w' ->
    exists k,
      (k <= length children)%nat /\
      num_leds priv' = (num_leds priv + k)%nat /\
      registered w' = registered w ++ seq (num_leds priv) k /\
      (r = 0 -> k = length children).
Proof.
  induction children as [|child children IH];
    intros led priv w r priv' w' Hrun.
  - cbn in Hrun. unfold ret in Hrun. injection Hrun as <- <- <-.
    exists O. cbn. rewrite Nat.add_0_r, app_nil_r. repeat split; lia.
  - cbn [led_pwm_create_of_loop] in Hrun.
    apply bind_inv in Hrun as ([r1 priv1] & w1 & Hadd & Hrun).
    cbn [fst snd] in Hrun.
    apply create_of_child_result in Hadd
      as [(-> & Hn & Hreg) | (Hnz & -> & Hreg)].
    + cbn [Z.eqb negb] in Hrun.
      apply IH in Hrun as (k & Hk & Hnum & Hreg' & Hall).
      exists (S k). cbn [length seq].
      split; [lia|]. split; [lia|].
      split; [rewrite Hreg', Hreg, Hn, <- app_assoc; reflexivity|].
      intros Hr. rewrite (Hall Hr). reflexivity.
    + destruct (Z.eqb_spec r1 0) as [Hz|_]; [contradiction|].
      cbn [negb] in Hrun. unfold ret in Hrun. injection Hrun as <- <- <-.
      exists O. cbn. rewrite Nat.add_0_r, app_nil_r.
      repeat split; try lia; try assumption.
Qed.

(** The ways the probe returns. *)
Lemma probe_cases pdev (w : world HW) r d w' :
  led_pwm_probe pdev w = Ok (r, d) w' ->
  (r <> 0 /\ d = None /\ w' = w) \/
  exists r0 priv0 w0 k,
    (k <= led_count pdev)%nat /\
    num_leds priv0 = k /\
    registered w0 = registered w ++ seq 0 k /\
    (r0 = 0 -> k = led_count pdev) /\
    ((r0 = 0 /\ r = 0 /\ d = Some priv0 /\ w' = w0) \/
     (r0 <> 0 /\ r = r0 /\ d = None /\
      led_pwm_cleanup priv0 w0 = Ok tt w')).
Proof.
  unfold led_pwm_probe, led_count.
  destruct (Nat.eqb _ 0).
  { unfold ret. intros [= <- <- <-]. left. repeat split. discriminate. }
  destruct (devm_kzalloc_priv _); cbn [negb].
  2:{ unfold ret. intros [= <- <- <-]. left. repeat split. discriminate. }
  intros Hrun. right.
  apply bind_inv in Hrun as ([r0 priv0] & w0 & Hinner & Hrun).
  cbn [fst snd] in Hrun.
  assert (Hres : exists k,
             (k <= match pdata pdev with
                   | Some l => length l
                   | None => length (of_children pdev)
                   end)%nat /\
             num_leds priv0 = k /\
             registered w0 = registered w ++ seq 0 k /\
             (r0 = 0 -> k = match pdata pdev with
                            | Some l => length l
                            | None => length (of_children pdev)
                            end)).
  { destruct (pdata pdev) as [l|].
    - apply probe_loop_result in Hinner as (k & Hk & Hnum & Hreg & Hall).
      exists k. cbn in Hnum, Hreg. repeat split; assumption.
    - apply create_of_loop_result in Hinner as (k & Hk & Hnum & Hreg & Hall).
      exists k. cbn in Hnum, Hreg. repeat split; assumption. }
  destruct Hres as (k & Hk & Hnum & Hreg & Hall).
  exists r0, priv0, w0, k. repeat (split; [assumption|]).
  destruct (Z.eqb_spec r0 0) as [->|Hnz]; cbn [negb] in Hrun.
  - left. unfold ret in Hrun. injection Hrun as <- <- <-. repeat split.
  - right. apply bind_inv in Hrun as ([] & w1 & Hclean & Hrun).
    unfold ret in Hrun. injection Hrun as <- <- <-.
    repeat split; assumption.
Qed.

End ProbeOutcome.

(** The probe is all or nothing (lines 325-364): started with an empty
    registry, whenever it returns, either it returns 0, the driver data
    holds one LED for every LED described and exactly their slots are
    registered, or it returns an error code, sets no driver data and leaves
    no LED registered, whatever made it fail. *)
Theorem probe_all_or_nothing {HW} {P : pwm_provider HW} {L : led_core}
    pdev (w : world HW) r d w' :
  registered w = [] ->
  led_pwm_probe pdev w = Ok (r, d) w' ->
  (r = 0 /\
   exists priv, d = Some priv /\ num_leds priv = led_count pdev /\
                registered w' = seq 0 (led_count pdev)) \/
  (r <> 0 /\ d = None /\ registered w' = []).
Proof.
  intros Hempty Hrun.
  apply probe_cases in Hrun
    as [(Hr & -> & ->) | (r0 & priv0 & w0 & k & Hk & Hnum & Hreg & Hall & Hend)].
  - right. repeat split; assumption.
  - rewrite Hempty in Hreg. cbn [app] in Hreg.
    destruct Hend as [(-> & -> & -> & ->) | (Hnz & -> & -> & Hclean)].
    + left. split; [reflexivity|]. exists priv0.
      rewrite <- (Hall eq_refl). repeat split; assumption.
    + right. split; [exact Hnz|]. split; [reflexivity|].
      unfold led_pwm_cleanup in Hclean. rewrite cleanup_from_run in Hclean.
      injection Hclean as <-. cbn [registered].
      rewrite Hnum, Hreg. apply unregister_all.
Qed.

Lemma probe_all_or_nothing_witness :
  exists r d w',
    led_pwm_probe (P := board) (L := sim_core)
      {| pdata := None; of_children := board_tree_multi |} boot
      = Ok (r, d) w' /\
    ((r = 0 /\
      exists priv, d = Some priv /\ num_leds priv = 3%nat /\
                   registered w' = seq 0 3) \/
     (r <> 0 /\ d = None /\ registered w' = [])).
Proof.
  assert (Hrun : exists r d w',
             led_pwm_probe (P := board) (L := sim_core)
               {| pdata := None; of_children := board_tree_multi |} boot
               = Ok (r, d) w')
    by (eexists _, _, _; vm_compute; reflexivity).
  destruct Hrun as (r & d & w' & Hrun).
  exists r, d, w'. split; [exact Hrun|].
  apply (probe_all_or_nothing (P := board) (L := sim_core)
           {| pdata := None; of_children := board_tree_multi |} boot r d w');
    [reflexivity | exact Hrun].
Defined.

(** Probe and remove (lines 325-373): after a probe that returned 0, started
    with an empty registry, the removal unregisters every LED of the driver
    data, the last one first, returns 0 and leaves the registry empty; it
    makes no provider call and releases no PWM device. *)
Theorem probe_remove_round_trip {HW} {P : pwm_provider HW} {L : led_core}
    pdev (w : world HW) priv w1 :
  registered w = [] ->
  led_pwm_probe pdev w = Ok (0, Some priv) w1 ->
  exists w2,
    led_pwm_remove priv w1 = Ok 0 w2 /\
    registered w1 = seq 0 (led_count pdev) /\
    registered w2 = [] /\
    log w2 = log w1 ++ map EvUnregister (rev (seq 0 (led_count pdev))) /\
    hw w2 = hw w1 /\
    devres w2 = devres w1.
Proof.
  intros Hempty Hrun.
  apply probe_cases in Hrun
    as [(Hr & _) | (r0 & priv0 & w0 & k & Hk & Hnum & Hreg & Hall & Hend)];
    [contradiction|].
  rewrite Hempty in Hreg. cbn [app] in Hreg.
  destruct Hend as [(-> & _ & [= <-] & ->) | (_ & _ & [=] & _)].
  specialize (Hall eq_refl). subst k.
  unfold led_pwm_remove, led_pwm_cleanup.
  erewrite bind_ok by apply cleanup_from_run.
  eexists. split; [reflexivity|]. cbn [log hw registered devres].
  rewrite Hall in *. split; [exact Hreg|].
  split; [rewrite Hreg; apply unregister_all|].
  repeat split; reflexivity.
Qed.

Lemma probe_remove_round_trip_witness :
  exists priv w1 w2,
    led_pwm_probe (P := board) (L := sim_core)
      {| pdata := Some [ board_led "led0"; board_led "led2" ];
         of_children := [] |} boot = Ok (0, Some priv) w1 /\
    led_pwm_remove priv w1 = Ok 0 w2 /\
    registered w1 = seq 0 2 /\
    registered w2 = [] /\
    log w2 = log w1 ++ map EvUnregister (rev (seq 0 2)) /\
    hw w2 = hw w1 /\
    devres w2 = devres w1.
Proof.
  assert (Hrun : exists priv w1,
             led_pwm_probe (P := board) (L := sim_core)
               {| pdata := Some [ board_led "led0"; board_led "led2" ];
                  of_children := [] |} boot = Ok (0, Some priv) w1)
    by (eexists _, _; vm_compute; reflexivity).
  destruct Hrun as (priv & w1 & Hrun).
  destruct (probe_remove_round_trip (P := board) (L := sim_core)
              {| pdata := Some [ board_led "led0"; board_led "led2" ];
                 of_children := [] |} boot priv w1 eq_refl Hrun)
    as (w2 & Hrem).
  exists priv, w1, w2. split; [exact Hrun | exact Hrem].
Defined.

(** The probe without LEDs or without memory (lines 332-343): with no LED
    described it returns [-EINVAL], and when the private data cannot be
    allocated [-ENOMEM], in both cases before anything is acquired,
    registered or logged; and a platform data, when there is one, decides
    alone: the tree is not looked at. *)
Theorem probe_early_exit {HW} {P : pwm_provider HW} {L : led_core}
    pdev (w : world HW) :
  (led_count pdev = O -> led_pwm_probe pdev w = Ok (- EINVAL, None) w) /\
  (led_count pdev <> O -> devm_kzalloc_priv (led_count pdev) = false ->
   led_pwm_probe pdev w = Ok (- ENOMEM, None) w) /\
  (forall l ch,
      pdata pdev = Some l ->
      led_pwm_probe pdev w =
        led_pwm_probe {| pdata := Some l; of_children := ch |} w).
Proof.
  unfold led_pwm_probe, led_count. split; [|split].
  - intros ->. reflexivity.
  - intros Hcount Halloc.
    destruct (Nat.eqb_spec
                match pdata pdev with
                | Some l => length l
                | None => length (of_children pdev)
                end 0) as [Hz|_]; [contradiction|].
    rewrite Halloc. reflexivity.
  - intros l ch Hp. cbn [pdata]. rewrite Hp. reflexivity.
Qed.

Lemma probe_early_exit_witness :
  led_pwm_probe (P := board) (L := sim_core)
    {| pdata := Some []; of_children := board_tree_single |} boot
    = Ok (- EINVAL, None) boot /\
  led_pwm_probe (P := board) (L := tight_core)
    {| pdata := Some board_pdata; of_children := [] |} boot
    = Ok (- ENOMEM, None) boot.
Proof.
  split.
  - apply (proj1 (probe_early_exit (P := board) (L := sim_core)
                    {| pdata := Some []; of_children := board_tree_single |}
                    boot)).
    reflexivity.
  - apply (proj1 (proj2 (probe_early_exit (P := board) (L := tight_core)
                           {| pdata := Some board_pdata; of_children := [] |}
                           boot))).
    + discriminate.
    + reflexivity.
Defined.

(** ** An LED that cannot be added *)

(** The failures of [led_pwm_add_single] (lines 150-160 and 176-191).  When
    the PWM device cannot be acquired, the error code of the pointer is
    returned and logged with [dev_err], unless it is [-EPROBE_DEFER], which
    is not logged; nothing else happens.  When the registration fails, its
    code is returned and logged; the LED is not added, and its channel,
    acquired and given its arguments, is never configured, enabled or
    disabled, and stays among the managed resources. *)
Theorem add_single_failures {HW} {P : pwm_provider HW} {L : led_core}
    priv led child (w : world HW) :
  (forall errno,
      single_pwm led child = PwmErr errno ->
      led_pwm_add_single priv led child w =
        Ok (PTR_ERR errno, priv)
           {| hw := hw w;
              log := (log w ++ [EvPwmGet (PwmErr errno)]) ++
                     (if PTR_ERR errno =? - EPROBE_DEFER then []
                      else [EvDevErr (lp_name led) (PTR_ERR errno)]);
              registered := registered w;
              devres := devres w |}) /\
  (forall h r c,
      single_pwm led child = PwmDev h ->
      led_classdev_register (single_cdev led) = (r, c) ->
      r <> 0 ->
      led_pwm_add_single priv led child w =
        Ok (r, priv)
           {| hw := pwm_apply_args h (hw w);
              log := log w ++ [ EvPwmGet (PwmDev h); EvPwmApplyArgs h;
                                EvRegister (num_leds priv) r;
                                EvDevErr (lp_name led) r ];
              registered := registered w;
              devres := devres w ++ [h] |}).
Proof.
  split.
  - intros errno Hp. unfold led_pwm_add_single.
    erewrite bind_ok; [|rewrite add_single_acquire, Hp; reflexivity].
    unfold PTR_ERR, EPROBE_DEFER. cbn [Z.eqb].
    match goal with
    | |- context [if ?b then ret tt else _] => destruct b
    end.
    + rewrite app_nil_r. reflexivity.
    + reflexivity.
  - intros h r c Hp Hreg Hr. unfold led_pwm_add_single.
    erewrite bind_ok; [|rewrite add_single_acquire, Hp; reflexivity].
    cbv beta iota zeta.
    erewrite bind_ok by reflexivity.
    erewrite bind_ok.
    2:{ unfold call_led_classdev_register.
        change (set_brightness_set_blocking _) with (single_cdev led).
        rewrite Hreg. reflexivity. }
    cbv beta iota zeta.
    destruct (Z.eqb_spec r 0) as [Hz|_]; [contradiction|].
    cbn [log hw registered devres].
    erewrite bind_ok by reflexivity. unfold ret.
    cbn [log hw registered devres]. rewrite <- !app_assoc. reflexivity.
Qed.

Lemma add_single_failures_witness :
  led_pwm_add_single (P := board) (L := sim_core) {| leds := [] |}
                     (board_led "other") None boot =
    Ok (- EINVAL, {| leds := [] |})
       {| hw := hw boot;
          log := [ EvPwmGet (ERR_PTR (- EINVAL)); EvDevErr "other" (- EINVAL) ];
          registered := []; devres := [] |}.
Proof.
  apply (proj1 (add_single_failures (P := board) (L := sim_core)
                  {| leds := [] |} (board_led "other") None boot) 22%positive).
  reflexivity.
Defined.

(** ** The first drive of an LED *)

Section FirstDrive.
Context {HW : Type} {P : pwm_provider HW} {L : led_core}.

Lemma set_inv_log led_dat b (w : world HW) r w' :
  led_pwm_set led_dat b w = Ok r w' ->
  r = (0, {| cdev := led_scale_color_elements (cdev led_dat) b;
             elements :=
               map (element_target (led_scale_color_elements (cdev led_dat) b))
                   (elements led_dat) |}) /\
  exists l',
    log w' = log w ++ EvScale b :: l' /\
    map erase_ret l' =
      flat_map element_calls (List.filter has_color (elements (snd r))).
Proof.
  intros Hrun.
  assert (Hset : Forall (settable (led_scale_color_elements (cdev led_dat) b))
                        (elements led_dat)).
  { unfold led_pwm_set in Hrun.
    apply bind_inv in Hrun as (c & w1 & Hscale & Hrun).
    rewrite scale_run in Hscale. injection Hscale as <- <-.
    apply bind_inv in Hrun as (elems & w2 & Hloop & _).
    eapply set_loop_settable. exact Hloop. }
  destruct (set_run led_dat b w Hset)
    as (w'' & l' & Hrun' & Hlog & Hcalls & _).
  rewrite Hrun' in Hrun. injection Hrun as <- <-.
  split; [reflexivity|]. exists l'. split; [exact Hlog | exact Hcalls].
Qed.

(** The order of a successful [led_pwm_add_single] (lines 150-185): the
    channel is acquired, given its arguments, the class device is
    registered, and only then is the LED driven, once, at the brightness of
    the registered class device; before that drive the color element takes
    the [max_brightness] the class device has after the registration as its
    value and its range. *)
Theorem single_first_drive priv led child (w : world HW) priv' w' :
  led_pwm_add_single priv led child w = Ok (0, priv') w' ->
  exists h cdev2 ce d l',
    single_pwm led child = PwmDev h /\
    led_classdev_register (single_cdev led) = (0, cdev2) /\
    color_elements cdev2 !! O = Some ce /\
    leds priv' = leds priv ++ [d] /\
    cdev d =
      led_scale_color_elements
        (set_color_elements cdev2
           (<[O := set_value_max ce (max_brightness cdev2)
                                 (max_brightness cdev2)]>
              (color_elements cdev2)))
        (brightness cdev2) /\
    log w' = log w ++ [ EvPwmGet (PwmDev h); EvPwmApplyArgs h;
                        EvRegister (num_leds priv) 0;
                        EvScale (brightness cdev2) ] ++ l' /\
    map erase_ret l' =
      flat_map element_calls (List.filter has_color (elements d)).
Proof.
  unfold led_pwm_add_single. intros Hrun.
  apply bind_inv in Hrun as (p & w1 & Hacq & Hrun).
  rewrite add_single_acquire in Hacq. unfold hold_pwm in Hacq.
  injection Hacq as <- <-.
  destruct (single_pwm led child) as [h|errno] eqn:Hp.
  - apply bind_inv in Hrun as ([] & w2 & Happly & Hrun).
    unfold call_pwm_apply_args in Happly. injection Happly as <-.
    apply bind_inv in Hrun as ([r cdev2] & w3 & Hreg & Hrun).
    unfold call_led_classdev_register in Hreg.
    change (set_brightness_set_blocking _) with (single_cdev led) in Hreg.
    destruct (led_classdev_register (single_cdev led)) as [r' c'] eqn:Ereg.
    injection Hreg as -> -> <-.
    destruct (Z.eqb_spec r 0) as [->|Hnz].
    + apply bind_inv in Hrun as (ce & w4 & Hread & Hrun).
      apply array_read_inv in Hread as (-> & _ & Hce).
      apply bind_inv in Hrun as (set & w5 & Hset & Hrun).
      apply set_inv_log in Hset as (-> & l' & Hlog & Hcalls).
      unfold ret in Hrun. injection Hrun as <- <-.
      cbn [log hw registered devres snd elements cdev] in *.
      eexists h, cdev2, ce, _, l'.
      split; [reflexivity|]. split; [reflexivity|].
      split; [exact Hce|]. split; [reflexivity|].
      split; [reflexivity|].
      split; [rewrite Hlog, <- !app_assoc; reflexivity|].
      exact Hcalls.
    + apply bind_inv in Hrun as ([] & w4 & _ & Hrun).
      unfold ret in Hrun. injection Hrun as -> _ _. contradiction.
  - apply bind_inv in Hrun as ([] & w2 & _ & Hrun).
    unfold ret in Hrun. injection Hrun as Hz _ _. discriminate.
Qed.

End FirstDrive.

Lemma single_first_drive_witness :
  exists priv' w',
    led_pwm_add_single (P := board) (L := sim_core) {| leds := [] |}
                       (board_led "led0") None boot = Ok (0, priv') w' /\
    exists h cdev2 ce d l',
      single_pwm (P := board) (board_led "led0") None = PwmDev h /\
      led_classdev_register (led_core := sim_core)
        (single_cdev (board_led "led0")) = (0, cdev2) /\
      color_elements cdev2 !! O = Some ce /\
      leds priv' = [] ++ [d] /\
      cdev d =
        sim_scale
          (set_color_elements cdev2
             (<[O := set_value_max ce (max_brightness cdev2)
                                   (max_brightness cdev2)]>
                (color_elements cdev2)))
          (brightness cdev2) /\
      log w' = log boot ++ [ EvPwmGet (PwmDev h); EvPwmApplyArgs h;
                             EvRegister O 0;
                             EvScale (brightness cdev2) ] ++ l' /\
      map erase_ret l' =
        flat_map element_calls (List.filter has_color (elements d)).
Proof.
  assert (Hrun : exists priv' w',
             led_pwm_add_single (P := board) (L := sim_core) {| leds := [] |}
                                (board_led "led0") None boot
               = Ok (0, priv') w')
    by (eexists _, _; vm_compute; reflexivity).
  destruct Hrun as (priv' & w' & Hrun).
  exists priv', w'. split; [exact Hrun|].
  apply (single_first_drive (P := board) (L := sim_core) {| leds := [] |}
           (board_led "led0") None boot priv' w' Hrun).
Defined.

(** ** The color indices of a multi-element LED *)

Section MultiIndices.
Context {HW : Type} {P : pwm_provider HW} {L : led_core}.

Lemma multi_child_index led c st (w : world HW) st' w' :
  is_element_node c = true ->
  led_pwm_add_multi_child led c st w = Ok (inr st') w' ->
  exists e slot,
    ms_elements st !! ms_elem_index st = Some slot /\
    element_index e = to_int (Z.of_nat (ms_elem_index st)) /\
    duty e = duty slot /\
    ms_elements st' = <[ms_elem_index st := e]> (ms_elements st) /\
    ms_elem_index st' = S (ms_elem_index st).
Proof.
  intros Hc. unfold led_pwm_add_multi_child. rewrite Hc.
  destruct (led_color_element_setup_of _ _ _) as [r cdev1].
  destruct (r =? 0); cbn [negb]; [|discriminate].
  destruct (ms_elements st !! ms_elem_index st) as [slot|]; [|discriminate].
  intros Hrun.
  apply bind_inv in Hrun as (p & w1 & _ & Hrun).
  destruct p as [h|errno].
  - apply bind_inv in Hrun as ([] & w2 & _ & Hrun).
    unfold ret in Hrun. injection Hrun as <- _.
    exists {| element_index := to_int (Z.of_nat (ms_elem_index st));
              pwm := h;
              active_low := bool_to_uint (en_active_low c);
              period := pwm_get_args h;
              duty := duty slot |}, slot.
    split; [reflexivity|].
    cbn [ms_elements ms_elem_index element_index duty].
    repeat split; reflexivity.
  - apply bind_inv in Hrun as ([] & w2 & _ & Hrun). discriminate.
Qed.

Lemma multi_loop_indices led children :
  forall st (w : world HW) st' w' done zeros,
    led_pwm_add_multi_loop led children st w = Ok (inr st') w' ->
    ms_elements st = done ++ zeros ->
    ms_elem_index st = length done ->
    exists done',
      ms_elements st' = done ++ done' ++ drop (length done') zeros /\
      length done' = length (List.filter is_element_node children) /\
      (length done' <= length zeros)%nat /\
      forall j e,
        done' !! j = Some e ->
        element_index e = to_int (Z.of_nat (length done + j)).
Proof.
  induction children as [|c children IH];
    intros st w st' w' done zeros Hrun Hel Hidx.
  - cbn in Hrun. unfold ret in Hrun. injection Hrun as <- <-.
    exists []. cbn. rewrite drop_0.
    repeat split; try assumption; try lia.
    intros j e Hj. rewrite lookup_nil in Hj. discriminate.
  - cbn [led_pwm_add_multi_loop] in Hrun.
    apply bind_inv in Hrun as (res & w2 & Hstep & Hrun).
    destruct res as [r|st2]; [discriminate|].
    cbn [List.filter].
    destruct (is_element_node c) eqn:Hc.
    + apply (multi_child_index led c st w st2 w2 Hc) in Hstep
        as (e & slot & Hslot & Hindex & _ & Hel2 & Hidx2).
      rewrite Hel, Hidx in Hslot.
      rewrite lookup_app_r in Hslot by lia. rewrite Nat.sub_diag in Hslot.
      destruct zeros as [|z zeros]; [discriminate|].
      assert (Hel2' : ms_elements st2 = (done ++ [e]) ++ zeros).
      { rewrite Hel2, Hel, Hidx.
        replace (length done) with (length done + 0)%nat at 1 by lia.
        rewrite insert_app_r. cbn. rewrite <- app_assoc. reflexivity. }
      assert (Hidx2' : ms_elem_index st2 = length (done ++ [e])).
      { rewrite Hidx2, Hidx, length_app. cbn. lia. }
      destruct (IH st2 w2 st' w' (done ++ [e]) zeros Hrun Hel2' Hidx2')
        as (done' & Hel' & Hlen & Hle & Hall).
      exists (e :: done'). cbn [length drop].
      split; [rewrite Hel', <- app_assoc; reflexivity|].
      split; [lia|]. split; [lia|].
      intros [|j] e' Hj; cbn in Hj.
      * injection Hj as <-. rewrite Hindex, Hidx, Nat.add_0_r. reflexivity.
      * rewrite (Hall j e' Hj), length_app. cbn [length].
        do 2 f_equal. lia.
    + rewrite multi_child_skip in Hstep by exact Hc.
      injection Hstep as <- <-.
      apply (IH st w st' w' done zeros Hrun Hel Hidx).
Qed.

(** The elements of a multi-element LED (lines 215-260): there is one for
    every "element-" node and none for another child, and the element at
    position [j] has the color index [j], so that the brightness set passes
    over none of them. *)
Theorem multi_element_indices priv led child (w : world HW) priv' w' :
  led_pwm_add_multi priv led child (num_color_elements_of child) w
    = Ok (0, priv') w' ->
  exists d,
    leds priv' = leds priv ++ [d] /\
    length (elements d) = num_color_elements_of child /\
    forall j e,
      elements d !! j = Some e ->
      element_index e = to_int (Z.of_nat j) /\
      (Z.of_nat j <= INT_MAX ->
       element_index e = Z.of_nat j /\ has_color e = true).
Proof.
  unfold led_pwm_add_multi. intros Hrun.
  apply bind_inv in Hrun as (res & w1 & Hloop & Hrun).
  destruct res as [r|st].
  - unfold ret in Hrun. injection Hrun as -> _ _.
    apply multi_loop_fail in Hloop. contradiction.
  - destruct (multi_loop_indices led (ln_children child) _ w st w1 []
                (replicate (num_color_elements_of child) zero_element)
                Hloop eq_refl eq_refl)
      as (done' & Hel & Hlen & _ & Hall).
    cbn [app length Nat.add] in Hel, Hall.
    fold (num_color_elements_of child) in Hlen.
    rewrite Hlen, drop_replicate, Nat.sub_diag in Hel.
    cbn [replicate] in Hel. rewrite app_nil_r in Hel.
    apply bind_inv in Hrun as ([r cdev2] & w2 & _ & Hrun).
    destruct (Z.eqb_spec r 0) as [->|Hnz].
    + apply bind_inv in Hrun as (set & w3 & Hset & Hrun).
      apply set_inv_log in Hset as (-> & _).
      unfold ret in Hrun. injection Hrun as <- _.
      eexists. split; [reflexivity|]. cbn [snd elements].
      rewrite Hel, length_map. split; [exact Hlen|].
      intros j e Hj. rewrite list_lookup_fmap in Hj.
      destruct (done' !! j) as [e0|] eqn:Hj0; [|discriminate].
      injection Hj as <-.
      destruct (element_target_fields
                  (led_scale_color_elements cdev2 (brightness cdev2)) e0)
        as (Hi & _).
      assert (Hindex : element_index
                         (element_target
                            (led_scale_color_elements cdev2 (brightness cdev2))
                            e0) = to_int (Z.of_nat j)).
      { rewrite Hi. apply Hall. exact Hj0. }
      split; [exact Hindex|]. intros Hsmall.
      assert (Hj' : to_int (Z.of_nat j) = Z.of_nat j).
      { apply to_int_small. unfold INT_MIN. lia. }
      split; [rewrite Hindex; exact Hj'|].
      apply has_color_true. rewrite Hindex, Hj'. lia.
    + apply bind_inv in Hrun as ([] & w3 & _ & Hrun).
      unfold ret in Hrun. injection Hrun as -> _ _. contradiction.
Qed.

End MultiIndices.

Lemma multi_element_indices_witness :
  exists priv' w',
    led_pwm_add_multi (P := board) (L := sim_core) {| leds := [] |}
                      (board_led "pair") board_pair 2 boot
      = Ok (0, priv') w' /\
    exists d,
      leds priv' = [] ++ [d] /\
      length (elements d) = 2%nat /\
      forall j e,
        elements d !! j = Some e ->
        element_index e = to_int (Z.of_nat j) /\
        (Z.of_nat j <= INT_MAX ->
         element_index e = Z.of_nat j /\ has_color e = true).
Proof.
  assert (Hrun : exists priv' w',
             led_pwm_add_multi (P := board) (L := sim_core) {| leds := [] |}
                               (board_led "pair") board_pair 2 boot
               = Ok (0, priv') w')
    by (eexists _, _; vm_compute; reflexivity).
  destruct Hrun as (priv' & w' & Hrun).
  exists priv', w'. split; [exact Hrun|].
  apply (multi_element_indices (P := board) (L := sim_core) {| leds := [] |}
           (board_led "pair") board_pair boot priv' w' Hrun).
Defined.

(** ** A color element that cannot be set up *)

(** When [led_color_element_setup_of] fails for an element node (lines
    225-229), [led_pwm_add_multi] returns its code as it is: the channel of
    that node is not requested, nothing is logged for the failure, the class
    device is not registered and the LED is not added; the channels of the
    nodes before it stay among the managed resources. *)
Theorem add_multi_setup_failure {HW} {P : pwm_provider HW} {L : led_core}
    priv led child c1 ec c2 (w : world HW) st1 w1 r cdev1 :
  ln_children child = c1 ++ ec :: c2 ->
  led_pwm_add_multi_loop led c1
    (led_pwm_add_multi_init led (num_color_elements_of child)) w
    = Ok (inr st1) w1 ->
  is_element_node ec = true ->
  led_color_element_setup_of (ms_cdev st1) (ms_elem_index st1) ec
    = (r, cdev1) ->
  r <> 0 ->
  led_pwm_add_multi priv led child (num_color_elements_of child) w
    = Ok (r, priv) w1 /\
  registered w1 = registered w /\
  exists l' done',
    log w1 = log w ++ l' /\ quiet l' /\
    devres w1 = devres w ++ map pwm done' /\
    Forall2 element_built (List.filter is_element_node c1) done'.
Proof.
  intros Hch Hloop Hec Hsetup Hr.
  destruct (multi_loop_ok led c1 _ w st1 w1 []
              (replicate (num_color_elements_of child) zero_element)
              Hloop eq_refl eq_refl)
    as (done' & _ & _ & _ & Hall & Hreg & Hres & l' & Hlog & Hq).
  split.
  - unfold led_pwm_add_multi. rewrite Hch.
    erewrite bind_ok.
    2:{ erewrite multi_loop_app by exact Hloop.
        cbn [led_pwm_add_multi_loop].
        erewrite bind_ok.
        2:{ unfold led_pwm_add_multi_child. rewrite Hec, Hsetup.
            destruct (Z.eqb_spec r 0) as [Hz|_]; [contradiction|].
            reflexivity. }
        reflexivity. }
    reflexivity.
  - split; [exact Hreg|]. exists l', done'. repeat split; assumption.
Qed.

Lemma add_multi_setup_failure_witness :
  exists w1,
    led_pwm_add_multi (P := board) (L := picky_core) {| leds := [] |}
                      (board_led "pair") board_pair
                      (num_color_elements_of board_pair) boot
      = Ok (- EINVAL, {| leds := [] |}) w1 /\
    registered w1 = registered boot /\
    exists l' done',
      log w1 = log boot ++ l' /\ quiet l' /\
      devres w1 = devres boot ++ map pwm done' /\
      Forall2 (element_built (P := board))
              (List.filter is_element_node [ board_elem "element-0" 1;
                                             board_elem "spare" 9 ]) done'.
Proof.
  eexists.
  eapply (add_multi_setup_failure (P := board) (L := picky_core)
            {| leds := [] |} (board_led "pair") board_pair
            [ board_elem "element-0" 1; board_elem "spare" 9 ]
            (board_elem "element-1" 2) [] boot).
  - reflexivity.
  - vm_compute. reflexivity.
  - reflexivity.
  - reflexivity.
  - discriminate.
Defined.

(** ** The LEDs of the driver data, in the order of their descriptions *)

Lemma next_led_period (led : led_pwm) nodes :
  lp_pwm_period_ns (fold_left next_led nodes led) = lp_pwm_period_ns led.
Proof.
  revert led. induction nodes as [|c nodes IH]; intros led; [reflexivity|].
  cbn [fold_left]. rewrite IH. unfold next_led.
  destruct (Nat.eqb _ 0); reflexivity.
Qed.

Lemma next_led_max_brightness (led : led_pwm) nodes :
  lp_max_brightness (fold_left next_led nodes led) =
    fold_left (fun acc c => match ln_max_brightness c with
                            | Some v => v
                            | None => acc
                            end) nodes (lp_max_brightness led).
Proof.
  revert led. induction nodes as [|c nodes IH]; intros led; [reflexivity|].
  cbn [fold_left]. rewrite IH. f_equal. unfold next_led.
  destruct (Nat.eqb _ 0); reflexivity.
Qed.

Section LedOrder.
Context {HW : Type} {P : pwm_provider HW} {L : led_core}.

Lemma probe_loop_split l1 x l2 :
  forall priv (w : world HW) priv' w',
    led_pwm_probe_loop (l1 ++ x :: l2) priv w = Ok (0, priv') w' ->
    exists priv1 w1 priv2 w2,
      led_pwm_probe_loop l1 priv w = Ok (0, priv1) w1 /\
      led_pwm_add_single priv1 x None w1 = Ok (0, priv2) w2 /\
      led_pwm_probe_loop l2 priv2 w2 = Ok (0, priv') w'.
Proof.
  induction l1 as [|led l1 IH]; intros priv w priv' w' Hrun.
  - cbn [app led_pwm_probe_loop] in Hrun.
    apply bind_inv in Hrun as ([r priv2] & w2 & Hadd & Hrun).
    cbn [fst snd] in Hrun.
    destruct (Z.eqb_spec r 0) as [->|Hnz]; cbn [negb] in Hrun.
    + exists priv, w, priv2, w2. repeat split; assumption.
    + unfold ret in Hrun. injection Hrun as -> _ _. contradiction.
  - cbn [app led_pwm_probe_loop] in Hrun.
    apply bind_inv in Hrun as ([r priv0] & w0 & Hadd & Hrun).
    cbn [fst snd] in Hrun.
    destruct (Z.eqb_spec r 0) as [->|Hnz]; cbn [negb] in Hrun.
    + apply IH in Hrun as (priv1 & w1 & priv2 & w2 & Hpre & Hx & Hsuf).
      exists priv1, w1, priv2, w2. split; [|split; assumption].
      cbn [led_pwm_probe_loop]. erewrite bind_ok by exact Hadd.
      exact Hpre.
    + unfold ret in Hrun. injection Hrun as -> _ _. contradiction.
Qed.

Lemma probe_loop_leds l :
  forall priv (w : world HW) priv' w',
    led_pwm_probe_loop l priv w = Ok (0, priv') w' ->
    exists ds, leds priv' = leds priv ++ ds /\ length ds = length l.
Proof.
  induction l as [|led l IH]; intros priv w priv' w' Hrun.
  - cbn in Hrun. unfold ret in Hrun. injection Hrun as <- _.
    exists []. rewrite app_nil_r. split; reflexivity.
  - cbn [led_pwm_probe_loop] in Hrun.
    apply bind_inv in Hrun as ([r priv0] & w0 & Hadd & Hrun).
    cbn [fst snd] in Hrun.
    destruct (Z.eqb_spec r 0) as [->|Hnz]; cbn [negb] in Hrun.
    + apply add_single_ok in Hadd as (h & d & e & _ & Hleds & _).
      apply IH in Hrun as (ds & Hds & Hlen).
      exists (d :: ds). rewrite Hds, Hleds, <- app_assoc.
      split; [reflexivity | cbn; lia].
    + unfold ret in Hrun. injection Hrun as -> _ _. contradiction.
Qed.

(** The LEDs of the platform data (lines 345-351): when all are added, the
    driver data holds them in the order of the platform data, and the LED at
    the position of a description has one element, on the channel acquired
    by the name of that description, with its polarity. *)
Theorem pdata_led_at l1 x l2 priv (w : world HW) priv' w' :
  led_pwm_probe_loop (l1 ++ x :: l2) priv w = Ok (0, priv') w' ->
  exists h d e,
    devm_pwm_get (lp_name x) = PwmDev h /\
    length (leds priv') = (num_leds priv + length (l1 ++ x :: l2))%nat /\
    leds priv' !! (num_leds priv + length l1)%nat = Some d /\
    elements d = [e] /\
    pwm e = h /\
    active_low e = lp_active_low x /\
    period e = single_period (pwm_get_args h) (lp_pwm_period_ns x).
Proof.
  intros Hrun.
  apply probe_loop_split in Hrun
    as (priv1 & w1 & priv2 & w2 & Hpre & Hx & Hsuf).
  apply probe_loop_leds in Hpre as (ds1 & Hds1 & Hlen1).
  apply probe_loop_leds in Hsuf as (ds2 & Hds2 & Hlen2).
  apply add_single_ok in Hx
    as (h & d & e & Hp & Hleds & Hel & Hpwm & Hper & Hal & _).
  exists h, d, e. split; [exact Hp|].
  assert (Hall : leds priv' = (leds priv ++ ds1) ++ d :: ds2).
  { rewrite Hds2, Hleds, Hds1, <- !app_assoc. reflexivity. }
  split.
  { rewrite Hall, !length_app. cbn [length]. unfold num_leds. lia. }
  split.
  { rewrite Hall. apply list_lookup_middle.
    rewrite length_app. unfold num_leds. lia. }
  repeat split; assumption.
Qed.

Lemma create_of_child_leds priv led child (w : world HW) priv' w' :
  led_pwm_create_of_child priv led child w = Ok (0, priv') w' ->
  exists d, leds priv' = leds priv ++ [d].
Proof.
  unfold led_pwm_create_of_child.
  destruct (negb (Nat.eqb (num_color_elements_of child) 0)); intros Hrun.
  - apply add_multi_ok in Hrun as (d & done' & Hleds & _).
    exists d. exact Hleds.
  - apply add_single_ok in Hrun as (h & d & e & _ & Hleds & _).
    exists d. exact Hleds.
Qed.

Lemma create_of_loop_split n1 x n2 :
  forall led priv (w : world HW) priv' w',
    led_pwm_create_of_loop (n1 ++ x :: n2) led priv w = Ok (0, priv') w' ->
    exists priv1 w1 priv2 w2,
      led_pwm_create_of_loop n1 led priv w = Ok (0, priv1) w1 /\
      led_pwm_create_of_child priv1 (fold_left next_led n1 led) x w1
        = Ok (0, priv2) w2 /\
      led_pwm_create_of_loop n2 (next_led (fold_left next_led n1 led) x)
                             priv2 w2 = Ok (0, priv') w'.
Proof.
  induction n1 as [|child n1 IH]; intros led priv w priv' w' Hrun.
  - cbn [app led_pwm_create_of_loop fold_left] in *.
    apply bind_inv in Hrun as ([r priv2] & w2 & Hadd & Hrun).
    cbn [fst snd] in Hrun.
    destruct (Z.eqb_spec r 0) as [->|Hnz]; cbn [negb] in Hrun.
    + exists priv, w, priv2, w2. repeat split; assumption.
    + unfold ret in Hrun. injection Hrun as -> _ _. contradiction.
  - cbn [app led_pwm_create_of_loop fold_left] in *.
    apply bind_inv in Hrun as ([r priv0] & w0 & Hadd & Hrun).
    cbn [fst snd] in Hrun.
    destruct (Z.eqb_spec r 0) as [->|Hnz]; cbn [negb] in Hrun.
    + apply IH in Hrun as (priv1 & w1 & priv2 & w2 & Hpre & Hx & Hsuf).
      exists priv1, w1, priv2, w2. split; [|split; assumption].
      erewrite bind_ok by exact Hadd. exact Hpre.
    + unfold ret in Hrun. injection Hrun as -> _ _. contradiction.
Qed.

Lemma create_of_loop_leds children :
  forall led priv (w : world HW) priv' w',
    led_pwm_create_of_loop children led priv w = Ok (0, priv') w' ->
    exists ds, leds priv' = leds priv ++ ds /\ length ds = length children.
Proof.
  induction children as [|child children IH]; intros led priv w priv' w' Hrun.
  - cbn in Hrun. unfold ret in Hrun. injection Hrun as <- _.
    exists []. rewrite app_nil_r. split; reflexivity.
  - cbn [led_pwm_create_of_loop] in Hrun.
    apply bind_inv in Hrun as ([r priv0] & w0 & Hadd & Hrun).
    cbn [fst snd] in Hrun.
    destruct (Z.eqb_spec r 0) as [->|Hnz]; cbn [negb] in Hrun.
    + apply create_of_child_leds in Hadd as (d & Hleds).
      apply IH in Hrun as (ds & Hds & Hlen).
      exists (d :: ds). rewrite Hds, Hleds, <- app_assoc.
      split; [reflexivity | cbn; lia].
    + unfold ret in Hrun. injection Hrun as -> _ _. contradiction.
Qed.

(** The LEDs of the tree (lines 277-323): when all are added, the driver
    data holds them in the order of the nodes.  The LED of a node without
    element nodes has one element, on the channel of the node, with the
    polarity of the node and, the tree giving no fallback, the hardware
    period of the channel as it is; the LED of a node with element nodes has
    one element for each of them, built from it. *)
Theorem tree_led_at n1 x n2 priv (w : world HW) priv' w' :
  led_pwm_create_of (n1 ++ x :: n2) priv w = Ok (0, priv') w' ->
  exists d,
    length (leds priv') = (num_leds priv + length (n1 ++ x :: n2))%nat /\
    leds priv' !! (num_leds priv + length n1)%nat = Some d /\
    (num_color_elements_of x = O ->
     exists h e,
       devm_of_pwm_get (ln_pwms x) = PwmDev h /\
       elements d = [e] /\
       pwm e = h /\
       active_low e = bool_to_uint (ln_active_low x) /\
       period e = pwm_get_args h) /\
    (num_color_elements_of x <> O ->
     Forall2 element_built
       (List.filter is_element_node (ln_children x)) (elements d)).
Proof.
  unfold led_pwm_create_of. intros Hrun.
  apply create_of_loop_split in Hrun
    as (priv1 & w1 & priv2 & w2 & Hpre & Hx & Hsuf).
  apply create_of_loop_leds in Hpre as (ds1 & Hds1 & Hlen1).
  apply create_of_loop_leds in Hsuf as (ds2 & Hds2 & Hlen2).
  destruct (create_of_child_leds _ _ _ _ _ _ Hx) as (d & Hleds).
  assert (Hall : leds priv' = (leds priv ++ ds1) ++ d :: ds2).
  { rewrite Hds2, Hleds, Hds1, <- !app_assoc. reflexivity. }
  exists d.
  split.
  { rewrite Hall, !length_app. cbn [length]. unfold num_leds. lia. }
  split.
  { rewrite Hall. apply list_lookup_middle.
    rewrite length_app. unfold num_leds. lia. }
  unfold led_pwm_create_of_child in Hx.
  split.
  - intros Hsingle. rewrite Hsingle in Hx. cbn [Nat.eqb negb] in Hx.
    apply add_single_ok in Hx
      as (h & d' & e & Hp & Hleds' & Hel & Hpwm & Hper & Hal & _).
    rewrite Hleds in Hleds'. apply app_inj_tail in Hleds' as [_ <-].
    exists h, e. split; [exact Hp|]. split; [exact Hel|].
    split; [exact Hpwm|]. split; [exact Hal|].
    rewrite Hper. cbn [set_active_low of_led lp_pwm_period_ns].
    rewrite next_led_period. unfold single_period.
    cbn [zero_led_pwm lp_pwm_period_ns Z.ltb Z.compare].
    rewrite andb_false_r. reflexivity.
  - intros Hmulti.
    destruct (Nat.eqb_spec (num_color_elements_of x) 0) as [Hz|_];
      [contradiction|]. cbn [negb] in Hx.
    apply add_multi_elements in Hx as (d' & Hleds' & Hall').
    rewrite Hleds in Hleds'. apply app_inj_tail in Hleds' as [_ <-].
    exact Hall'.
Qed.

Lemma same_description_refl c : same_description c c.
Proof. repeat split. Qed.

Lemma same_description_trans c1 c2 c3 :
  same_description c1 c2 -> same_description c2 c3 -> same_description c1 c3.
Proof.
  intros (A1 & A2 & A3) (B1 & B2 & B3).
  repeat split; congruence.
Qed.

(** The class device of an LED that [led_pwm_add_single] has added: the
    registered one, scaled for the first brightness set. *)
Lemma add_single_cdev priv led child (w : world HW) priv' w' :
  led_pwm_add_single priv led child w = Ok (0, priv') w' ->
  exists d cdev2 ce,
    leds priv' = leds priv ++ [d] /\
    led_classdev_register (single_cdev led) = (0, cdev2) /\
    cdev d = single_first_cdev cdev2 ce.
Proof.
  unfold led_pwm_add_single. intros Hrun.
  apply bind_inv in Hrun as (p & w1 & Hacq & Hrun).
  destruct p as [h|errno].
  - apply bind_inv in Hrun as ([] & w2 & _ & Hrun).
    apply bind_inv in Hrun as ([r cdev2] & w3 & Hreg & Hrun).
    unfold call_led_classdev_register in Hreg.
    change (set_brightness_set_blocking _) with (single_cdev led) in Hreg.
    destruct (led_classdev_register (single_cdev led)) as [r' c'] eqn:Ereg.
    injection Hreg as -> -> _.
    destruct (Z.eqb_spec r 0) as [->|Hnz].
    + apply bind_inv in Hrun as (ce & w4 & _ & Hrun).
      apply bind_inv in Hrun as (set & w5 & Hset & Hrun).
      apply set_inv_log in Hset as (-> & _).
      unfold ret in Hrun. injection Hrun as <- _.
      eexists _, cdev2, ce. split; [reflexivity|].
      split; reflexivity.
    + apply bind_inv in Hrun as ([] & w4 & _ & Hrun).
      unfold ret in Hrun. injection Hrun as -> _ _. contradiction.
  - apply bind_inv in Hrun as ([] & w2 & _ & Hrun).
    unfold ret in Hrun. injection Hrun as Hz _ _. discriminate.
Qed.

Lemma multi_child_cdev led c st (w : world HW) st' w' :
  led_pwm_add_multi_child led c st w = Ok (inr st') w' ->
  ms_cdev st' = ms_cdev st \/
  ms_cdev st' =
    snd (led_color_element_setup_of (ms_cdev st) (ms_elem_index st) c).
Proof.
  unfold led_pwm_add_multi_child.
  destruct (is_element_node c).
  - destruct (led_color_element_setup_of _ _ _) as [r cdev1].
    destruct (r =? 0); cbn [negb]; [|discriminate].
    destruct (ms_elements st !! ms_elem_index st) as [slot|]; [|discriminate].
    intros Hrun.
    apply bind_inv in Hrun as (p & w1 & _ & Hrun).
    destruct p as [h|errno].
    + apply bind_inv in Hrun as ([] & w2 & _ & Hrun).
      unfold ret in Hrun. injection Hrun as <- _. right. reflexivity.
    + apply bind_inv in Hrun as ([] & w2 & _ & Hrun). discriminate.
  - unfold ret. intros [= <- _]. left. reflexivity.
Qed.

Lemma multi_loop_cdev led children :
  (forall c i n,
      same_description c (snd (led_color_element_setup_of c i n))) ->
  forall st (w : world HW) st' w',
    led_pwm_add_multi_loop led children st w = Ok (inr st') w' ->
    same_description (ms_cdev st) (ms_cdev st').
Proof.
  intros Hsetup.
  induction children as [|c children IH]; intros st w st' w' Hrun.
  - cbn in Hrun. unfold ret in Hrun. injection Hrun as <- _.
    apply same_description_refl.
  - cbn [led_pwm_add_multi_loop] in Hrun.
    apply bind_inv in Hrun as (res & w2 & Hstep & Hrun).
    destruct res as [r|st2]; [discriminate|].
    apply IH in Hrun.
    eapply same_description_trans; [|exact Hrun].
    apply multi_child_cdev in Hstep as [-> | ->];
      [apply same_description_refl | apply Hsetup].
Qed.

(** The class device of an LED that [led_pwm_add_multi] has added: the one
    the setups have made of the initial one, registered and scaled. *)
Lemma add_multi_cdev priv led child n (w : world HW) priv' w' :
  (forall c i n,
      same_description c (snd (led_color_element_setup_of c i n))) ->
  led_pwm_add_multi priv led child n w = Ok (0, priv') w' ->
  exists d c1 cdev2,
    leds priv' = leds priv ++ [d] /\
    same_description (ms_cdev (led_pwm_add_multi_init led n)) c1 /\
    led_classdev_register (set_brightness_set_blocking c1) = (0, cdev2) /\
    cdev d = led_scale_color_elements cdev2 (brightness cdev2).
Proof.
  intros Hsetup. unfold led_pwm_add_multi. intros Hrun.
  apply bind_inv in Hrun as (res & w1 & Hloop & Hrun).
  destruct res as [r|st].
  - unfold ret in Hrun. injection Hrun as -> _ _.
    apply multi_loop_fail in Hloop. contradiction.
  - apply (multi_loop_cdev led _ Hsetup) in Hloop.
    apply bind_inv in Hrun as ([r cdev2] & w2 & Hreg & Hrun).
    unfold call_led_classdev_register in Hreg.
    destruct (led_classdev_register _) as [r' c'] eqn:Ereg.
    injection Hreg as -> -> _.
    destruct (Z.eqb_spec r 0) as [->|Hnz].
    + apply bind_inv in Hrun as (set & w3 & Hset & Hrun).
      apply set_inv_log in Hset as (-> & _).
      unfold ret in Hrun. injection Hrun as <- _.
      eexists _, (ms_cdev st), cdev2. split; [reflexivity|].
      split; [exact Hloop|]. split; [exact Ereg | reflexivity].
    + apply bind_inv in Hrun as ([] & w3 & _ & Hrun).
      unfold ret in Hrun. injection Hrun as -> _ _. contradiction.
Qed.

(** The LED of a tree node carries the description of the node (lines
    285-294, 144-147 and 204-207), with an LED core whose registration,
    scaling and color element setup leave the name, the default trigger and
    the maximal brightness of a class device as they are: when all LEDs of
    the tree are added, the class device of the LED at the position of a
    node has as name the label of the node, or the name of the node without
    one, the default trigger of the node, and as maximal brightness the
    "max-brightness" of the node or, when the node has none, that of the
    nearest node before it that has one (0 when there is none): [led] is
    zeroed once before the loop and only overwritten. *)
Theorem tree_description n1 x n2 priv (w : world HW) priv' w' :
  (forall c, same_description c (snd (led_classdev_register c))) ->
  (forall c b, same_description c (led_scale_color_elements c b)) ->
  (forall c i n,
      same_description c (snd (led_color_element_setup_of c i n))) ->
  led_pwm_create_of (n1 ++ x :: n2) priv w = Ok (0, priv') w' ->
  exists d,
    leds priv' !! (num_leds priv + length n1)%nat = Some d /\
    name (cdev d) =
      match ln_label x with
      | Some l => l
      | None => ln_name x
      end /\
    default_trigger (cdev d) = ln_default_trigger x /\
    max_brightness (cdev d) = last_max_brightness (n1 ++ [x]).
Proof.
  intros Hregister Hscale Hsetup. unfold led_pwm_create_of. intros Hrun.
  apply create_of_loop_split in Hrun
    as (priv1 & w1 & priv2 & w2 & Hpre & Hx & Hsuf).
  apply create_of_loop_leds in Hpre as (ds1 & Hds1 & Hlen1).
  apply create_of_loop_leds in Hsuf as (ds2 & Hds2 & Hlen2).
  assert (Hmax : lp_max_brightness (tree_led n1 x)
                 = last_max_brightness (n1 ++ [x])).
  { unfold tree_led, last_max_brightness. cbn [of_led lp_max_brightness].
    rewrite next_led_max_brightness, fold_left_app. reflexivity. }
  assert (Hd : exists d,
             leds priv2 = leds priv1 ++ [d] /\
             name (cdev d) = lp_name (tree_led n1 x) /\
             default_trigger (cdev d) = lp_default_trigger (tree_led n1 x) /\
             max_brightness (cdev d) = lp_max_brightness (tree_led n1 x)).
  { unfold led_pwm_create_of_child in Hx.
    fold (tree_led n1 x) in Hx.
    destruct (negb (Nat.eqb (num_color_elements_of x) 0)).
    - apply (add_multi_cdev _ _ _ _ _ _ _ Hsetup) in Hx
        as (d & c1 & cdev2 & Hleds & Hc1 & Hreg & Hcdev).
      exists d. split; [exact Hleds|].
      pose proof (Hregister (set_brightness_set_blocking c1)) as Hr.
      rewrite Hreg in Hr. cbn [snd] in Hr.
      pose proof (Hscale cdev2 (brightness cdev2)) as Hs.
      rewrite <- Hcdev in Hs.
      destruct Hc1 as (A1 & A2 & A3), Hr as (B1 & B2 & B3),
               Hs as (C1 & C2 & C3).
      cbn [set_brightness_set_blocking name default_trigger max_brightness
           led_pwm_add_multi_init ms_cdev] in *.
      repeat split; congruence.
    - apply add_single_cdev in Hx
        as (d & cdev2 & ce & Hleds & Hreg & Hcdev).
      exists d. split; [exact Hleds|].
      pose proof (Hregister (single_cdev
                               (set_active_low (tree_led n1 x)
                                               (ln_active_low x)))) as Hr.
      rewrite Hreg in Hr. cbn [snd] in Hr.
      unfold single_first_cdev in Hcdev.
      match type of Hcdev with
      | _ = led_scale_color_elements ?c ?b =>
          pose proof (Hscale c b) as Hs
      end.
      rewrite <- Hcdev in Hs.
      destruct Hr as (B1 & B2 & B3), Hs as (C1 & C2 & C3).
      cbn [set_color_elements single_cdev set_active_low name
           default_trigger max_brightness lp_name lp_default_trigger
           lp_max_brightness] in *.
      repeat split; congruence. }
  destruct Hd as (d & Hleds & Hname & Htrig & Hmb).
  exists d. split.
  { assert (Hall : leds priv' = (leds priv ++ ds1) ++ d :: ds2).
    { rewrite Hds2, Hleds, Hds1, <- !app_assoc. reflexivity. }
    rewrite Hall. apply list_lookup_middle.
    rewrite length_app. unfold num_leds. lia. }
  split; [rewrite Hname; reflexivity|].
  split; [rewrite Htrig; reflexivity|].
  rewrite Hmb. exact Hmax.
Qed.

End LedOrder.

Lemma pdata_led_at_witness :
  exists priv' w',
    led_pwm_probe_loop (P := board) (L := sim_core)
      ([ board_led "led0" ] ++ board_led "led2" :: []) {| leds := [] |} boot
      = Ok (0, priv') w' /\
    exists h d e,
      board_by_name "led2" = PwmDev h /\
      length (leds priv') = 2%nat /\
      leds priv' !! 1%nat = Some d /\
      elements d = [e] /\
      pwm e = h /\
      active_low e = 0 /\
      period e = single_period (board_period h) 5000.
Proof.
  assert (Hrun : exists priv' w',
             led_pwm_probe_loop (P := board) (L := sim_core)
               ([ board_led "led0" ] ++ board_led "led2" :: [])
               {| leds := [] |} boot = Ok (0, priv') w')
    by (eexists _, _; vm_compute; reflexivity).
  destruct Hrun as (priv' & w' & Hrun).
  exists priv', w'. split; [exact Hrun|].
  apply (pdata_led_at (P := board) (L := sim_core) [ board_led "led0" ]
           (board_led "led2") [] {| leds := [] |} boot priv' w' Hrun).
Defined.

Lemma tree_led_at_witness :
  exists priv' w',
    led_pwm_create_of (P := board) (L := sim_core)
      ([ board_node "a" (Some 1%nat) [] ] ++ board_status :: [ board_pair ])
      {| leds := [] |} boot = Ok (0, priv') w' /\
    exists d,
      length (leds priv') = 3%nat /\
      leds priv' !! 1%nat = Some d /\
      (num_color_elements_of board_status = O ->
       exists h e,
         board_by_ref (Some 2%nat) = PwmDev h /\
         elements d = [e] /\
         pwm e = h /\
         active_low e = 1 /\
         period e = board_period h) /\
      (num_color_elements_of board_status <> O ->
       Forall2 (element_built (P := board))
         (List.filter is_element_node (ln_children board_status))
         (elements d)).
Proof.
  assert (Hrun : exists priv' w',
             led_pwm_create_of (P := board) (L := sim_core)
               ([ board_node "a" (Some 1%nat) [] ] ++ board_status
                  :: [ board_pair ])
               {| leds := [] |} boot = Ok (0, priv') w')
    by (eexists _, _; vm_compute; reflexivity).
  destruct Hrun as (priv' & w' & Hrun).
  exists priv', w'. split; [exact Hrun|].
  apply (tree_led_at (P := board) (L := sim_core)
           [ board_node "a" (Some 1%nat) [] ] board_status [ board_pair ]
           {| leds := [] |} boot priv' w' Hrun).
Defined.

(** On the board: the second node, labelled "status", has no
    "max-brightness" and its LED takes the 255 of the node before it; the
    two-color LED after it goes by the name of its node. *)
Lemma tree_description_witness :
  exists priv' w',
    led_pwm_create_of (P := board) (L := sim_core)
      ([ board_node "a" (Some 1%nat) [] ] ++ board_status :: [ board_pair ])
      {| leds := [] |} boot = Ok (0, priv') w' /\
    (exists d,
        leds priv' !! 1%nat = Some d /\
        name (cdev d) = "status"%string /\
        default_trigger (cdev d) = Some "heartbeat"%string /\
        max_brightness (cdev d) = 255) /\
    (exists d,
        leds priv' !! 2%nat = Some d /\
        name (cdev d) = "pair"%string /\
        default_trigger (cdev d) = None /\
        max_brightness (cdev d) = 255).
Proof.
  assert (Hrun : exists priv' w',
             led_pwm_create_of (P := board) (L := sim_core)
               ([ board_node "a" (Some 1%nat) [] ] ++ board_status
                  :: [ board_pair ])
               {| leds := [] |} boot = Ok (0, priv') w')
    by (eexists _, _; vm_compute; reflexivity).
  destruct Hrun as (priv' & w' & Hrun).
  exists priv', w'. split; [exact Hrun|]. split.
  - apply (tree_description (P := board) (L := sim_core)
             [ board_node "a" (Some 1%nat) [] ] board_status [ board_pair ]
             {| leds := [] |} boot priv' w');
      [intros c; repeat split | intros c b; repeat split
       | intros c i n; repeat split | exact Hrun].
  - apply (tree_description (P := board) (L := sim_core)
             [ board_node "a" (Some 1%nat) []; board_status ] board_pair []
             {| leds := [] |} boot priv' w');
      [intros c; repeat split | intros c b; repeat split
       | intros c i n; repeat split | exact Hrun].
Defined.

(** ** The period of a constructed element *)

Lemma to_int_index_le j : 0 <= j -> 0 <= to_int j -> to_int j <= j.
Proof.
  unfold to_int. intros Hj Hpos.
  pose proof (Z.mod_le (j + 2 ^ 31) (2 ^ 32)). lia.
Qed.

Section Construction.
Context {HW : Type} {P : pwm_provider HW} {L : led_core}.

(** [led_pwm_add_single] returns 0 when the channel is acquired, the
    registration succeeds and the first brightness set finds its color
    element. *)
Lemma add_single_run priv led child (w : world HW) h cdev2 ce0 :
  single_pwm led child = PwmDev h ->
  led_classdev_register (single_cdev led) = (0, cdev2) ->
  color_elements cdev2 !! O = Some ce0 ->
  drivable 1 (single_first_cdev cdev2 ce0) ->
  exists priv' w', led_pwm_add_single priv led child w = Ok (0, priv') w'.
Proof.
  intros Hp Hreg Hce Hdrv. unfold led_pwm_add_single.
  erewrite bind_ok; [|rewrite add_single_acquire, Hp; reflexivity].
  cbv beta iota.
  erewrite bind_ok by reflexivity.
  erewrite bind_ok.
  2:{ unfold call_led_classdev_register.
      change (set_brightness_set_blocking _) with (single_cdev led).
      rewrite Hreg. reflexivity. }
  cbv beta iota zeta. cbn [Z.eqb].
  erewrite bind_ok.
  2:{ unfold array_read. change (0 <? 0) with false.
      change (Z.to_nat 0) with O. cbv iota.
      rewrite Hce. reflexivity. }
  match goal with
  | |- exists _ _, bind (led_pwm_set ?dat ?b) _ ?w0 = _ =>
      destruct (set_run dat b w0) as (w' & l' & Hset & _)
  end.
  { constructor; [|constructor]. right.
    destruct (Hdrv O) as (ce & Hlook & Hmax); [lia|].
    exists ce. split; [exact Hlook | exact Hmax]. }
  erewrite bind_ok by exact Hset.
  eexists _, _. reflexivity.
Qed.

(** The loop of [led_pwm_add_multi] runs to its end when every setup
    succeeds and every channel is acquired, and leaves the class device the
    setups have made. *)
Lemma multi_loop_total led children :
  forall st (w : world HW) c1,
    multi_setup (ms_cdev st) (ms_elem_index st) children = Some c1 ->
    Forall channel_found (List.filter is_element_node children) ->
    (ms_elem_index st + length (List.filter is_element_node children)
     <= length (ms_elements st))%nat ->
    exists st' w',
      led_pwm_add_multi_loop led children st w = Ok (inr st') w' /\
      ms_cdev st' = c1.
Proof.
  induction children as [|c children IH]; intros st w c1 Hsetup Hget Hlen.
  - cbn in Hsetup. injection Hsetup as <-.
    exists st, w. split; reflexivity.
  - cbn [multi_setup List.filter led_pwm_add_multi_loop] in *.
    destruct (is_element_node c) eqn:Hc.
    + destruct (led_color_element_setup_of (ms_cdev st) (ms_elem_index st) c)
        as [r cdev1] eqn:Hs.
      destruct (Z.eqb_spec r 0) as [->|Hnz]; [|discriminate].
      apply Forall_cons in Hget as [[h Hh] Hget].
      cbn [length] in Hlen.
      destruct (lookup_lt_is_Some_2 (ms_elements st) (ms_elem_index st))
        as [slot Hslot]; [lia|].
      set (st2 :=
             {| ms_cdev := cdev1;
                ms_elements :=
                  <[ms_elem_index st :=
                      {| element_index := to_int (Z.of_nat (ms_elem_index st));
                         pwm := h;
                         active_low := bool_to_uint (en_active_low c);
                         period := pwm_get_args h;
                         duty := duty slot |}]> (ms_elements st);
                ms_elem_index := S (ms_elem_index st) |}).
      destruct (IH st2
                  {| hw := pwm_apply_args h (hw w);
                     log := (log w ++ [EvPwmGet (PwmDev h)])
                              ++ [EvPwmApplyArgs h];
                     registered := registered w;
                     devres := devres w ++ [h] |} c1)
        as (st' & w' & Hrun & Hcdev).
      { exact Hsetup. }
      { exact Hget. }
      { subst st2. cbn [ms_elem_index ms_elements].
        rewrite length_insert. lia. }
      exists st', w'. split; [|exact Hcdev].
      assert (Hstep : led_pwm_add_multi_child led c st w =
                        Ok (inr st2)
                           {| hw := pwm_apply_args h (hw w);
                              log := (log w ++ [EvPwmGet (PwmDev h)])
                                       ++ [EvPwmApplyArgs h];
                              registered := registered w;
                              devres := devres w ++ [h] |}).
      { unfold led_pwm_add_multi_child. rewrite Hc, Hs, Hslot.
        cbn [Z.eqb negb].
        erewrite bind_ok;
          [|unfold call_devm_of_pwm_get, hold_pwm; rewrite Hh; reflexivity].
        reflexivity. }
      erewrite bind_ok by exact Hstep. exact Hrun.
    + erewrite bind_ok by (apply multi_child_skip; exact Hc).
      apply IH; assumption.
Qed.

(** [led_pwm_add_multi] returns 0 when every color element is set up, every
    channel acquired, the registration succeeds and the first brightness set
    finds its color elements. *)
Lemma add_multi_run priv led child (w : world HW) c1 cdev2 :
  multi_cdev led child = Some c1 ->
  Forall channel_found (List.filter is_element_node (ln_children child)) ->
  led_classdev_register (set_brightness_set_blocking c1) = (0, cdev2) ->
  drivable (num_color_elements_of child)
           (led_scale_color_elements cdev2 (brightness cdev2)) ->
  exists priv' w',
    led_pwm_add_multi priv led child (num_color_elements_of child) w
      = Ok (0, priv') w'.
Proof.
  intros Hsetup Hget Hreg Hdrv.
  destruct (multi_loop_total led (ln_children child)
              (led_pwm_add_multi_init led (num_color_elements_of child))
              w c1 Hsetup Hget)
    as (st & w1 & Hloop & Hcdev).
  { cbn [led_pwm_add_multi_init ms_elem_index ms_elements].
    rewrite length_replicate. unfold num_color_elements_of. lia. }
  destruct (multi_loop_indices led (ln_children child) _ w st w1 []
              (replicate (num_color_elements_of child) zero_element)
              Hloop eq_refl eq_refl)
    as (done' & Hel & Hlen & _ & Hidx).
  cbn [app length Nat.add] in Hel, Hidx.
  fold (num_color_elements_of child) in Hlen.
  rewrite Hlen, drop_replicate, Nat.sub_diag in Hel.
  cbn [replicate] in Hel. rewrite app_nil_r in Hel.
  unfold led_pwm_add_multi.
  erewrite bind_ok by exact Hloop. cbv beta iota.
  erewrite bind_ok.
  2:{ unfold call_led_classdev_register. rewrite Hcdev, Hreg. reflexivity. }
  cbv beta iota zeta. cbn [Z.eqb].
  match goal with
  | |- exists _ _, bind (led_pwm_set ?dat ?b) _ ?w0 = _ =>
      destruct (set_run dat b w0) as (w' & l' & Hset & _)
  end.
  { cbn [cdev elements]. rewrite Hel. apply Forall_lookup_2.
    intros j e Hj. pose proof (Hidx j e Hj) as Hindex.
    pose proof (lookup_lt_Some _ _ _ Hj) as Hlt. rewrite Hlen in Hlt.
    destruct (Z.ltb_spec (element_index e) 0) as [Hneg|Hpos];
      [left; exact Hneg | right].
    unfold color_of.
    destruct (Z.ltb_spec (element_index e) 0) as [|_]; [lia|].
    apply Hdrv. rewrite Hindex in *.
    pose proof (to_int_index_le (Z.of_nat j)). lia. }
  erewrite bind_ok by exact Hset.
  eexists _, _. reflexivity.
Qed.

(** C7: in the single-element construction the element's period is the
    hardware period of its channel when that is nonzero, and the fallback
    period of the LED's description otherwise; in the multi-element
    construction the period of every element is the hardware period of that
    element's channel, with no fallback.  Each construction produces such an
    LED when its channels are acquired, the registration succeeds and the
    first brightness set finds the color elements of the LED with a nonzero
    range; and whenever a construction returns 0, the LED it has added is
    such a one. *)
Theorem construction_period priv led child node (w : world HW) :
  0 <= lp_pwm_period_ns led ->
  (forall h cdev2 ce0,
      single_pwm led child = PwmDev h ->
      led_classdev_register (single_cdev led) = (0, cdev2) ->
      color_elements cdev2 !! O = Some ce0 ->
      drivable 1 (single_first_cdev cdev2 ce0) ->
      exists priv' w' d e,
        led_pwm_add_single priv led child w = Ok (0, priv') w' /\
        leds priv' = leds priv ++ [d] /\
        elements d = [e] /\
        pwm e = h /\
        period e =
          (if pwm_get_args h =? 0 then lp_pwm_period_ns led
           else pwm_get_args h)) /\
  (forall priv' w',
      led_pwm_add_single priv led child w = Ok (0, priv') w' ->
      exists h d e,
        single_pwm led child = PwmDev h /\
        leds priv' = leds priv ++ [d] /\
        elements d = [e] /\
        pwm e = h /\
        period e =
          (if pwm_get_args h =? 0 then lp_pwm_period_ns led
           else pwm_get_args h)) /\
  (forall c1 cdev2,
      multi_cdev led node = Some c1 ->
      Forall channel_found (List.filter is_element_node (ln_children node)) ->
      led_classdev_register (set_brightness_set_blocking c1) = (0, cdev2) ->
      drivable (num_color_elements_of node)
               (led_scale_color_elements cdev2 (brightness cdev2)) ->
      exists priv' w' d,
        led_pwm_add_multi priv led node (num_color_elements_of node) w
          = Ok (0, priv') w' /\
        leds priv' = leds priv ++ [d] /\
        Forall2 (fun c e =>
                   devm_of_pwm_get (en_pwms c) = PwmDev (pwm e) /\
                   period e = pwm_get_args (pwm e))
                (List.filter is_element_node (ln_children node))
                (elements d)) /\
  (forall priv' w',
      led_pwm_add_multi priv led node (num_color_elements_of node) w
        = Ok (0, priv') w' ->
      exists d,
        leds priv' = leds priv ++ [d] /\
        Forall2 (fun c e =>
                   devm_of_pwm_get (en_pwms c) = PwmDev (pwm e) /\
                   period e = pwm_get_args (pwm e))
                (List.filter is_element_node (ln_children node))
                (elements d)).
Proof.
  intros Hfb.
  assert (Hsingle : forall priv' w',
             led_pwm_add_single priv led child w = Ok (0, priv') w' ->
             exists h d e,
               single_pwm led child = PwmDev h /\
               leds priv' = leds priv ++ [d] /\
               elements d = [e] /\
               pwm e = h /\
               period e =
                 (if pwm_get_args h =? 0 then lp_pwm_period_ns led
                  else pwm_get_args h)).
  { intros priv' w' Hrun.
    apply add_single_ok in Hrun
      as (h & d & e & Hp & Hleds & Hel & Hpwm & Hper & _).
    exists h, d, e. repeat (split; [assumption|]).
    rewrite Hper. apply single_period_fallback. exact Hfb. }
  assert (Hmulti : forall priv' w',
             led_pwm_add_multi priv led node (num_color_elements_of node) w
               = Ok (0, priv') w' ->
             exists d,
               leds priv' = leds priv ++ [d] /\
               Forall2 (fun c e =>
                          devm_of_pwm_get (en_pwms c) = PwmDev (pwm e) /\
                          period e = pwm_get_args (pwm e))
                       (List.filter is_element_node (ln_children node))
                       (elements d)).
  { intros priv' w' Hrun.
    apply add_multi_elements in Hrun as (d & Hleds & Hall).
    exists d. split; [exact Hleds|].
    eapply Forall2_impl; [exact Hall|].
    intros c e (Hp & Hper & _). split; assumption. }
  split; [|split; [exact Hsingle | split; [|exact Hmulti]]].
  - intros h cdev2 ce0 Hp Hreg Hce Hdrv.
    destruct (add_single_run priv led child w h cdev2 ce0 Hp Hreg Hce Hdrv)
      as (priv' & w' & Hrun).
    destruct (Hsingle priv' w' Hrun)
      as (h' & d & e & Hp' & Hleds & Hel & Hpwm & Hper).
    rewrite Hp in Hp'. injection Hp' as <-.
    exists priv', w', d, e. repeat split; assumption.
  - intros c1 cdev2 Hsetup Hget Hreg Hdrv.
    destruct (add_multi_run priv led node w c1 cdev2 Hsetup Hget Hreg Hdrv)
      as (priv' & w' & Hrun).
    destruct (Hmulti priv' w' Hrun) as (d & Hleds & Hall).
    exists priv', w', d. repeat split; assumption.
Qed.

End Construction.

(** On the board: "led0" is on a channel with the hardware period 1000,
    which is taken although the description has the fallback 5000; the LED
    of a node on channel 2, which has no hardware period, gets the fallback
    5000; the two-color LED on the channels 1 and 2 gets the hardware
    periods 1000 and 0, the fallback of its description notwithstanding. *)
Lemma construction_period_witness :
  (exists priv' w' d e,
      led_pwm_add_single (P := board) (L := sim_core) {| leds := [] |}
                         (board_led "led0") None boot = Ok (0, priv') w' /\
      leds priv' = [] ++ [d] /\
      elements d = [e] /\
      pwm e = 1%nat /\
      period e = 1000) /\
  (exists priv' w' d e,
      led_pwm_add_single (P := board) (L := sim_core) {| leds := [] |}
                         (board_led "c")
                         (Some (board_node "c" (Some 2%nat) [])) boot
        = Ok (0, priv') w' /\
      leds priv' = [] ++ [d] /\
      elements d = [e] /\
      pwm e = 2%nat /\
      period e = 5000) /\
  (exists priv' w' d,
      led_pwm_add_multi (P := board) (L := sim_core) {| leds := [] |}
                        (board_led "pair") board_pair 2 boot
        = Ok (0, priv') w' /\
      leds priv' = [] ++ [d] /\
      Forall2 (fun c e =>
                 board_by_ref (en_pwms c) = PwmDev (pwm e) /\
                 period e = board_period (pwm e))
              [ board_elem "element-0" 1; board_elem "element-1" 2 ]
              (elements d) /\
      map period (elements d) = [1000; 0]).
Proof.
  assert (Hdrv : forall n m (c : led_classdev),
             (forall i, (i < n)%nat ->
                        max_value <$> (color_elements c !! i) = Some m) ->
             m <> 0 -> drivable n c).
  { intros n m c Hall Hm i Hi. specialize (Hall i Hi).
    destruct (color_elements c !! i) as [ce|]; [|discriminate].
    exists ce. split; [reflexivity|]. injection Hall as ->. exact Hm. }
  split; [|split].
  - apply (proj1 (construction_period (P := board) (L := sim_core)
                    {| leds := [] |} (board_led "led0") None board_pair boot
                    ltac:(cbn; lia))
             1%nat (single_cdev (board_led "led0"))
             {| ce_name := Some "single"%string; value := 0; raw_value := 0;
                max_value := 0 |});
      [reflexivity | reflexivity | reflexivity |].
    apply (Hdrv 1%nat 255); [|discriminate].
    intros [|i] Hi; [reflexivity | lia].
  - apply (proj1 (construction_period (P := board) (L := sim_core)
                    {| leds := [] |} (board_led "c")
                    (Some (board_node "c" (Some 2%nat) [])) board_pair boot
                    ltac:(cbn; lia))
             2%nat (single_cdev (board_led "c"))
             {| ce_name := Some "single"%string; value := 0; raw_value := 0;
                max_value := 0 |});
      [reflexivity | reflexivity | reflexivity |].
    apply (Hdrv 1%nat 255); [|discriminate].
    intros [|i] Hi; [reflexivity | lia].
  - assert (Hex : exists priv' w' d,
               led_pwm_add_multi (P := board) (L := sim_core) {| leds := [] |}
                                 (board_led "pair") board_pair 2 boot
                 = Ok (0, priv') w' /\
               leds priv' = [] ++ [d] /\
               Forall2 (fun c e =>
                          board_by_ref (en_pwms c) = PwmDev (pwm e) /\
                          period e = board_period (pwm e))
                       [ board_elem "element-0" 1; board_elem "element-1" 2 ]
                       (elements d)).
    { eapply (proj1 (proj2 (proj2
                (construction_period (P := board) (L := sim_core)
                   {| leds := [] |} (board_led "pair") None board_pair boot
                   ltac:(cbn; lia))))).
      - reflexivity.
      - repeat constructor; eexists; reflexivity.
      - reflexivity.
      - apply (Hdrv 2%nat 255); [|discriminate].
        intros [|[|i]] Hi; [reflexivity | reflexivity | lia]. }
    destruct Hex as (priv' & w' & d & Hrun & Hleds & Hall).
    exists priv', w', d. split; [exact Hrun|]. split; [exact Hleds|].
    split; [exact Hall|].
    destruct (elements d) as [|e1 [|e2 [|e3 es]]];
      try (exfalso; apply Forall2_length in Hall; discriminate).
    apply Forall2_cons in Hall as [[Hp1 Hper1] Hall].
    apply Forall2_cons in Hall as [[Hp2 Hper2] _].
    cbn in Hp1, Hp2. injection Hp1 as Hp1. injection Hp2 as Hp2.
    cbn [map]. rewrite Hper1, Hper2, <- Hp1, <- Hp2. reflexivity.
Defined.

